(** * Conversation logging to the Nomic map: a model of [nomic_logging.py]

    The development embeds [log_convo_to_nomic], its retry decorator and
    [create_nomic_map] as executable Rocq definitions and proves what the
    produced records, the calls made to the collaborators and the result
    handed back to the caller look like.

    Conventions.
    - Python [str] values are Rocq strings.  A Rocq string is a sequence of
      bytes; the two emoji markers are their UTF-8 encodings.  The two
      separators the code splits on are ASCII, and an ASCII byte never occurs
      inside a multi-byte UTF-8 sequence, so splitting bytes and splitting
      code points cut at the same places.
    - A Python exception is kept by what the code looks at: its [str(e)], and
      whether it is the dictionary-carrying exception of line 195.
    - The payload of a call is a dictionary whose entries may be missing;
      the values it holds have the types the front end sends: a role is a
      string, a content is a string or a list of dictionaries, a ['text'] is
      a string.  Values of other types are outside the model.
    - Row ids are int64 values once line 89 has run, and [last_id + 1] wraps
      around.
    - Every call to a collaborator (Nomic, OpenAI, Supabase, Sentry, the
      clock, [time.sleep]) is answered by a [world] record and recorded in a
      trace of [event]s.  Two more events mark the entries of the two
      functions.
    - The libraries behave as documented: a pandas data frame carries an
      index label per row and the columns the code itself writes,
      [Series.max()] of no rows is NaN, indexing a list or an array with a
      negative number counts from its end; [backoff.on_exception] calls
      [giveup] on each exception, stops at [max_tries], returns [None] when it
      gives up with [raise_on_giveup=False], and sleeps the value of its wait
      generator passed through [full_jitter]. *)

From Stdlib Require Import String Ascii List ZArith QArith Lia Lqa Bool FinFun.
Import ListNotations.
Open Scope list_scope.
Open Scope string_scope.

(* ===================================================================== *)
(** * Part I: definitions                                                 *)
(* ===================================================================== *)

(** ** Python values and exceptions *)

(** An exception as the code observes it. *)
Inductive pyexn : Type :=
| Exception_dict (e_str : string)  (* [Exception({"exception": e_str})], line 195 *)
| Exception_msg (msg : string).    (* any other exception [e], with [str(e) = msg] *)
(* The exceptions of the second kind are those Python and the collaborators
   raise with one argument, a text: [IndexError], [KeyError(key)], a failure
   with a message. *)

(** The outcome of evaluating a Python expression or block. *)
Inductive res (A : Type) : Type :=
| Ok (a : A)
| Raise (e : pyexn).
Arguments Ok {A} a.
Arguments Raise {A} e.

Definition IndexError : pyexn := Exception_msg "list index out of range".
Definition KeyError_text : pyexn := Exception_msg "'text'".
Definition ValueError_reshape : pyexn :=
  Exception_msg "cannot reshape array into shape (1,1536)".
Definition ValueError_nan : pyexn :=
  Exception_msg "Cannot convert non-finite values (NA or inf) to integer".
Definition TypeError_str_index : pyexn :=
  Exception_msg "string indices must be integers".

(** [str(e)] for the exceptions caught at lines 188 and 373: those come from
    the collaborators or from Python itself, never from line 195. *)
Definition str (e : pyexn) : string :=
  match e with
  | Exception_msg msg => msg
  | Exception_dict e_str => "{'exception': '" ++ e_str ++ "'}"
  end.

(** A number as pandas hands it back: [Series.max()] of an empty column is
    NaN, and NaN + 1 is NaN. *)
Inductive pynum : Type :=
| PyInt (z : Z)
| PyNaN.

(** The column written by [astype(int)] (line 89) is an int64 column, and so
    is its [max()]: the values from -2^63 to 2^63 - 1, with arithmetic that
    wraps around. *)
Definition int64_min : Z := (-9223372036854775808)%Z.
Definition int64_max : Z := 9223372036854775807%Z.

Definition wrap_int64 (z : Z) : Z :=
  ((z + 9223372036854775808) mod 18446744073709551616 - 9223372036854775808)%Z.

(** [last_id + 1] (lines 130 and 168). *)
Definition pynum_succ (n : pynum) : pynum :=
  match n with
  | PyInt z => PyInt (wrap_int64 (z + 1))
  | PyNaN => PyNaN
  end.

(** [l[i]] on a Python list or a numpy array: negative indices count from
    the end, anything outside [-len, len) raises [IndexError].  The message
    is the one of a list; numpy words its own differently. *)
Definition py_index {A : Type} (l : list A) (i : Z) : res A :=
  let n := Z.of_nat (List.length l) in
  let j := if (i <? 0)%Z then (i + n)%Z else i in
  if ((j <? 0) || (n <=? j))%Z then Raise IndexError
  else match nth_error l (Z.to_nat j) with
       | Some x => Ok x
       | None => Raise IndexError
       end.

(** [l[-n:]] for [n > 0]: the last [n] elements, or the whole list when it is
    shorter. *)
Definition py_last {A : Type} (n : nat) (l : list A) : list A :=
  skipn (List.length l - n) l.

(** ** [str.split(sep)] *)

(** [s[n:]] on a string. *)
Fixpoint drop (n : nat) (s : string) : string :=
  match n, s with
  | O, _ => s
  | S n', String _ s' => drop n' s'
  | S _, EmptyString => EmptyString
  end.

(** [str.partition(sep)]: the text before the leftmost occurrence of [sep]
    and the text after it, when there is one. *)
Fixpoint partition (sep s : string) : option (string * string) :=
  if prefix sep s then Some ("", drop (String.length sep) s)
  else match s with
       | EmptyString => None
       | String c s' =>
           match partition sep s' with
           | Some (before, after) => Some (String c before, after)
           | None => None
           end
       end.

(** [s.split(sep)] for a non-empty [sep]: cut at the leftmost occurrence and
    go on with what follows it.  Each cut shortens the text, so [length s]
    rounds are enough. *)
Fixpoint split_fuel (fuel : nat) (sep s : string) : list string :=
  match partition sep s with
  | None => [s]
  | Some (before, after) =>
      before :: match fuel with
                | O => []
                | S fuel' => split_fuel fuel' sep after
                end
  end.

Definition split (sep s : string) : list string :=
  split_fuel (String.length s) sep s.

(** [sep in s]. *)
Definition contains (sep s : string) : Prop :=
  exists before after, s = before ++ sep ++ after.

Definition newline : string := String (ascii_of_nat 10) EmptyString.

(** ** Data model *)

(** One element of a structured message content; only its ['text'] entry is
    read, and it may be missing (an image part has none). *)
Record part : Type := { text : option string }.

(** [message['content']]: a string, or a list of parts. *)
Inductive pycontent : Type :=
| Text (s : string)
| Parts (parts : list part).

Record message : Type := { role : string; content : pycontent }.

(** The three values lines 69-71 (and 260-262) read out of the payload,
    named as [create_nomic_map] names them. *)
Record log_data : Type := {
  log_messages : list message;
  log_user_email : string;
  log_conversation_id : string
}.

(** The argument [conversation] of [log_convo_to_nomic], which is also the
    argument [log_data] of [create_nomic_map]: a dictionary decoded from
    JSON.  Its entry ['conversation'] may be missing, and so may each of the
    three entries read in there. *)
Record conversation_entries : Type := {
  entry_messages : option (list message);
  entry_user_email : option string;
  entry_id : option string
}.

Record payload : Type := { entry_conversation : option conversation_entries }.

(** [KeyError(key)]; its [str] is the key between quotes. *)
Definition KeyError (key : string) : pyexn := Exception_msg ("'" ++ key ++ "'").

(** Lines 69-71 and 260-262: [d['conversation']['messages']], then
    ['user_email'], then ['id']. *)
Definition read_conversation (p : payload) : res log_data :=
  match entry_conversation p with
  | None => Raise (KeyError "conversation")
  | Some c =>
      match entry_messages c with
      | None => Raise (KeyError "messages")
      | Some messages =>
          match entry_user_email c with
          | None => Raise (KeyError "user_email")
          | Some user_email =>
              match entry_id c with
              | None => Raise (KeyError "id")
              | Some conversation_id =>
                  Ok {| log_messages := messages;
                        log_user_email := user_email;
                        log_conversation_id := conversation_id |}
              end
          end
      end
  end.

(** The payload that holds the three values.  Where a payload is expected
    and the three values are written, this payload is meant. *)
Definition complete (conv : log_data) : payload :=
  {| entry_conversation :=
       Some {| entry_messages := Some (log_messages conv);
               entry_user_email := Some (log_user_email conv);
               entry_id := Some (log_conversation_id conv) |} |}.

Coercion complete : log_data >-> payload.

(** A 1536-dimensional embedding; its components are never inspected, an
    integer stands for each float's bit pattern. *)
Definition vector : Type := list Z.

(** A row of the map's data frame, and the dictionaries of lines 126, 164,
    312 and 344: the same eight keys. *)
Record indexed_record : Type := {
  course : string;
  conversation : string;
  conversation_id : string;
  id : pynum;
  user_email : string;
  first_query : pycontent;
  created_at : string;
  modified_at : string
}.

(** What lines 84-87 fetch: the data frame, each row with its pandas index
    label, and the array of embeddings. *)
Record snapshot : Type := {
  map_metadata_df : list (Z * indexed_record);
  map_embeddings_df : list vector
}.

(** A row of the [llm-convo-monitor] table. *)
Record history_row : Type := {
  row_user_email : string;
  row_created_at : string;
  row_convo_id : string;
  row_messages : list message;
  row_course_name : string
}.

(** ** Collaborators and their trace *)

Inductive event : Type :=
| Call_log_convo_to_nomic
| Call_create_nomic_map
| Nomic_login
| Delete_data (ids : list Z)
| Embed_documents (texts : list pycontent)
| Add_embeddings (embeddings : list vector) (data : list indexed_record)
| Rebuild_maps
| Map_embeddings (embeddings : list vector) (data : list indexed_record)
| Create_index (name : string)
| Capture_exception (e : pyexn)
| Sleep (seconds : Q).

Definition trace : Type := list event.

(** The answers of the collaborators during one call of
    [log_convo_to_nomic] (and of the [create_nomic_map] it may start).  A
    field of type [option pyexn] says whether that call raises. *)
Record world : Type := {
  login : option pyexn;                              (* line 55 *)
  atlas_project : res snapshot;                      (* lines 84-87 *)
  to_datetime_strftime : string -> res string;       (* lines 99, 266 *)
  delete_data : option pyexn;                        (* line 102 *)
  now : nat -> string;                               (* the k-th [datetime.now()] *)
  embed_documents : list pycontent -> res (list vector);  (* lines 177, 358 *)
  project_lock : option pyexn;                       (* lines 180-181 *)
  add_embeddings : option pyexn;                     (* line 182 *)
  rebuild_maps : option pyexn;                       (* line 183 *)
  map_login : option pyexn;                          (* line 235 *)
  create_client : option pyexn;                      (* lines 240-242 *)
  supabase_rows : res (list history_row);            (* lines 246-247 *)
  map_embeddings : option pyexn;                     (* line 363 *)
  create_index : option pyexn;                       (* line 371 *)
  random : Q                                         (* [random.random()] of the jitter *)
}.

(** Python code with exceptions and calls: a state and error monad over the
    trace. *)
Definition M (A : Type) : Type := trace -> res A * trace.

Definition ret {A : Type} (a : A) : M A := fun t => (Ok a, t).

Definition raise {A : Type} (e : pyexn) : M A := fun t => (Raise e, t).

Definition bind {A B : Type} (m : M A) (k : A -> M B) : M B :=
  fun t => match m t with
           | (Ok a, t') => k a t'
           | (Raise e, t') => (Raise e, t')
           end.

Notation "x <- c1 ;; c2" := (bind c1 (fun x => c2))
  (at level 100, c1 at next level, right associativity).
Notation "c1 ;;; c2" := (bind c1 (fun _ => c2))
  (at level 100, right associativity).

Definition lift {A : Type} (r : res A) : M A := fun t => (r, t).

Definition emit (ev : event) : M unit := fun t => (Ok tt, (t ++ [ev])%list).

(** A call to a collaborator: it is made, then it returns or raises. *)
Definition call (ev : event) (fault : option pyexn) : M unit :=
  emit ev ;;;
  match fault with
  | None => ret tt
  | Some e => raise e
  end.

(** [try: body  except Exception as e: handler e]. *)
Definition try_except {A : Type} (body : M A) (handler : pyexn -> M A) : M A :=
  fun t => match body t with
           | (Ok a, t') => (Ok a, t')
           | (Raise e, t') => handler e t'
           end.

(** ** Transcript formatting (lines 109-120, 148-159, 278-290, 296-306,
       329-339: five copies of one loop) *)

Definition emoji_user : string := "🙋 ".
Definition emoji_other : string := "🤖 ".

(** [message['content']] resolved to a text. *)
Definition message_text (m : message) : res string :=
  match content m with
  | Text s => Ok s
  | Parts [] => Raise IndexError
  | Parts (p :: _) =>
      match text p with
      | Some s => Ok s
      | None => Raise KeyError_text
      end
  end.

Definition emoji (m : message) : string :=
  if (role m =? "user")%string then emoji_user else emoji_other.

(** The text one message adds to a transcript. *)
Definition line (m : message) : res string :=
  match message_text m with
  | Ok t => Ok (newline ++ ">>> " ++ emoji m ++ role m ++ ": " ++ t ++ newline)
  | Raise e => Raise e
  end.

(** [for message in ms: acc += line(message)]. *)
Fixpoint append_lines (acc : string) (ms : list message) : res string :=
  match ms with
  | [] => Ok acc
  | m :: ms' =>
      match line m with
      | Ok l => append_lines (acc ++ l) ms'
      | Raise e => Raise e
      end
  end.

(** Lines 143-145 and 270-272: the text of the first message. *)
Definition first_message_text (ms : list message) : res string :=
  match py_index ms 0 with
  | Ok m => message_text m
  | Raise e => Raise e
  end.

(** Line 105: [prev_convo.split("\n")[1].split(": ")[1]]. *)
Definition parse_first_message (prev_convo : string) : res string :=
  match py_index (split newline prev_convo) 1 with
  | Ok l => py_index (split ": " l) 1
  | Raise e => Raise e
  end.

Notation "'let?' x ':=' e 'in' k" :=
  (match e with
   | Ok x => k
   | Raise err => Raise err
   end)
  (at level 10, x pattern, e at level 100, k at level 200).

(** ** The data frame of the map (lines 89-99) *)

Definition int_id (m : indexed_record) : res Z :=
  match id m with
  | PyInt z => Ok z
  | PyNaN => Raise ValueError_nan
  end.

(** Line 89: [map_metadata_df['id'].astype(int)]. *)
Fixpoint astype_int (df : list (Z * indexed_record)) : res (list Z) :=
  match df with
  | [] => Ok []
  | (_, m) :: df' =>
      let? z := int_id m in
      let? zs := astype_int df' in
      Ok (z :: zs)
  end.

(** Line 90: [Series.max()]; NaN on an empty column. *)
Definition series_max (col : list Z) : pynum :=
  match col with
  | [] => PyNaN
  | z :: zs => PyInt (fold_left Z.max zs z)
  end.

(** Line 92: [conversation_id in map_metadata_df.values] looks at every cell
    of every row.  The integer [id] never equals a string, nor does a cell
    holding a list. *)
Definition cell_is (v : string) (c : pycontent) : bool :=
  match c with
  | Text s => (s =? v)%string
  | Parts _ => false
  end.

Definition row_has_value (v : string) (m : indexed_record) : bool :=
  (course m =? v)%string || (conversation m =? v)%string
  || (conversation_id m =? v)%string || (user_email m =? v)%string
  || cell_is v (first_query m) || (created_at m =? v)%string
  || (modified_at m =? v)%string.

Definition in_values (v : string) (df : list (Z * indexed_record)) : bool :=
  existsb (fun r => row_has_value v (snd r)) df.

(** Line 94: [df[df['conversation_id'] == conversation_id]]. *)
Definition select_conversation (v : string) (df : list (Z * indexed_record))
  : list (Z * indexed_record) :=
  filter (fun r => (conversation_id (snd r) =? v)%string) df.

(** Line 96: [.reshape(1, 1536)]. *)
Definition reshape_1_1536 (v : vector) : res (list vector) :=
  if (List.length v =? 1536)%nat then Ok [v] else Raise ValueError_reshape.

(** ** [log_convo_to_nomic], the function under the decorator *)

Definition unique_id_field_message : string :=
  "You must specify a unique_id_field when creating a new project.".

Definition fails (fault : option pyexn) : M unit :=
  match fault with
  | None => ret tt
  | Some e => raise e
  end.

(** [OpenAIEmbeddings(...).embed_documents(texts)]. *)
Definition embed (w : world) (texts : list pycontent) : M (list vector) :=
  emit (Embed_documents texts) ;;;
  lift (embed_documents w texts).

(** Lines 93-135: the conversation has a point already. *)
Definition update_point (w : world) (course_name : string) (conv : log_data)
    (snap : snapshot) (last_id : pynum) : M (list vector * indexed_record) :=
  let prev_data := select_conversation (log_conversation_id conv) (map_metadata_df snap) in
  prev_index <- lift (py_index (map fst prev_data) 0) ;;
  v <- lift (py_index (map_embeddings_df snap) (prev_index - 1)) ;;
  embeddings <- lift (reshape_1_1536 v) ;;
  prev <- lift (py_index (map snd prev_data) 0) ;;
  let prev_convo := conversation prev in
  prev_id <- lift (int_id prev) ;;
  created <- lift (to_datetime_strftime w (created_at prev)) ;;
  call (Delete_data [prev_id]) (delete_data w) ;;;
  first_message <- lift (parse_first_message prev_convo) ;;
  let messages_to_be_logged := py_last 2 (log_messages conv) in
  prev_convo' <- lift (append_lines prev_convo messages_to_be_logged) ;;
  let current_time := now w 0 in
  ret (embeddings,
       {| course := course_name;
          conversation := prev_convo';
          conversation_id := log_conversation_id conv;
          id := pynum_succ last_id;
          user_email := log_user_email conv;
          first_query := Text first_message;
          created_at := created;
          modified_at := current_time |}).

(** Lines 137-177: the conversation has no point yet. *)
Definition insert_point (w : world) (course_name : string) (conv : log_data)
    (last_id : pynum) : M (list vector * indexed_record) :=
  first_message <- lift (first_message_text (log_messages conv)) ;;
  let user_queries := [Text first_message] in
  conversation_string <- lift (append_lines "" (log_messages conv)) ;;
  let current_time := now w 0 in
  let metadata :=
    {| course := course_name;
       conversation := conversation_string;
       conversation_id := log_conversation_id conv;
       id := pynum_succ last_id;
       user_email := log_user_email conv;
       first_query := Text first_message;
       created_at := current_time;
       modified_at := current_time |} in
  embeddings <- embed w user_queries ;;
  ret (embeddings, metadata).

(** ** [create_nomic_map] *)

(** Lines 264-323: the loop over the historical rows, with its four
    variables.  [i] is also the number of the next [datetime.now()]. *)
Fixpoint history_loop (w : world) (log : log_data) (rows : list history_row)
    (i : nat) (user_queries : list pycontent) (metadata : list indexed_record)
    (conversation_exists : bool)
  : res (list pycontent * list indexed_record * nat * bool) :=
  match rows with
  | [] => Ok (user_queries, metadata, i, conversation_exists)
  | row :: rows' =>
      let? created := to_datetime_strftime w (row_created_at row) in
      let? first_message := first_message_text (row_messages row) in
      let? conversation0 := append_lines "" (row_messages row) in
      let same := (row_convo_id row =? log_conversation_id log)%string in
      let? conversation1 :=
        (if same then append_lines conversation0 (log_messages log)
         else Ok conversation0) in
      let current_time := now w (i - 1) in
      let metadata_row :=
        {| course := row_course_name row;
           conversation := conversation1;
           conversation_id := row_convo_id row;
           id := PyInt (Z.of_nat i);
           user_email := row_user_email row;
           first_query := Text first_message;
           created_at := created;
           modified_at := current_time |} in
      history_loop w log rows' (S i) (user_queries ++ [Text first_message])%list
        (metadata ++ [metadata_row])%list (conversation_exists || same)
  end.

(** Lines 254-354: the queries to embed and the records of the new map. *)
Definition assemble (w : world) (course_name : string) (log : log_data)
    (rows : list history_row) : res (list pycontent * list indexed_record) :=
  let? (user_queries, metadata, i, conversation_exists) :=
    history_loop w log rows 1 [] [] false in
  if (conversation_exists : bool) then Ok (user_queries, metadata)
  else
    let? first := py_index (log_messages log) 0 in
    let? conversation0 := append_lines "" (log_messages log) in
    let current_time := now w (i - 1) in
    let metadata_row :=
      {| course := course_name;
         conversation := conversation0;
         conversation_id := log_conversation_id log;
         id := PyInt (Z.of_nat i);
         user_email := log_user_email log;
         first_query := content first;
         created_at := current_time;
         modified_at := current_time |} in
    Ok ((user_queries ++ [content first])%list, (metadata ++ [metadata_row])%list).

Definition create_nomic_map (w : world) (course_name : string) (log_data : payload)
  : M (option string) :=
  emit Call_create_nomic_map ;;;
  call Nomic_login (map_login w) ;;;
  fails (create_client w) ;;;
  try_except
    (data <- lift (supabase_rows w) ;;
     if (List.length data <? 19)%nat then ret None
     else
       log <- lift (read_conversation log_data) ;;
       um <- lift (assemble w course_name log data) ;;
       embeddings <- embed w (fst um) ;;
       call (Map_embeddings embeddings (snd um)) (map_embeddings w) ;;;
       call (Create_index (course_name ++ "_convo_index")) (create_index w) ;;;
       ret (Some ("Successfully created Nomic map for " ++ course_name)))
    (fun e =>
       (if (str e =? unique_id_field_message)%string then ret tt
        else emit (Capture_exception e)) ;;;
       ret (Some "failed")).

(** Lines 54-195.  The three entries of the payload are read before the
    [try] (lines 69-71). *)
Definition log_convo_to_nomic_body (w : world) (course_name : string)
    (conversation : payload) : M (option string) :=
  emit Call_log_convo_to_nomic ;;;
  call Nomic_login (login w) ;;;
  conv <- lift (read_conversation conversation) ;;
  try_except
    (snap <- lift (atlas_project w) ;;
     ids <- lift (astype_int (map_metadata_df snap)) ;;
     let last_id := series_max ids in
     em <- (if in_values (log_conversation_id conv) (map_metadata_df snap)
            then update_point w course_name conv snap last_id
            else insert_point w course_name conv last_id) ;;
     fails (project_lock w) ;;;
     call (Add_embeddings (fst em) [snd em]) (add_embeddings w) ;;;
     call Rebuild_maps (rebuild_maps w) ;;;
     ret (Some ("Successfully logged for " ++ course_name)))
    (fun e =>
       if (str e =? unique_id_field_message)%string
       then (_ <- create_nomic_map w course_name conversation ;; ret None)
       else raise (Exception_dict (str e))).

(** ** The decorator of line 53 *)

Definition LOCK_EXCEPTIONS : list string :=
  [ "Project is locked for state access! Please wait until the project is unlocked to access embeddings.";
    "Project is locked for state access! Please wait until the project is unlocked to access data.";
    "Project is currently indexing and cannot ingest new datums. Try again later." ].

(** Lines 21-37.  An exception that does not carry the dictionary of line 195
    breaks lines 29-30.  The model keeps the case of an exception with one
    argument, a text (the [KeyError] of lines 69-71, an exception made of a
    message): [e_args['exception']] raises [TypeError], with the message of
    Python up to 3.10.  An exception with no argument or several breaks
    line 29 with a [ValueError] instead; either way an exception of
    [giveup_hdlr] itself leaves the decorator. *)
Definition giveup_hdlr (e : pyexn) : M bool :=
  match e with
  | Exception_msg _ => raise TypeError_str_index
  | Exception_dict e_str =>
      if existsb (String.eqb e_str) LOCK_EXCEPTIONS then ret false
      else (emit (Capture_exception e) ;;; ret true)
  end.

(** [backoff.expo(base=10, factor=1.5)]: the n-th value it yields. *)
Definition expo (n : nat) : Q := (15 # 10) * inject_Z (10 ^ Z.of_nat n).

(** The decorator's default [jitter=full_jitter]:
    [random.uniform(0, value)], that is [0 + (value - 0) * random()]. *)
Definition full_jitter (w : world) (value : Q) : Q := 0 + (value - 0) * random w.

Definition max_tries : nat := 5.

(** The loop of [backoff.on_exception] with [raise_on_giveup=False].
    [worlds n] answers the n-th call of the function; [tries] is the number
    of calls made so far. *)
Fixpoint retry (fuel : nat) (worlds : nat -> world) (tries : nat)
    (course_name : string) (conv : payload) (t : trace)
  : option (res (option string) * trace) :=
  match fuel with
  | O => None
  | S fuel' =>
      let tries := S tries in
      match log_convo_to_nomic_body (worlds tries) course_name conv t with
      | (Ok r, t1) => Some (Ok r, t1)
      | (Raise e, t1) =>
          let max_tries_exceeded := (tries =? max_tries)%nat in
          match giveup_hdlr e t1 with
          | (Raise e', t2) => Some (Raise e', t2)
          | (Ok giveup, t2) =>
              if giveup || max_tries_exceeded then Some (Ok None, t2)
              else
                let seconds := full_jitter (worlds tries) (expo (tries - 1)) in
                retry fuel' worlds tries course_name conv (t2 ++ [Sleep seconds])%list
          end
      end
  end.

(** The decorated function, what callers reach as [log_convo_to_nomic]. *)
Definition log_convo_to_nomic (worlds : nat -> world) (course_name : string)
    (conv : payload) : option (res (option string) * trace) :=
  retry max_tries worlds 0 course_name conv [].

(** ** Vocabulary of the statements *)

(** One call of the function under the decorator, on an empty trace. *)
Definition attempt (w : world) (course_name : string) (conv : payload)
  : res (option string) * trace :=
  log_convo_to_nomic_body w course_name conv [].

(** What line 186 returns. *)
Definition success (course_name : string) : option string :=
  Some ("Successfully logged for " ++ course_name).

(** The Conversation Locator's answer [Found]: the first row of the data
    frame that carries the conversation's id, with its index label. *)
Definition located (snap : snapshot) (conv : log_data) (prev_index : Z)
    (prev : indexed_record) : Prop :=
  exists rest,
    select_conversation (log_conversation_id conv) (map_metadata_df snap)
    = (prev_index, prev) :: rest.

(** None of the calls of the incremental path raises. *)
Definition quiet (w : world) : Prop :=
  login w = None /\ delete_data w = None /\ project_lock w = None
  /\ add_embeddings w = None /\ rebuild_maps w = None.

(** The calls made before either [try] succeed: the two logins and the
    Supabase client. *)
Definition session_ok (w : world) : Prop :=
  login w = None /\ map_login w = None /\ create_client w = None.

(** [message['content']] can be resolved to a text. *)
Definition readable (m : message) : Prop := exists s, message_text m = Ok s.

Definition is_call_log (ev : event) : bool :=
  match ev with Call_log_convo_to_nomic => true | _ => false end.

Definition is_call_create (ev : event) : bool :=
  match ev with Call_create_nomic_map => true | _ => false end.

Definition is_capture (ev : event) : bool :=
  match ev with Capture_exception _ => true | _ => false end.

Definition is_embed (ev : event) : bool :=
  match ev with Embed_documents _ => true | _ => false end.

Definition is_sleep (ev : event) : bool :=
  match ev with Sleep _ => true | _ => false end.

Definition count (p : event -> bool) (t : trace) : nat :=
  List.length (filter p t).

(** The durations slept, in order. *)
Definition sleeps (t : trace) : list Q :=
  flat_map (fun ev => match ev with Sleep q => [q] | _ => [] end) t.

(** A failure the decorator retries: the exception of line 195 carrying one
    of the three lock messages. *)
Definition transient (r : res (option string)) : Prop :=
  exists e_str, In e_str LOCK_EXCEPTIONS /\ r = Raise (Exception_dict e_str).

(** A computation whose result does not depend on the trace it starts from,
    that appends only events satisfying [P], and whose value, when it
    returns one, satisfies [V]. *)
Definition framed {A : Type} (P : event -> Prop) (V : A -> Prop) (m : M A) : Prop :=
  exists r tr,
    Forall P tr /\ (forall a, r = Ok a -> V a)
    /\ forall t, m t = (r, (t ++ tr)%list).

Definition any {A : Type} : A -> Prop := fun _ => True.

(** Events of the incremental path proper: no function entry, no report to
    Sentry, no sleep. *)
Definition plain_event (ev : event) : Prop :=
  is_call_log ev = false /\ is_call_create ev = false
  /\ is_capture ev = false /\ is_sleep ev = false.

(** Events one call of the function under the decorator may add after its
    entry. *)
Definition attempt_event (ev : event) : Prop :=
  is_call_log ev = false /\ is_sleep ev = false.

(** Events [create_nomic_map] may add after its entry. *)
Definition map_event (ev : event) : Prop :=
  is_call_log ev = false /\ is_call_create ev = false /\ is_sleep ev = false.

(** The embedding that belongs to a conversation, the data frame and the
    array of embeddings listing the points in the same order. *)
Fixpoint position (v : string) (df : list (Z * indexed_record)) : option nat :=
  match df with
  | [] => None
  | (_, m) :: df' =>
      if (conversation_id m =? v)%string then Some O
      else option_map S (position v df')
  end.

Definition stored_embedding (snap : snapshot) (conv : log_data) : option vector :=
  match position (log_conversation_id conv) (map_metadata_df snap) with
  | Some n => nth_error (map_embeddings_df snap) n
  | None => None
  end.

(** The records a trace hands to [add_embeddings], and the vectors that go
    with them. *)
Definition added_records (t : trace) : list indexed_record :=
  flat_map (fun ev => match ev with Add_embeddings _ d => d | _ => [] end) t.

Definition added_embeddings (t : trace) : list vector :=
  flat_map (fun ev => match ev with Add_embeddings e _ => e | _ => [] end) t.

(** The records a trace hands to [atlas.map_embeddings]. *)
Definition mapped_records (t : trace) : list indexed_record :=
  flat_map (fun ev => match ev with Map_embeddings _ d => d | _ => [] end) t.

(** Line 293: the historical row is the conversation being logged. *)
Definition same_conversation (log : log_data) (row : history_row) : bool :=
  (row_convo_id row =? log_conversation_id log)%string.

(** A historical row the loop of lines 264-323 gets through: its time stamp
    parses, it has a first message, and every content resolves to a text. *)
Definition well_formed_row (w : world) (row : history_row) : Prop :=
  (exists c, to_datetime_strftime w (row_created_at row) = Ok c)
  /\ row_messages row <> []
  /\ Forall readable (row_messages row).

(** [c in s] for a single character, computed. *)
Fixpoint mem_char (c : ascii) (s : string) : bool :=
  match s with
  | EmptyString => false
  | String d s' => Ascii.eqb c d || mem_char c s'
  end.

(** ** Sample inputs *)

Definition zeros : vector := repeat 0%Z 1536.
Definition ones : vector := repeat 1%Z 1536.

Definition question : message :=
  {| role := "user"; content := Text "What is a heap?" |}.

Definition answer : message :=
  {| role := "assistant";
     content := Parts [ {| text := Some "A tree-shaped priority queue." |} ] |}.

Definition follow_up : message :=
  {| role := "user"; content := Text "Then: what is a treap?" |}.

Definition sample_conversation (cid : string) (ms : list message) : log_data :=
  {| log_messages := ms;
     log_user_email := "student@example.edu";
     log_conversation_id := cid |}.

(** The transcript an INSERT of [question; answer] stores. *)
Definition first_transcript : string :=
  newline ++ ">>> " ++ emoji_user ++ "user: What is a heap?" ++ newline
  ++ newline ++ ">>> " ++ emoji_other
  ++ "assistant: A tree-shaped priority queue." ++ newline.

Definition sample_record (n : Z) (cid : string) : indexed_record :=
  {| course := "cs101";
     conversation := first_transcript;
     conversation_id := cid;
     id := PyInt n;
     user_email := "student@example.edu";
     first_query := Text "What is a heap?";
     created_at := "2024-01-05 10:00:00";
     modified_at := "2024-01-05 10:00:00" |}.

(** A world in which every collaborator answers but, possibly, the login
    of line 55 and the map, which answers [project]; Supabase holds [rows]. *)
Definition make_world (login_fault : option pyexn) (project : res snapshot)
    (rows : res (list history_row)) (rnd : Q) : world :=
  {| login := login_fault;
     atlas_project := project;
     to_datetime_strftime := fun s => Ok s;
     delete_data := None;
     now := fun _ => "2024-02-01 09:30:00";
     embed_documents := fun texts => Ok (map (fun _ => ones) texts);
     project_lock := None;
     add_embeddings := None;
     rebuild_maps := None;
     map_login := None;
     create_client := None;
     supabase_rows := rows;
     map_embeddings := None;
     create_index := None;
     random := rnd |}.

Definition sample_world (project : res snapshot) : world :=
  make_world None project (Ok []) 1.

(** The map is locked. *)
Definition locked_world (rnd : Q) : world :=
  make_world None
    (Raise (Exception_msg "Project is currently indexing and cannot ingest new datums. Try again later."))
    (Ok []) rnd.

Definition one_row : snapshot :=
  {| map_metadata_df := [(0%Z, sample_record 7 "conv-a")];
     map_embeddings_df := [zeros] |}.

(** Two points, rows and embeddings in the same order under pandas' default
    labels 0, 1. *)
Definition two_rows : snapshot :=
  {| map_metadata_df := [(0%Z, sample_record 1 "conv-a"); (1%Z, sample_record 2 "conv-b")];
     map_embeddings_df := [zeros; ones] |}.

Definition empty_map : snapshot :=
  {| map_metadata_df := []; map_embeddings_df := [] |}.

(** Nineteen historical rows, the last one being conversation [conv-a]. *)
Definition filler_row : history_row :=
  {| row_user_email := "other@example.edu";
     row_created_at := "2024-01-02 08:00:00";
     row_convo_id := "conv-h";
     row_messages := [question];
     row_course_name := "cs101" |}.

Definition heap_row : history_row :=
  {| row_user_email := "student@example.edu";
     row_created_at := "2024-01-05 10:00:00";
     row_convo_id := "conv-a";
     row_messages := [question; answer];
     row_course_name := "cs101" |}.

Definition nineteen_rows : list history_row :=
  (repeat filler_row 18 ++ [heap_row])%list.

(** No map yet, and [rows] in Supabase. *)
Definition bootstrap_world (rows : list history_row) : world :=
  make_world None (Raise (Exception_msg unique_id_field_message)) (Ok rows) 1.

(** A point whose first query holds a [": "]. *)
Definition treap_record : indexed_record :=
  {| course := "cs101";
     conversation :=
       newline ++ ">>> " ++ emoji_user ++ "user: Then: what is a treap?" ++ newline;
     conversation_id := "conv-t";
     id := PyInt 3;
     user_email := "student@example.edu";
     first_query := Text "Then: what is a treap?";
     created_at := "2024-01-06 11:00:00";
     modified_at := "2024-01-06 11:00:00" |}.

Definition treap_row : snapshot :=
  {| map_metadata_df := [(0%Z, treap_record)]; map_embeddings_df := [zeros] |}.

(** ** [get_nomic_map] (lines 198-225) *)

Definition NOMIC_MAP_NAME_PREFIX : string := "Conversation Map for ".

(** The dictionary [get_nomic_map] returns. *)
Record descriptor : Type := {
  map_id : option string;
  map_link : option string
}.

(** The answers of Nomic during one call of [get_nomic_map]: its login, and
    for a project name the [id] and the [map_link] of the project's map. *)
Record map_world : Type := {
  descriptor_login : option pyexn;                  (* line 206 *)
  get_map : string -> res (string * string)         (* lines 213-214 *)
}.

Definition get_nomic_map (w : map_world) (course_name : string) : M descriptor :=
  call Nomic_login (descriptor_login w) ;;;
  let project_name := NOMIC_MAP_NAME_PREFIX ++ course_name in
  try_except
    (m <- lift (get_map w project_name) ;;
     ret {| map_id := Some ("iframe" ++ fst m); map_link := Some (snd m) |})
    (fun e =>
       (if (str e =? unique_id_field_message)%string then ret tt
        else emit (Capture_exception e)) ;;;
       ret {| map_id := None; map_link := None |}).

(** ** More vocabulary *)

Definition is_add (ev : event) : bool :=
  match ev with Add_embeddings _ _ => true | _ => false end.

Definition is_delete (ev : event) : bool :=
  match ev with Delete_data _ => true | _ => false end.

Definition is_map_embeddings (ev : event) : bool :=
  match ev with Map_embeddings _ _ => true | _ => false end.

Definition is_create_index (ev : event) : bool :=
  match ev with Create_index _ => true | _ => false end.


(** What the [except] clauses of lines 218 and 373 leave in the trace for an
    exception: a report to Sentry, unless its message is the one of a course
    without a map. *)
Definition report (e : pyexn) : trace :=
  if (str e =? unique_id_field_message)%string then []
  else [Capture_exception e].

(** The seconds slept in all. *)
Definition total (l : list Q) : Q := fold_right Qplus 0 l.

(** The time the loop of the decorator sleeps after its n-th call. *)
Definition backoff_sleep (worlds : nat -> world) (n : nat) : Q :=
  full_jitter (worlds n) (expo (n - 1)).

(** ** More sample inputs *)

Definition lock_message : string :=
  "Project is locked for state access! Please wait until the project is unlocked to access data.".

(** A world in which every collaborator answers but the wait for the lock of
    line 181, which raises [lock]. *)
Definition world_with_lock (project : res snapshot) (lock : option pyexn) : world :=
  {| login := None;
     atlas_project := project;
     to_datetime_strftime := fun s => Ok s;
     delete_data := None;
     now := fun _ => "2024-02-01 09:30:00";
     embed_documents := fun texts => Ok (map (fun _ => ones) texts);
     project_lock := lock;
     add_embeddings := None;
     rebuild_maps := None;
     map_login := None;
     create_client := None;
     supabase_rows := Ok [];
     map_embeddings := None;
     create_index := None;
     random := 1 # 2 |}.

(** A historical conversation without messages. *)
Definition empty_row : history_row :=
  {| row_user_email := "other@example.edu";
     row_created_at := "2024-01-03 08:00:00";
     row_convo_id := "conv-e";
     row_messages := [];
     row_course_name := "cs101" |}.

(** A payload whose conversation has no ['id']. *)
Definition payload_without_id : payload :=
  {| entry_conversation :=
       Some {| entry_messages := Some [question; answer];
               entry_user_email := Some "student@example.edu";
               entry_id := None |} |}.

(** A message whose content is a list of parts, the first one an image. *)
Definition picture : message :=
  {| role := "user"; content := Parts [ {| text := None |} ] |}.

(** A message whose content is a list with one text part. *)
Definition typed_question : message :=
  {| role := "user"; content := Parts [ {| text := Some "What is a trie?" |} ] |}.

Definition sample_map_world (answer : res (string * string)) : map_world :=
  {| descriptor_login := None; get_map := fun _ => answer |}.

(* ===================================================================== *)
(** * Part II: properties                                                 *)
(* ===================================================================== *)

(** ** Strings *)

Lemma append_assoc (a b c : string) : (a ++ b) ++ c = a ++ (b ++ c).
Proof. induction a as [|x a IH]; simpl; [reflexivity | now rewrite IH]. Qed.

Lemma append_empty_r (a : string) : a ++ "" = a.
Proof. induction a as [|x a IH]; simpl; [reflexivity | now rewrite IH]. Qed.

Lemma length_append (a b : string) :
  String.length (a ++ b) = (String.length a + String.length b)%nat.
Proof. induction a as [|x a IH]; simpl; [reflexivity | now rewrite IH]. Qed.

Lemma drop_append (a b : string) : drop (String.length a) (a ++ b) = b.
Proof. induction a as [|x a IH]; simpl; [now destruct b | exact IH]. Qed.

Lemma length_drop (n : nat) (s : string) :
  String.length (drop n s) = (String.length s - n)%nat.
Proof.
  revert s; induction n as [|n IH]; intros s.
  - simpl. lia.
  - destruct s as [|c s]; simpl; [reflexivity | apply IH].
Qed.

(** [prefix sep s] holds exactly when [s] starts with [sep]. *)
Lemma prefix_true_iff (sep s : string) :
  prefix sep s = true <-> exists r, s = sep ++ r.
Proof.
  revert s; induction sep as [|c sep IH]; intros s.
  - split; [intros _; now exists s | intros _; now destruct s].
  - destruct s as [|d s]; simpl.
    + split; [discriminate | intros [r Hr]; discriminate].
    + destruct (ascii_dec c d) as [->|Hne].
      * rewrite IH. split; intros [r Hr]; exists r; congruence.
      * split; [discriminate | intros [r Hr]; congruence].
Qed.

Lemma prefix_drop (sep s : string) :
  prefix sep s = true -> s = sep ++ drop (String.length sep) s.
Proof.
  intros H. apply prefix_true_iff in H as [r ->]. now rewrite drop_append.
Qed.

Lemma partition_unfold (sep s : string) :
  partition sep s =
  if prefix sep s then Some ("", drop (String.length sep) s)
  else match s with
       | EmptyString => None
       | String c s' =>
           match partition sep s' with
           | Some (before, after) => Some (String c before, after)
           | None => None
           end
       end.
Proof. destruct s; reflexivity. Qed.

(** [partition] cuts [s] at an occurrence of [sep]. *)
Lemma partition_Some (sep s before after : string) :
  partition sep s = Some (before, after) -> s = before ++ sep ++ after.
Proof.
  revert before after; induction s as [|c s IH]; intros before after;
    rewrite partition_unfold.
  - destruct (prefix sep "") eqn:Hp; [|discriminate].
    intros [= <- <-]. now apply prefix_drop.
  - destruct (prefix sep (String c s)) eqn:Hp.
    + intros [= <- <-]. now apply prefix_drop.
    + destruct (partition sep s) as [[b a]|] eqn:Hq; [|discriminate].
      intros [= <- <-]. simpl. now rewrite (IH b a eq_refl).
Qed.

(** ... at the leftmost one: [sep] does not occur before the cut. *)
Lemma partition_before (sep s before after : string) :
  sep <> "" -> partition sep s = Some (before, after) -> ~ contains sep before.
Proof.
  intros Hsep; revert before after; induction s as [|c s IH];
    intros before after; rewrite partition_unfold.
  - destruct (prefix sep "") eqn:Hp; [|discriminate].
    apply prefix_true_iff in Hp as [r Hr].
    destruct sep; [congruence | discriminate].
  - destruct (prefix sep (String c s)) eqn:Hp.
    + intros [= <- <-] [p [q Hpq]].
      destruct p; [|discriminate]. destruct sep; [congruence | discriminate].
    + destruct (partition sep s) as [[b a]|] eqn:Hq; [|discriminate].
      intros [= <- <-] [p [q Hpq]].
      destruct p as [|x p]; simpl in Hpq.
      * apply partition_Some in Hq. subst s.
        assert (Ht : prefix sep (String c (b ++ sep ++ a)) = true).
        { apply prefix_true_iff. exists (q ++ sep ++ a).
          change (String c (b ++ sep ++ a)) with (String c b ++ sep ++ a).
          rewrite Hpq. now rewrite append_assoc. }
        congruence.
      * injection Hpq as _ Hb. apply (IH b a eq_refl). now exists p, q.
Qed.

(** Without a cut, [sep] does not occur at all. *)
Lemma partition_None (sep s : string) :
  partition sep s = None -> ~ contains sep s.
Proof.
  induction s as [|c s IH]; rewrite partition_unfold.
  - destruct (prefix sep "") eqn:Hp; [discriminate|].
    intros _ [p [q Hpq]]. destruct p; [|discriminate].
    assert (prefix sep "" = true) by (apply prefix_true_iff; now exists q).
    congruence.
  - destruct (prefix sep (String c s)) eqn:Hp; [discriminate|].
    destruct (partition sep s) as [[b a]|] eqn:Hq; [discriminate|].
    intros _ [p [q Hpq]]. destruct p as [|x p]; simpl in Hpq.
    + assert (prefix sep (String c s) = true)
        by (apply prefix_true_iff; now exists q).
      congruence.
    + injection Hpq as _ Hs. apply IH; [reflexivity | now exists p, q].
Qed.

Lemma contains_partition (sep s : string) :
  contains sep s -> exists before after, partition sep s = Some (before, after).
Proof.
  intros H. destruct (partition sep s) as [[b a]|] eqn:Hp; [now exists b, a|].
  now apply partition_None in Hp.
Qed.

(** A text that occurs in a piece of [s] occurs in [s]. *)
Lemma contains_infix (x seg p q : string) :
  contains x seg -> contains x (p ++ seg ++ q).
Proof.
  intros [a [b ->]]. exists (p ++ a), (b ++ q).
  now rewrite !append_assoc.
Qed.

(** Every piece [split] returns is a piece of the text ... *)
Lemma split_fuel_infix (fuel : nat) (sep s seg : string) :
  In seg (split_fuel fuel sep s) -> exists p q, s = p ++ seg ++ q.
Proof.
  revert s; induction fuel as [|fuel IH]; intros s; simpl;
    destruct (partition sep s) as [[b a]|] eqn:Hp.
  - intros [<-|[]]. apply partition_Some in Hp. exists "", (sep ++ a). exact Hp.
  - intros [<-|[]]. exists "", "". simpl. now rewrite append_empty_r.
  - apply partition_Some in Hp. intros [<-|Hin].
    + exists "", (sep ++ a). exact Hp.
    + destruct (IH a Hin) as [p [q Hq]]. exists (b ++ sep ++ p), q.
      rewrite Hp, Hq. now rewrite !append_assoc.
  - intros [<-|[]]. exists "", "". simpl. now rewrite append_empty_r.
Qed.

(** ... in which the separator does not occur. *)
Lemma split_fuel_free (fuel : nat) (sep s seg : string) :
  sep <> "" -> In seg (split_fuel fuel sep s) -> ~ contains sep seg.
Proof.
  intros Hsep; revert s; induction fuel as [|fuel IH]; intros s; simpl;
    destruct (partition sep s) as [[b a]|] eqn:Hp.
  - intros [<-|[]]. eapply partition_before; eauto.
  - intros [<-|[]]. now apply partition_None.
  - intros [<-|Hin]; [eapply partition_before; eauto | eapply IH; eauto].
  - intros [<-|[]]. now apply partition_None.
Qed.

Lemma py_index_In {A : Type} (l : list A) (i : Z) (x : A) :
  py_index l i = Ok x -> In x l.
Proof.
  unfold py_index. destruct (_ || _); [discriminate|].
  destruct (nth_error l _) eqn:Hn; [|discriminate].
  intros [= <-]. eapply nth_error_In; eauto.
Qed.

(** What line 105 extracts holds neither a [": "] nor a line break. *)
Lemma parse_first_message_free (prev_convo q : string) :
  parse_first_message prev_convo = Ok q ->
  ~ contains ": " q /\ ~ contains newline q.
Proof.
  unfold parse_first_message.
  destruct (py_index (split newline prev_convo) 1) as [l|] eqn:Hl; [|discriminate].
  intros Hq. apply py_index_In in Hl, Hq. unfold split in *. split.
  - eapply split_fuel_free; eauto. discriminate.
  - intros Hc. apply split_fuel_infix in Hq as [p [r ->]].
    eapply split_fuel_free in Hl; [|discriminate].
    apply Hl. now apply contains_infix.
Qed.

(** ** The monad *)

Section Framed.
Context {A B : Type} (P : event -> Prop).

Lemma framed_ret (V : A -> Prop) (a : A) : V a -> framed P V (ret a).
Proof.
  intros H. exists (Ok a), []. split; [constructor | split; [now intros ? [= <-] |]].
  intros t; unfold ret; now rewrite app_nil_r.
Qed.

Lemma framed_raise (V : A -> Prop) (e : pyexn) : framed P V (raise e).
Proof.
  exists (Raise e), []. split; [constructor | split; [discriminate |]].
  intros t; unfold raise; now rewrite app_nil_r.
Qed.

Lemma framed_lift (V : A -> Prop) (r : res A) :
  (forall a, r = Ok a -> V a) -> framed P V (lift r).
Proof.
  intros H. exists r, []. split; [constructor | split; [assumption |]].
  intros t; unfold lift; now rewrite app_nil_r.
Qed.

Lemma framed_bind (V : B -> Prop) (m : M A) (k : A -> M B) :
  framed P any m -> (forall a, framed P V (k a)) -> framed P V (bind m k).
Proof.
  intros [r [tr [Htr [_ Hm]]]] Hk. destruct r as [a|e].
  - destruct (Hk a) as [r2 [tr2 [Htr2 [Hv2 Hk2]]]].
    exists r2, (tr ++ tr2)%list. split; [now apply Forall_app | split; [assumption |]].
    intros t. unfold bind. rewrite Hm, Hk2. now rewrite app_assoc.
  - exists (Raise e), tr. split; [assumption | split; [discriminate |]].
    intros t. unfold bind. now rewrite Hm.
Qed.

Lemma framed_try_except (V : A -> Prop) (body : M A) (handler : pyexn -> M A) :
  framed P V body -> (forall e, framed P V (handler e)) ->
  framed P V (try_except body handler).
Proof.
  intros [r [tr [Htr [Hv Hm]]]] Hh. destruct r as [a|e].
  - exists (Ok a), tr. split; [assumption | split; [assumption |]].
    intros t. unfold try_except. now rewrite Hm.
  - destruct (Hh e) as [r2 [tr2 [Htr2 [Hv2 Hh2]]]].
    exists r2, (tr ++ tr2)%list. split; [now apply Forall_app | split; [assumption |]].
    intros t. unfold try_except. rewrite Hm, Hh2. now rewrite app_assoc.
Qed.

End Framed.

(** Running the monad one step. *)
Lemma bind_ret {A B : Type} (a : A) (k : A -> M B) (t : trace) :
  bind (ret a) k t = k a t.
Proof. reflexivity. Qed.

Lemma bind_raise {A B : Type} (e : pyexn) (k : A -> M B) (t : trace) :
  bind (raise e) k t = (Raise e, t).
Proof. reflexivity. Qed.

Lemma bind_lift_ok {A B : Type} (a : A) (k : A -> M B) (t : trace) :
  bind (lift (Ok a)) k t = k a t.
Proof. reflexivity. Qed.

Lemma bind_lift_raise {A B : Type} (e : pyexn) (k : A -> M B) (t : trace) :
  bind (lift (Raise e)) k t = (Raise e, t).
Proof. reflexivity. Qed.

Lemma bind_emit {B : Type} (ev : event) (k : unit -> M B) (t : trace) :
  bind (emit ev) k t = k tt (t ++ [ev])%list.
Proof. reflexivity. Qed.

Lemma bind_call_none {B : Type} (ev : event) (k : unit -> M B) (t : trace) :
  bind (call ev None) k t = k tt (t ++ [ev])%list.
Proof. reflexivity. Qed.

Lemma bind_call_some {B : Type} (ev : event) (e : pyexn) (k : unit -> M B) (t : trace) :
  bind (call ev (Some e)) k t = (Raise e, (t ++ [ev])%list).
Proof. reflexivity. Qed.

Lemma bind_fails_none {B : Type} (k : unit -> M B) (t : trace) :
  bind (fails None) k t = k tt t.
Proof. reflexivity. Qed.

Lemma bind_fails_some {B : Type} (e : pyexn) (k : unit -> M B) (t : trace) :
  bind (fails (Some e)) k t = (Raise e, t).
Proof. reflexivity. Qed.

Lemma bind_embed {B : Type} (w : world) (texts : list pycontent)
    (k : list vector -> M B) (t : trace) :
  bind (embed w texts) k t
  = bind (lift (embed_documents w texts)) k (t ++ [Embed_documents texts])%list.
Proof. unfold embed, bind, emit, lift. simpl. now destruct (embed_documents w texts). Qed.

Lemma try_except_run {A : Type} (body : M A) (handler : pyexn -> M A) (t : trace) :
  try_except body handler t
  = match body t with
    | (Ok a, t') => (Ok a, t')
    | (Raise e, t') => handler e t'
    end.
Proof. reflexivity. Qed.

Lemma bind_assoc {A B C : Type} (m : M A) (k : A -> M B) (k' : B -> M C)
    (t : trace) :
  bind (bind m k) k' t = bind m (fun a => bind (k a) k') t.
Proof. unfold bind. destruct (m t) as [[a|e] t']; reflexivity. Qed.

(** Reading the payload that holds the three values gives them back, and
    only that payload does. *)
Lemma read_complete (conv : log_data) : read_conversation conv = Ok conv.
Proof. now destruct conv. Qed.

Lemma read_conversation_Ok (p : payload) (conv : log_data) :
  read_conversation p = Ok conv -> p = conv.
Proof.
  destruct p as [[[[ms|] [em|] [i|]]|]]; try discriminate.
  unfold read_conversation. cbn. now intros [= <-].
Qed.

Lemma bind_lift_run {A B : Type} (a : A) (k : A -> M B) :
  bind (lift (Ok a)) k = k a.
Proof. reflexivity. Qed.

Ltac mrun :=
  repeat (first
    [ rewrite bind_assoc | rewrite bind_ret | rewrite bind_raise
    | rewrite read_complete | rewrite bind_lift_ok
    | rewrite bind_lift_raise | rewrite bind_emit | rewrite bind_call_none
    | rewrite bind_call_some | rewrite bind_fails_none | rewrite bind_fails_some
    | rewrite bind_embed ]; cbv beta).

Lemma framed_emit (P : event -> Prop) (ev : event) : P ev -> framed P any (emit ev).
Proof.
  intros H. exists (Ok tt), [ev].
  split; [now repeat constructor | split; [intros; exact I | reflexivity]].
Qed.

Lemma framed_fails (P : event -> Prop) (fault : option pyexn) :
  framed P any (fails fault).
Proof. destruct fault; [apply framed_raise | now apply framed_ret]. Qed.

Lemma framed_call (P : event -> Prop) (ev : event) (fault : option pyexn) :
  P ev -> framed P any (call ev fault).
Proof.
  intros H. unfold call. apply framed_bind; [now apply framed_emit|].
  intros _. destruct fault; [apply framed_raise | now apply framed_ret].
Qed.

Lemma framed_embed (P : event -> Prop) (w : world) (texts : list pycontent) :
  P (Embed_documents texts) -> framed P any (embed w texts).
Proof.
  intros H. unfold embed. apply framed_bind; [now apply framed_emit|].
  intros _. now apply framed_lift.
Qed.

Lemma framed_weaken {A : Type} (P Q : event -> Prop) (V : A -> Prop) (m : M A) :
  (forall ev, P ev -> Q ev) -> framed P V m -> framed Q V m.
Proof.
  intros HPQ [r [tr [Htr [Hv Hm]]]]. exists r, tr. split; [|split; assumption].
  eapply Forall_impl; eauto.
Qed.

Ltac event_class :=
  unfold plain_event, map_event, attempt_event; simpl; repeat split; reflexivity.

Ltac framed_side := first [ exact I | reflexivity | now (unfold plain_event, map_event; simpl; repeat split) | idtac ].

Ltac framed_step :=
  first
    [ apply framed_ret; framed_side
    | apply framed_raise
    | apply framed_lift; intros; framed_side
    | apply framed_fails
    | apply framed_call; framed_side
    | apply framed_embed; framed_side
    | apply framed_emit; framed_side
    | apply framed_bind; [|intros ?]
    | apply framed_try_except; [|intros ?]
    | match goal with
      | |- framed _ _ (if ?b then _ else _) => destruct b
      | |- framed _ _ (match ?x with _ => _ end) => destruct x
      end ].

Ltac framed_auto := repeat framed_step.

(** ** One call of [create_nomic_map] and of the function under the
       decorator: the shape of every run *)

Lemma framed_update_point (w : world) (course_name : string) (conv : log_data)
    (snap : snapshot) (last_id : pynum) :
  framed plain_event any (update_point w course_name conv snap last_id).
Proof. unfold update_point. framed_auto. Qed.

Lemma framed_insert_point (w : world) (course_name : string) (conv : log_data)
    (last_id : pynum) :
  framed plain_event any (insert_point w course_name conv last_id).
Proof. unfold insert_point. framed_auto. Qed.

Lemma count_app (p : event -> bool) (t1 t2 : trace) :
  count p (t1 ++ t2)%list = (count p t1 + count p t2)%nat.
Proof. unfold count. now rewrite filter_app, length_app. Qed.

Lemma count_none (p : event -> bool) (t : trace) :
  Forall (fun ev => p ev = false) t -> count p t = 0%nat.
Proof.
  unfold count. induction 1 as [|ev t Hev _ IH]; simpl; [reflexivity|].
  now rewrite Hev.
Qed.

Lemma plain_is_map_event (ev : event) : plain_event ev -> map_event ev.
Proof. unfold plain_event, map_event. tauto. Qed.

Lemma plain_no_capture (t : trace) :
  Forall plain_event t -> count is_capture t = 0%nat.
Proof.
  intros H. apply count_none. eapply Forall_impl; [|exact H].
  unfold plain_event. tauto.
Qed.

Lemma map_no_call_create (t : trace) :
  Forall map_event t -> count is_call_create t = 0%nat.
Proof.
  intros H. apply count_none. eapply Forall_impl; [|exact H].
  unfold map_event. tauto.
Qed.

Lemma map_no_call_log (t : trace) :
  Forall map_event t -> count is_call_log t = 0%nat.
Proof.
  intros H. apply count_none. eapply Forall_impl; [|exact H].
  unfold map_event. tauto.
Qed.

Lemma map_no_sleep (t : trace) :
  Forall map_event t -> count is_sleep t = 0%nat.
Proof.
  intros H. apply count_none. eapply Forall_impl; [|exact H].
  unfold map_event. tauto.
Qed.

(** With its login and its Supabase client at hand, [create_nomic_map]
    returns: its [except] clause swallows everything, and reports what is
    not the not-configured message. *)
Lemma create_nomic_map_returns (w : world) (course_name : string) (log : payload) :
  map_login w = None -> create_client w = None ->
  exists a tr,
    Forall map_event tr
    /\ (forall e, In (Capture_exception e) tr -> str e <> unique_id_field_message)
    /\ forall t, create_nomic_map w course_name log t
                 = (Ok a, (t ++ Call_create_nomic_map :: Nomic_login :: tr)%list).
Proof.
  intros Hl Hc. unfold create_nomic_map. rewrite Hl, Hc.
  match goal with
  | |- context [try_except ?T ?H] =>
      assert (HT : framed plain_event any T) by framed_auto;
      set (body := T) in *; set (handler := H) in *
  end.
  destruct HT as [r [tr [Htr [_ HT]]]].
  assert (Hmap : Forall map_event tr)
    by (eapply Forall_impl; [apply plain_is_map_event | exact Htr]).
  assert (Hnocap : forall e, ~ In (Capture_exception e) tr).
  { intros e Hin. rewrite Forall_forall in Htr.
    destruct (Htr _ Hin) as (_ & _ & H & _). discriminate. }
  destruct r as [a|e].
  - exists a, tr. split; [assumption|]. split; [intros e He; now apply Hnocap in He|].
    intros t. mrun. rewrite try_except_run, HT.
    rewrite <- ?app_assoc; reflexivity.
  - destruct (str e =? unique_id_field_message)%string eqn:He.
    + exists (Some "failed"), tr. split; [assumption|].
      split; [intros e' He'; now apply Hnocap in He'|]. intros t.
      mrun. rewrite try_except_run, HT. unfold handler. rewrite He. mrun.
      unfold ret. rewrite <- ?app_assoc; reflexivity.
    + exists (Some "failed"), (tr ++ [Capture_exception e])%list. split; [|split].
      * apply Forall_app. split; [assumption|]. constructor; [event_class | constructor].
      * intros e' He'. apply in_app_or in He' as [He'|[[= <-]|[]]].
        -- now apply Hnocap in He'.
        -- now apply String.eqb_neq.
      * intros t. mrun. rewrite try_except_run, HT. unfold handler.
        rewrite He. mrun. unfold ret. rewrite <- ?app_assoc; reflexivity.
Qed.

(** Every run of [create_nomic_map]: entered once, and when it raises nothing
    was reported. *)
Lemma create_nomic_map_shape (w : world) (course_name : string) (log : payload) :
  exists r tr,
    Forall map_event tr
    /\ (forall t, create_nomic_map w course_name log t
                  = (r, (t ++ Call_create_nomic_map :: tr)%list))
    /\ (forall e, r = Raise e -> Forall plain_event tr)
    /\ (map_login w = None -> create_client w = None -> exists a, r = Ok a).
Proof.
  destruct (map_login w) as [e|] eqn:Hl.
  - exists (Raise e), [Nomic_login]. split; [constructor; [event_class | constructor]|].
    split; [|split; [intros; constructor; [event_class | constructor] | discriminate]].
    intros t. unfold create_nomic_map. rewrite Hl. mrun.
    rewrite <- ?app_assoc; reflexivity.
  - destruct (create_client w) as [e|] eqn:Hc.
    + exists (Raise e), [Nomic_login]. split; [constructor; [event_class | constructor]|].
      split; [|split; [intros; constructor; [event_class | constructor] | discriminate]].
      intros t. unfold create_nomic_map. rewrite Hl, Hc. mrun.
      rewrite <- ?app_assoc; reflexivity.
    + destruct (create_nomic_map_returns w course_name log Hl Hc) as [a [tr [Htr [_ H]]]].
      exists (Ok a), (Nomic_login :: tr). split.
      * constructor; [event_class | assumption].
      * split; [exact H | split; [discriminate | intros; now exists a]].
Qed.

Lemma map_is_attempt_event (ev : event) : map_event ev -> attempt_event ev.
Proof. unfold attempt_event, map_event. tauto. Qed.

(** Every run of the function under the decorator. *)
Lemma log_convo_to_nomic_body_shape (w : world) (course_name : string)
    (p : payload) :
  exists r tr,
    Forall attempt_event tr
    /\ (forall t, log_convo_to_nomic_body w course_name p t
                  = (r, (t ++ Call_log_convo_to_nomic :: tr)%list))
    /\ (count is_call_create tr <= 1)%nat
    /\ (forall e, r = Raise e -> count is_capture tr = 0%nat)
    /\ (session_ok w -> (exists conv, read_conversation p = Ok conv) ->
        r = Ok None \/ r = Ok (success course_name)
        \/ exists e_str, r = Raise (Exception_dict e_str)).
Proof.
  destruct (login w) as [e|] eqn:Hl.
  - exists (Raise e), [Nomic_login]. split; [constructor; [event_class | constructor]|].
    split; [|split; [cbv; lia | split; [reflexivity|]]].
    + intros t. unfold log_convo_to_nomic_body. rewrite Hl. mrun.
      rewrite <- ?app_assoc; reflexivity.
    + intros [H _] _. congruence.
  - destruct (read_conversation p) as [conv|e] eqn:Hread.
    2: { exists (Raise e), [Nomic_login].
         split; [constructor; [event_class | constructor]|].
         split; [|split; [cbv; lia | split; [reflexivity|]]].
         - intros t. unfold log_convo_to_nomic_body. rewrite Hl, Hread. mrun.
           rewrite <- ?app_assoc; reflexivity.
         - intros _ [conv H]. discriminate. }
    unfold log_convo_to_nomic_body. rewrite Hl, Hread, bind_lift_run. cbv beta.
    match goal with
    | |- context [try_except ?T ?H] =>
        assert (HT : framed plain_event (eq (success course_name)) T);
        [| set (body := T) in *; set (handler := H) in * ]
    end.
    { apply framed_bind; [framed_auto | intros snap].
      apply framed_bind; [framed_auto | intros ids].
      apply framed_bind.
      - destruct (in_values _ _);
          [apply framed_update_point | apply framed_insert_point].
      - intros em. framed_auto. }
    destruct HT as [r [tr [Htr [Hv HT]]]].
    assert (Hmap : Forall map_event tr)
      by (eapply Forall_impl; [apply plain_is_map_event | exact Htr]).
    assert (Hatt : Forall attempt_event tr)
      by (eapply Forall_impl; [apply map_is_attempt_event | exact Hmap]).
    destruct r as [a|e].
    + exists (Ok a), (Nomic_login :: tr). split.
      * constructor; [event_class | assumption].
      * split; [|split; [|split; [discriminate|]]].
        -- intros t. mrun. rewrite try_except_run, HT.
           rewrite <- ?app_assoc; reflexivity.
        -- change (count is_call_create (Nomic_login :: tr))
             with (count is_call_create tr).
           rewrite map_no_call_create; [lia | assumption].
        -- intros _ _. right; left. now rewrite <- (Hv a eq_refl).
    + destruct (str e =? unique_id_field_message)%string eqn:He.
      * destruct (create_nomic_map_shape w course_name p)
          as [r2 [tr2 [Htr2 [H2 [Hraise Hret]]]]].
        exists (match r2 with Ok _ => Ok None | Raise e' => Raise e' end),
          (Nomic_login :: tr ++ Call_create_nomic_map :: tr2)%list.
        split; [|split; [|split; [|split]]].
        -- constructor; [event_class|]. apply Forall_app. split; [assumption|].
           constructor; [event_class|].
           eapply Forall_impl; [apply map_is_attempt_event | exact Htr2].
        -- intros t. mrun. rewrite try_except_run, HT. unfold handler.
           rewrite He. unfold bind at 1. rewrite H2.
           destruct r2; unfold ret; rewrite <- ?app_assoc; reflexivity.
        -- change (count is_call_create (Nomic_login :: tr ++ Call_create_nomic_map :: tr2)%list)
             with (count is_call_create (tr ++ Call_create_nomic_map :: tr2)%list).
           rewrite count_app.
           change (count is_call_create (Call_create_nomic_map :: tr2))
             with (S (count is_call_create tr2)).
           rewrite !map_no_call_create by assumption. lia.
        -- intros e' He'. destruct r2 as [a2|e2]; [discriminate|].
           change (count is_capture (Nomic_login :: tr ++ Call_create_nomic_map :: tr2)%list)
             with (count is_capture (tr ++ Call_create_nomic_map :: tr2)%list).
           rewrite count_app.
           change (count is_capture (Call_create_nomic_map :: tr2))
             with (count is_capture tr2).
           rewrite !plain_no_capture; eauto.
        -- intros [_ [Hm Hc]] _. destruct (Hret Hm Hc) as [a2 ->]. now left.
      * exists (Raise (Exception_dict (str e))), (Nomic_login :: tr). split.
        -- constructor; [event_class | assumption].
        -- split; [|split; [|split]].
           ++ intros t. mrun. rewrite try_except_run, HT. unfold handler.
              rewrite He. unfold raise. rewrite <- ?app_assoc; reflexivity.
           ++ change (count is_call_create (Nomic_login :: tr))
                with (count is_call_create tr).
              rewrite map_no_call_create; [lia | assumption].
           ++ intros _ _.
              change (count is_capture (Nomic_login :: tr))
                with (count is_capture tr).
              now apply plain_no_capture.
           ++ intros _ _. right; right. now exists (str e).
Qed.

(** ** Lists, pandas and the transcript *)

Lemma py_index_head {A : Type} (x : A) (l : list A) : py_index (x :: l) 0 = Ok x.
Proof.
  unfold py_index. change (List.length (x :: l)) with (S (List.length l)).
  replace ((0 <? 0)%Z) with false by reflexivity. cbv zeta.
  destruct (Z.leb_spec (Z.of_nat (S (List.length l))) 0) as [H|H]; [lia|].
  reflexivity.
Qed.

Lemma py_index_nil {A : Type} (i : Z) : py_index (@nil A) i = Raise IndexError.
Proof.
  unfold py_index. simpl. destruct (i <? 0)%Z eqn:Hi.
  - replace (i + 0 <? 0)%Z with true; [reflexivity|].
    symmetry. apply Z.ltb_lt. apply Z.ltb_lt in Hi. lia.
  - replace (0 <=? i)%Z with true; [now rewrite orb_true_r|].
    symmetry. apply Z.leb_le. apply Z.ltb_ge in Hi. lia.
Qed.

Lemma py_last_short {A : Type} (n : nat) (l : list A) :
  (List.length l <= n)%nat -> py_last n l = l.
Proof.
  intros H. unfold py_last. now replace (List.length l - n)%nat with 0%nat by lia.
Qed.

Lemma py_last_length {A : Type} (n : nat) (l : list A) :
  List.length (py_last n l) = Nat.min n (List.length l).
Proof. unfold py_last. rewrite length_skipn. lia. Qed.

(** [l[-n:]] is the end of [l]. *)
Lemma py_last_suffix {A : Type} (n : nat) (l : list A) :
  exists before, l = (before ++ py_last n l)%list.
Proof.
  exists (firstn (List.length l - n) l). unfold py_last.
  now rewrite firstn_skipn.
Qed.

Lemma reshape_ok (v : vector) :
  List.length v = 1536%nat -> reshape_1_1536 v = Ok [v].
Proof. intros H. unfold reshape_1_1536. now rewrite H. Qed.

Lemma astype_int_In (df : list (Z * indexed_record)) (ids : list Z)
    (i : Z) (m : indexed_record) :
  astype_int df = Ok ids -> In (i, m) df -> exists z, id m = PyInt z /\ In z ids.
Proof.
  revert ids; induction df as [|[j m'] df IH]; intros ids; simpl; [intros _ []|].
  unfold int_id at 1. destruct (id m') as [z'|] eqn:Hid; [|discriminate].
  destruct (astype_int df) as [zs|] eqn:Hzs; [|discriminate].
  intros [= <-] [[= -> ->]|Hin].
  - exists z'. split; [assumption | now left].
  - destruct (IH zs eq_refl Hin) as [z [Hz Hzin]]. exists z. split; [assumption | now right].
Qed.

Lemma astype_int_length (df : list (Z * indexed_record)) (ids : list Z) :
  astype_int df = Ok ids -> List.length ids = List.length df.
Proof.
  revert ids; induction df as [|[j m'] df IH]; intros ids; simpl.
  - now intros [= <-].
  - destruct (int_id m'); [|discriminate].
    destruct (astype_int df) as [zs|]; [|discriminate].
    intros [= <-]. simpl. now rewrite (IH zs eq_refl).
Qed.

Lemma fold_left_max_ge (zs : list Z) (z : Z) :
  (z <= fold_left Z.max zs z)%Z
  /\ forall x, In x zs -> (x <= fold_left Z.max zs z)%Z.
Proof.
  revert z; induction zs as [|y zs IH]; intros z; simpl.
  - split; [lia | intros x []].
  - destruct (IH (Z.max z y)) as [H1 H2]. split; [lia|].
    intros x [<-|Hx]; [lia | now apply H2].
Qed.

Lemma fold_left_max_In (zs : list Z) (z : Z) :
  fold_left Z.max zs z = z \/ In (fold_left Z.max zs z) zs.
Proof.
  revert z; induction zs as [|y zs IH]; intros z; simpl; [now left|].
  destruct (IH (Z.max z y)) as [H|H]; [|now right; right].
  rewrite H. destruct (Z.max_spec z y) as [[_ ->]|[_ ->]]; [right; now left | now left].
Qed.

(** Adding one to an int64 below the greatest one is adding one; adding one
    to the greatest one gives the least one. *)
Lemma wrap_int64_small (z : Z) :
  (int64_min <= z <= int64_max)%Z -> wrap_int64 z = z.
Proof.
  unfold int64_min, int64_max, wrap_int64. intros H.
  rewrite Z.mod_small by lia. lia.
Qed.

Lemma pynum_succ_small (k : Z) :
  (int64_min <= k)%Z -> (k < int64_max)%Z -> pynum_succ (PyInt k) = PyInt (k + 1).
Proof.
  intros H1 H2. unfold pynum_succ. rewrite wrap_int64_small; [reflexivity|].
  unfold int64_min, int64_max in *. lia.
Qed.

Lemma pynum_succ_wraps : pynum_succ (PyInt int64_max) = PyInt int64_min.
Proof. reflexivity. Qed.

(** [Series.max()] of a non-empty column is its greatest element. *)
Lemma series_max_spec (ids : list Z) :
  ids <> [] ->
  exists k, series_max ids = PyInt k /\ In k ids /\ forall z, In z ids -> (z <= k)%Z.
Proof.
  destruct ids as [|z zs]; [congruence|]. intros _.
  exists (fold_left Z.max zs z). split; [reflexivity|].
  destruct (fold_left_max_ge zs z) as [H1 H2]. split.
  - destruct (fold_left_max_In zs z) as [->|H]; [now left | now right].
  - intros x [<-|Hx]; [assumption | now apply H2].
Qed.

Lemma located_In (snap : snapshot) (conv : log_data) (prev_index : Z)
    (prev : indexed_record) :
  located snap conv prev_index prev ->
  In (prev_index, prev) (map_metadata_df snap)
  /\ conversation_id prev = log_conversation_id conv.
Proof.
  intros [rest H].
  assert (Hin : In (prev_index, prev)
                  (select_conversation (log_conversation_id conv) (map_metadata_df snap)))
    by (rewrite H; now left).
  apply filter_In in Hin as [Hin Heq]. split; [assumption|].
  now apply String.eqb_eq in Heq.
Qed.

Lemma located_in_values (snap : snapshot) (conv : log_data) (prev_index : Z)
    (prev : indexed_record) :
  located snap conv prev_index prev ->
  in_values (log_conversation_id conv) (map_metadata_df snap) = true.
Proof.
  intros H. apply located_In in H as [Hin Heq].
  unfold in_values. apply existsb_exists. exists (prev_index, prev).
  split; [assumption|]. unfold row_has_value. simpl.
  rewrite Heq, String.eqb_refl. now rewrite !orb_true_r.
Qed.

(** The loop adds to what it is given and rewrites nothing of it. *)
Lemma append_lines_acc (acc : string) (ms : list message) :
  append_lines acc ms
  = match append_lines "" ms with
    | Ok ls => Ok (acc ++ ls)
    | Raise e => Raise e
    end.
Proof.
  revert acc; induction ms as [|m ms IH]; intros acc; simpl.
  - now rewrite append_empty_r.
  - destruct (line m) as [l|e]; [|reflexivity].
    rewrite (IH (acc ++ l)), (IH l).
    destruct (append_lines "" ms) as [ls|e]; [|reflexivity].
    now rewrite append_assoc.
Qed.

Lemma line_readable (m : message) : readable m -> exists l, line m = Ok l.
Proof. intros [s Hs]. unfold line. rewrite Hs. eauto. Qed.

Lemma append_lines_readable (acc : string) (ms : list message) :
  Forall readable ms -> exists tr, append_lines acc ms = Ok tr.
Proof.
  revert acc; induction ms as [|m ms IH]; intros acc H; simpl; [eauto|].
  inversion H as [|? ? Hm Hms]; subst.
  destruct (line_readable m Hm) as [l ->]. now apply IH.
Qed.

Lemma append_lines_app (acc : string) (ms1 ms2 : list message) :
  append_lines acc (ms1 ++ ms2)%list
  = match append_lines acc ms1 with
    | Ok tr => append_lines tr ms2
    | Raise e => Raise e
    end.
Proof.
  revert acc; induction ms1 as [|m ms1 IH]; intros acc; simpl; [reflexivity|].
  destruct (line m); [apply IH | reflexivity].
Qed.

(** ** The two branches of one call *)

(** The UPDATE branch, every collaborator answering: the prior row is
    deleted under its own id, one record is added and the map rebuilt. *)
Lemma update_attempt (w : world) (course_name : string) (conv : log_data)
    (snap : snapshot) (ids : list Z) (prev_index : Z) (prev : indexed_record)
    (v : vector) (prev_id : Z) (created fm ls : string) (t : trace) :
  quiet w ->
  atlas_project w = Ok snap ->
  astype_int (map_metadata_df snap) = Ok ids ->
  located snap conv prev_index prev ->
  py_index (map_embeddings_df snap) (prev_index - 1) = Ok v ->
  List.length v = 1536%nat ->
  id prev = PyInt prev_id ->
  to_datetime_strftime w (created_at prev) = Ok created ->
  parse_first_message (conversation prev) = Ok fm ->
  append_lines "" (py_last 2 (log_messages conv)) = Ok ls ->
  log_convo_to_nomic_body w course_name conv t
  = (Ok (success course_name),
     (t ++ [ Call_log_convo_to_nomic; Nomic_login; Delete_data [prev_id];
             Add_embeddings [v]
               [ {| course := course_name;
                    conversation := conversation prev ++ ls;
                    conversation_id := log_conversation_id conv;
                    id := pynum_succ (series_max ids);
                    user_email := log_user_email conv;
                    first_query := Text fm;
                    created_at := created;
                    modified_at := now w 0 |} ];
             Rebuild_maps ])%list).
Proof.
  intros (Hlogin & Hdel & Hlock & Hadd & Hreb) Hsnap Hids Hloc Hv Hlen Hid
    Hcreated Hfm Hls.
  pose proof (located_in_values _ _ _ _ Hloc) as Hin.
  destruct Hloc as [rest Hsel].
  unfold log_convo_to_nomic_body. rewrite Hlogin. mrun.
  rewrite try_except_run. rewrite Hsnap. mrun. rewrite Hids. mrun.
  rewrite Hin. unfold update_point. rewrite Hsel.
  change (map fst ((prev_index, prev) :: rest)) with (prev_index :: map fst rest).
  change (map snd ((prev_index, prev) :: rest)) with (prev :: map snd rest).
  rewrite !py_index_head. mrun. rewrite Hv. mrun.
  rewrite (reshape_ok v Hlen). mrun.
  unfold int_id. rewrite Hid. mrun. rewrite Hcreated. mrun.
  rewrite Hdel. mrun. rewrite Hfm. mrun.
  rewrite append_lines_acc, Hls. mrun.
  rewrite Hlock. mrun. rewrite Hadd. mrun. rewrite Hreb. mrun.
  unfold ret, success. cbn [fst snd]. rewrite <- !app_assoc. reflexivity.
Qed.

(** The INSERT branch, every collaborator answering: one embedding is
    requested, one record is added and the map rebuilt. *)
Lemma insert_attempt (w : world) (course_name : string) (conv : log_data)
    (snap : snapshot) (ids : list Z) (fm tr : string) (embeddings : list vector)
    (t : trace) :
  quiet w ->
  atlas_project w = Ok snap ->
  astype_int (map_metadata_df snap) = Ok ids ->
  in_values (log_conversation_id conv) (map_metadata_df snap) = false ->
  first_message_text (log_messages conv) = Ok fm ->
  append_lines "" (log_messages conv) = Ok tr ->
  embed_documents w [Text fm] = Ok embeddings ->
  log_convo_to_nomic_body w course_name conv t
  = (Ok (success course_name),
     (t ++ [ Call_log_convo_to_nomic; Nomic_login; Embed_documents [Text fm];
             Add_embeddings embeddings
               [ {| course := course_name;
                    conversation := tr;
                    conversation_id := log_conversation_id conv;
                    id := pynum_succ (series_max ids);
                    user_email := log_user_email conv;
                    first_query := Text fm;
                    created_at := now w 0;
                    modified_at := now w 0 |} ];
             Rebuild_maps ])%list).
Proof.
  intros (Hlogin & Hdel & Hlock & Hadd & Hreb) Hsnap Hids Hin Hfm Htr Hemb.
  unfold log_convo_to_nomic_body. rewrite Hlogin. mrun.
  rewrite try_except_run. rewrite Hsnap. mrun. rewrite Hids. mrun.
  rewrite Hin. unfold insert_point. rewrite Hfm. mrun. rewrite Htr. mrun.
  rewrite Hemb. mrun.
  rewrite Hlock. mrun. rewrite Hadd. mrun. rewrite Hreb. mrun.
  unfold ret, success. cbn [fst snd]. rewrite <- !app_assoc. reflexivity.
Qed.

(** ** The record an UPDATE produces *)

(** C1, as the claim states it, fails: updating the only point of a map, whose
    row id is 7, adds a record whose row id is 8. *)
Lemma update_changes_row_id :
  let conv := sample_conversation "conv-a" [question; answer; follow_up] in
  let t := snd (attempt (sample_world (Ok one_row)) "cs101" conv) in
  located one_row conv 0 (sample_record 7 "conv-a")
  /\ exists r, added_records t = [r] /\ id r <> id (sample_record 7 "conv-a").
Proof.
  cbv zeta. split.
  - exists []. reflexivity.
  - eexists. split; [vm_compute; reflexivity | vm_compute; discriminate].
Qed.

(** C1, amended: an UPDATE keeps the prior record's [created_at] (a time
    stamp in the format the code itself writes) and its conversation id; it
    does not keep the row id.  The prior row is deleted under its old row
    id, the new record gets the greatest row id [k] of the map plus one in
    int64 arithmetic: [k + 1], greater than the old one, when [k] is an int64
    below 2^63 - 1, and -2^63 when [k] is 2^63 - 1.  [modified_at] is the
    current time, the transcript is the prior one followed by the lines of
    the newest two messages, the vector sent with the record is one the map
    already held, and course, user email and first query are written anew
    from the call and from the prior transcript. *)
Theorem update_keeps_created_at_and_renumbers
    (w : world) (course_name : string) (conv : log_data) (snap : snapshot)
    (ids : list Z) (prev_index : Z) (prev : indexed_record) (v : vector)
    (fm ls : string) (t : trace) :
  quiet w ->
  atlas_project w = Ok snap ->
  astype_int (map_metadata_df snap) = Ok ids ->
  located snap conv prev_index prev ->
  py_index (map_embeddings_df snap) (prev_index - 1) = Ok v ->
  List.length v = 1536%nat ->
  to_datetime_strftime w (created_at prev) = Ok (created_at prev) ->
  parse_first_message (conversation prev) = Ok fm ->
  append_lines "" (py_last 2 (log_messages conv)) = Ok ls ->
  exists prev_id k r,
    id prev = PyInt prev_id /\ series_max ids = PyInt k
    /\ log_convo_to_nomic_body w course_name conv t
       = (Ok (success course_name),
          (t ++ [ Call_log_convo_to_nomic; Nomic_login; Delete_data [prev_id];
                  Add_embeddings [v] [r]; Rebuild_maps ])%list)
    /\ created_at r = created_at prev
    /\ conversation_id r = conversation_id prev
    /\ id r = PyInt (wrap_int64 (k + 1))
    /\ ((int64_min <= k)%Z -> (k < int64_max)%Z ->
        id r = PyInt (k + 1) /\ (prev_id < k + 1)%Z)
    /\ (k = int64_max -> id r = PyInt int64_min /\ (int64_min < k)%Z)
    /\ (prev_id <= k)%Z
    /\ modified_at r = now w 0
    /\ conversation r = conversation prev ++ ls
    /\ In v (map_embeddings_df snap)
    /\ course r = course_name
    /\ user_email r = log_user_email conv
    /\ first_query r = Text fm.
Proof.
  intros Hq Hsnap Hids Hloc Hv Hlen Hcreated Hfm Hls.
  destruct (located_In _ _ _ _ Hloc) as [Hin Hcid].
  destruct (astype_int_In _ _ _ _ Hids Hin) as [prev_id [Hid Hidin]].
  destruct (series_max_spec ids) as [k [Hk [_ Hmax]]];
    [intros ->; contradiction|].
  exists prev_id, k. eexists. split; [exact Hid|]. split; [exact Hk|]. split.
  - eapply update_attempt; eauto.
  - cbn [created_at conversation_id id modified_at conversation course
           user_email first_query].
    rewrite Hk. pose proof (Hmax _ Hidin) as Hle.
    split; [reflexivity|]. split; [symmetry; assumption|].
    split; [reflexivity|].
    split; [intros H1 H2; split; [now apply pynum_succ_small | lia]|].
    split; [intros ->; split; [reflexivity | unfold int64_min, int64_max; lia]|].
    split; [assumption|].
    repeat split; try reflexivity.
    eapply py_index_In; eauto.
Qed.

Lemma update_keeps_created_at_and_renumbers_witness :
  let conv := sample_conversation "conv-a" [question; answer; follow_up] in
  exists r,
    log_convo_to_nomic_body (sample_world (Ok one_row)) "cs101" conv []
    = (Ok (success "cs101"),
       [ Call_log_convo_to_nomic; Nomic_login; Delete_data [7%Z];
         Add_embeddings [zeros] [r]; Rebuild_maps ])
    /\ created_at r = "2024-01-05 10:00:00" /\ id r = PyInt 8.
Proof.
  cbv zeta.
  destruct (update_keeps_created_at_and_renumbers
              (sample_world (Ok one_row)) "cs101"
              (sample_conversation "conv-a" [question; answer; follow_up])
              one_row [7%Z] 0 (sample_record 7 "conv-a") zeros
              "What is a heap?"
              (newline ++ ">>> " ++ emoji_other
               ++ "assistant: A tree-shaped priority queue." ++ newline
               ++ newline ++ ">>> " ++ emoji_user
               ++ "user: Then: what is a treap?" ++ newline)
              [])
    as [prev_id [k [r H]]].
  - repeat split; reflexivity.
  - reflexivity.
  - reflexivity.
  - exists []. reflexivity.
  - vm_compute. reflexivity.
  - vm_compute. reflexivity.
  - reflexivity.
  - vm_compute. reflexivity.
  - vm_compute. reflexivity.
  - destruct H as (Hid & Hk & Hrun & Hc & _ & Hidr & _).
    injection Hid as <-. injection Hk as <-.
    exists r. split; [exact Hrun|]. split; [exact Hc | exact Hidr].
Defined.

(** C3: on an UPDATE the new transcript is the stored one followed by the
    lines of the newest two messages, of all messages when there are fewer
    than two, and of none, without an error, when there is none.  Nothing of
    the stored transcript is dropped or rewritten, and lines it already holds
    are added again. *)
Theorem update_appends_newest_two
    (w : world) (course_name : string) (conv : log_data) (snap : snapshot)
    (ids : list Z) (prev_index : Z) (prev : indexed_record) (v : vector)
    (created fm : string) (t : trace) :
  quiet w ->
  atlas_project w = Ok snap ->
  astype_int (map_metadata_df snap) = Ok ids ->
  located snap conv prev_index prev ->
  py_index (map_embeddings_df snap) (prev_index - 1) = Ok v ->
  List.length v = 1536%nat ->
  to_datetime_strftime w (created_at prev) = Ok created ->
  parse_first_message (conversation prev) = Ok fm ->
  Forall readable (py_last 2 (log_messages conv)) ->
  exists prev_id ls r,
    append_lines "" (py_last 2 (log_messages conv)) = Ok ls
    /\ log_convo_to_nomic_body w course_name conv t
       = (Ok (success course_name),
          (t ++ [ Call_log_convo_to_nomic; Nomic_login; Delete_data [prev_id];
                  Add_embeddings [v] [r]; Rebuild_maps ])%list)
    /\ conversation r = conversation prev ++ ls
    /\ List.length (py_last 2 (log_messages conv))
       = Nat.min 2 (List.length (log_messages conv))
    /\ (exists older, log_messages conv = (older ++ py_last 2 (log_messages conv))%list)
    /\ ((List.length (log_messages conv) <= 2)%nat ->
        py_last 2 (log_messages conv) = log_messages conv)
    /\ (log_messages conv = [] -> conversation r = conversation prev)
    /\ (forall before, conversation prev = before ++ ls ->
        conversation r = before ++ ls ++ ls).
Proof.
  intros Hq Hsnap Hids Hloc Hv Hlen Hcreated Hfm Hread.
  destruct (located_In _ _ _ _ Hloc) as [Hin Hcid].
  destruct (astype_int_In _ _ _ _ Hids Hin) as [prev_id [Hid Hidin]].
  destruct (append_lines_readable "" _ Hread) as [ls Hls].
  exists prev_id, ls. eexists. split; [exact Hls|]. split.
  - eapply update_attempt; eauto.
  - cbn [conversation]. split; [reflexivity|].
    split; [apply py_last_length|]. split; [apply py_last_suffix|].
    split; [apply py_last_short|]. split.
    + intros Hnil. rewrite Hnil in Hls. injection Hls as <-.
      now rewrite append_empty_r.
    + intros before ->. now rewrite append_assoc.
Qed.

Lemma update_appends_newest_two_witness :
  let conv := sample_conversation "conv-a" [question; answer; follow_up] in
  exists r,
    added_records (snd (attempt (sample_world (Ok one_row)) "cs101" conv)) = [r]
    /\ conversation r
       = first_transcript
         ++ newline ++ ">>> " ++ emoji_other
         ++ "assistant: A tree-shaped priority queue." ++ newline
         ++ newline ++ ">>> " ++ emoji_user
         ++ "user: Then: what is a treap?" ++ newline.
Proof.
  cbv zeta.
  destruct (update_appends_newest_two
              (sample_world (Ok one_row)) "cs101"
              (sample_conversation "conv-a" [question; answer; follow_up])
              one_row [7%Z] 0 (sample_record 7 "conv-a") zeros
              "2024-01-05 10:00:00" "What is a heap?" [])
    as [prev_id [ls [r H]]].
  - repeat split; reflexivity.
  - reflexivity.
  - reflexivity.
  - exists []. reflexivity.
  - vm_compute. reflexivity.
  - vm_compute. reflexivity.
  - reflexivity.
  - vm_compute. reflexivity.
  - repeat constructor; eexists; reflexivity.
  - destruct H as (Hls & Hrun & Hc & _).
    exists r. unfold attempt. rewrite Hrun. split; [reflexivity|].
    rewrite Hc. vm_compute in Hls. injection Hls as <-. reflexivity.
Defined.

(** ** The first query an UPDATE stores *)

Lemma contains_char_iff (c : ascii) (s : string) :
  contains (String c "") s <-> mem_char c s = true.
Proof.
  induction s as [|d s IH]; simpl.
  - split; [|discriminate]. intros [p [q H]]. destruct p; discriminate.
  - rewrite orb_true_iff, <- IH. split.
    + intros [p [q H]]. destruct p as [|x p]; simpl in H.
      * injection H as -> _. left. apply Ascii.eqb_refl.
      * injection H as _ ->. right. now exists p, q.
    + intros [H|[p [q ->]]].
      * apply Ascii.eqb_eq in H as <-. now exists "", s.
      * now exists (String d p), q.
Qed.

Lemma mem_char_append (c : ascii) (a b : string) :
  mem_char c (a ++ b) = mem_char c a || mem_char c b.
Proof.
  induction a as [|d a IH]; simpl; [reflexivity|].
  now rewrite IH, orb_assoc.
Qed.

(** A text without the separating character in front of [z] moves the cut
    of [z] and nothing else. *)
Lemma partition_char_skip (c : ascii) (p z : string) :
  mem_char c p = false ->
  partition (String c "") (p ++ z)
  = match partition (String c "") z with
    | Some (before, after) => Some (p ++ before, after)
    | None => None
    end.
Proof.
  induction p as [|d p IH]; intros Hp.
  - simpl append. now destruct (partition (String c "") z) as [[b a]|].
  - simpl in Hp. apply orb_false_iff in Hp as [Hcd Hp].
    simpl append. rewrite partition_unfold.
    assert (Hpre : prefix (String c "") (String d (p ++ z)) = false).
    { simpl. destruct (ascii_dec c d) as [->|_]; [|reflexivity].
      now rewrite Ascii.eqb_refl in Hcd. }
    rewrite Hpre, (IH Hp).
    now destruct (partition (String c "") z) as [[b a]|].
Qed.

Lemma split_fuel_head (fuel : nat) (sep s : string) :
  exists h tl, split_fuel fuel sep s = h :: tl.
Proof.
  destruct fuel; simpl; destruct (partition sep s) as [[b a]|]; eauto.
Qed.

Lemma py_index_second {A : Type} (x y : A) (l : list A) :
  py_index (x :: y :: l) 1 = Ok y.
Proof.
  unfold py_index. change (List.length (x :: y :: l)) with (S (S (List.length l))).
  replace ((1 <? 0)%Z) with false by reflexivity. cbv zeta.
  destruct (Z.leb_spec (Z.of_nat (S (S (List.length l)))) 1) as [H|H]; [lia|].
  reflexivity.
Qed.

(** A text in which the separator occurs splits in two pieces at least. *)
Lemma split_contains (sep s : string) :
  sep <> "" -> contains sep s ->
  exists before second tl, split sep s = before :: second :: tl.
Proof.
  intros Hsep Hc. destruct (contains_partition _ _ Hc) as [b [a Hp]].
  unfold split. destruct (String.length s) as [|n] eqn:Hn.
  - destruct Hc as [p [q ->]]. rewrite !length_append in Hn.
    destruct sep; [congruence | simpl in Hn; lia].
  - simpl. rewrite Hp. destruct (split_fuel_head n sep a) as [h [tl ->]].
    now exists b, h, tl.
Qed.

Lemma partition_free (sep s : string) :
  ~ contains sep s -> partition sep s = None.
Proof.
  intros H. destruct (partition sep s) as [[b a]|] eqn:Hp; [|reflexivity].
  exfalso. apply H. exists b, a. now apply partition_Some.
Qed.

Lemma split_free (sep s : string) : ~ contains sep s -> split sep s = [s].
Proof.
  intros H. unfold split.
  destruct (String.length s); cbn [split_fuel]; now rewrite (partition_free _ _ H).
Qed.

Lemma mem_char_free (c : ascii) (sep s : string) :
  mem_char c sep = true -> mem_char c s = false -> ~ contains sep s.
Proof.
  intros Hsep Hs [p [q ->]]. rewrite !mem_char_append, Hsep in Hs.
  now rewrite orb_true_r in Hs.
Qed.

(** Before a [": "] that follows a text without [": "], the cut is that
    text. *)
Lemma partition_colon_skip (p z : string) :
  ~ contains ": " p -> partition ": " (p ++ ": " ++ z) = Some (p, z).
Proof.
  induction p as [|c p IH]; intros Hp.
  - rewrite partition_unfold.
    replace (prefix ": " ("" ++ ": " ++ z)) with true
      by (symmetry; apply prefix_true_iff; now exists z).
    reflexivity.
  - change (String c p ++ ": " ++ z) with (String c (p ++ ": " ++ z)).
    rewrite partition_unfold.
    assert (Hpre : prefix ": " (String c (p ++ ": " ++ z)) = false).
    { destruct (prefix ": " (String c (p ++ ": " ++ z))) eqn:Hpre; [|reflexivity].
      exfalso. apply prefix_true_iff in Hpre as [r Hr].
      injection Hr as -> Hr. destruct p as [|d p].
      - discriminate.
      - injection Hr as -> _. apply Hp. now exists "", p. }
    rewrite Hpre, IH; [reflexivity|].
    intros [a [b ->]]. apply Hp. now exists (String c a), b.
Qed.

Lemma partition_line (l x : string) :
  mem_char (ascii_of_nat 10) l = false ->
  partition newline (l ++ newline ++ x) = Some (l, x).
Proof.
  intros H. unfold newline at 1. rewrite (partition_char_skip _ _ _ H).
  fold newline. rewrite partition_unfold.
  replace (prefix newline (newline ++ x)) with true
    by (symmetry; apply prefix_true_iff; now exists x).
  cbn [String.length newline drop append]. now rewrite append_empty_r.
Qed.

Lemma partition_last_line (l : string) :
  mem_char (ascii_of_nat 10) l = false -> partition newline l = None.
Proof.
  intros H. apply partition_free.
  apply (mem_char_free (ascii_of_nat 10)); [reflexivity | assumption].
Qed.

(** [s.split("\n")[1]] is the second line of [s]. *)
Lemma split_second_line (l0 l1 tail : string) :
  mem_char (ascii_of_nat 10) l0 = false ->
  mem_char (ascii_of_nat 10) l1 = false ->
  (tail = "" \/ exists tail', tail = newline ++ tail') ->
  py_index (split newline (l0 ++ newline ++ l1 ++ tail)) 1 = Ok l1.
Proof.
  intros H0 H1 Ht. unfold split.
  destruct (String.length (l0 ++ newline ++ l1 ++ tail)) as [|n] eqn:Hn.
  - rewrite !length_append in Hn. unfold newline in Hn. simpl in Hn. lia.
  - cbn [split_fuel]. rewrite (partition_line _ _ H0).
    assert (Hl1 : exists tl, split_fuel n newline (l1 ++ tail) = l1 :: tl).
    { destruct Ht as [-> | [tail' ->]].
      - rewrite append_empty_r.
        destruct n; cbn [split_fuel]; rewrite (partition_last_line _ H1); eauto.
      - destruct n; cbn [split_fuel]; rewrite (partition_line _ _ H1); eauto. }
    destruct Hl1 as [tl ->]. apply py_index_second.
Qed.

(** [l.split(": ")[1]] is the text between the first [": "] of [l] and the
    next one, or the end of [l]. *)
Lemma split_second_piece (a b rest : string) :
  ~ contains ": " a -> ~ contains ": " b ->
  (rest = "" \/ exists rest', rest = ": " ++ rest') ->
  py_index (split ": " (a ++ ": " ++ b ++ rest)) 1 = Ok b.
Proof.
  intros Ha Hb Hr. unfold split.
  destruct (String.length (a ++ ": " ++ b ++ rest)) as [|n] eqn:Hn.
  - rewrite !length_append in Hn. simpl in Hn. lia.
  - cbn [split_fuel]. rewrite (partition_colon_skip _ _ Ha).
    assert (Hb' : exists tl, split_fuel n ": " (b ++ rest) = b :: tl).
    { destruct Hr as [-> | [rest' ->]].
      - rewrite append_empty_r.
        destruct n; cbn [split_fuel]; rewrite (partition_free _ _ Hb); eauto.
      - destruct n; cbn [split_fuel]; rewrite (partition_colon_skip _ _ Hb); eauto. }
    destruct Hb' as [tl ->]. apply py_index_second.
Qed.

(** Line 105, on any text: the second line, and in it the text between the
    first [": "] and the next one. *)
Lemma parse_first_message_between
    (first_line second_line tail label picked rest : string) :
  mem_char (ascii_of_nat 10) first_line = false ->
  mem_char (ascii_of_nat 10) second_line = false ->
  (tail = "" \/ exists tail', tail = newline ++ tail') ->
  second_line = label ++ ": " ++ picked ++ rest ->
  ~ contains ": " label -> ~ contains ": " picked ->
  (rest = "" \/ exists rest', rest = ": " ++ rest') ->
  parse_first_message (first_line ++ newline ++ second_line ++ tail) = Ok picked.
Proof.
  intros H0 H1 Ht Hl Ha Hb Hr. unfold parse_first_message.
  rewrite (split_second_line _ _ _ H0 H1 Ht). rewrite Hl.
  now apply split_second_piece.
Qed.

(** Line 105 succeeds on every transcript that starts as line 159 writes
    it, the role of the first message holding no line break. *)
Lemma parse_first_message_total (m : message) (q more : string) :
  message_text m = Ok q ->
  mem_char (ascii_of_nat 10) (role m) = false ->
  exists fm,
    parse_first_message
      (newline ++ ">>> " ++ emoji m ++ role m ++ ": " ++ q ++ newline ++ more)
    = Ok fm.
Proof.
  intros Hq Hrole. unfold parse_first_message.
  pose (head := ">>> " ++ emoji m ++ role m ++ ": ").
  pose (rest := q ++ newline ++ more).
  assert (Hs : newline ++ ">>> " ++ emoji m ++ role m ++ ": " ++ q ++ newline ++ more
               = newline ++ head ++ rest).
  { unfold head, rest. now rewrite !append_assoc. }
  rewrite Hs. clear Hs.
  assert (Hhead : mem_char (ascii_of_nat 10) head = false).
  { unfold head. rewrite !mem_char_append, Hrole.
    unfold emoji. now destruct (role m =? "user")%string. }
  assert (Hrest : contains newline rest) by (now exists q, more).
  destruct (contains_partition _ _ Hrest) as [b [a Hp]].
  assert (Hcut : partition newline (head ++ rest) = Some (head ++ b, a)).
  { unfold newline. rewrite (partition_char_skip _ _ _ Hhead).
    fold newline. now rewrite Hp. }
  assert (Hsplit : split newline (newline ++ head ++ rest)
                   = "" :: split_fuel (String.length (head ++ rest)) newline
                             (head ++ rest)) by reflexivity.
  rewrite Hsplit. clear Hsplit.
  assert (Hsecond : exists tl,
             split_fuel (String.length (head ++ rest)) newline (head ++ rest)
             = (head ++ b) :: tl).
  { destruct (String.length (head ++ rest)); cbn [split_fuel]; rewrite Hcut; eauto. }
  destruct Hsecond as [tl ->]. rewrite py_index_second.
  destruct (split_contains ": " (head ++ b)) as [x [y [tl' ->]]].
  - discriminate.
  - exists (">>> " ++ emoji m ++ role m), b. unfold head.
    now rewrite !append_assoc.
  - exists y. apply py_index_second.
Qed.

(** The transcript line 159 writes for a conversation starts with the line
    of its first message. *)
Lemma append_lines_first (m : message) (ms : list message) (q tr : string) :
  message_text m = Ok q ->
  append_lines "" (m :: ms) = Ok tr ->
  exists rest,
    tr = newline ++ ">>> " ++ emoji m ++ role m ++ ": " ++ q ++ newline ++ rest.
Proof.
  intros Hq. cbn [append_lines]. unfold line. rewrite Hq.
  rewrite append_lines_acc. destruct (append_lines "" ms) as [ls|]; [|discriminate].
  intros [= <-]. exists ls.
  repeat (rewrite ?append_assoc; simpl). reflexivity.
Qed.

(** C10: on an UPDATE the stored first query is not read from the messages
    of the call; it is cut out of the stored transcript: of its second line,
    the text between the first [": "] and the next one (or the end of the
    line).  That text holds neither [": "] nor a line break, so the first
    query stored by the UPDATE differs from any original first query that
    holds either. *)
Theorem update_rederives_first_query
    (w : world) (course_name : string) (conv : log_data) (snap : snapshot)
    (ids : list Z) (prev_index : Z) (prev : indexed_record) (v : vector)
    (created first_line second_line tail label picked rest : string)
    (t : trace) :
  quiet w ->
  atlas_project w = Ok snap ->
  astype_int (map_metadata_df snap) = Ok ids ->
  located snap conv prev_index prev ->
  py_index (map_embeddings_df snap) (prev_index - 1) = Ok v ->
  List.length v = 1536%nat ->
  to_datetime_strftime w (created_at prev) = Ok created ->
  Forall readable (py_last 2 (log_messages conv)) ->
  conversation prev = first_line ++ newline ++ second_line ++ tail ->
  mem_char (ascii_of_nat 10) first_line = false ->
  mem_char (ascii_of_nat 10) second_line = false ->
  (tail = "" \/ exists tail', tail = newline ++ tail') ->
  second_line = label ++ ": " ++ picked ++ rest ->
  ~ contains ": " label ->
  ~ contains ": " picked ->
  (rest = "" \/ exists rest', rest = ": " ++ rest') ->
  exists prev_id r,
    parse_first_message (conversation prev) = Ok picked
    /\ log_convo_to_nomic_body w course_name conv t
       = (Ok (success course_name),
          (t ++ [ Call_log_convo_to_nomic; Nomic_login; Delete_data [prev_id];
                  Add_embeddings [v] [r]; Rebuild_maps ])%list)
    /\ first_query r = Text picked
    /\ ~ contains newline picked
    /\ (forall q, contains ": " q \/ contains newline q -> first_query r <> Text q).
Proof.
  intros Hq Hsnap Hids Hloc Hv Hlen Hcreated Hread Hprev H0 H1 Ht Hl Ha Hb Hr.
  destruct (located_In _ _ _ _ Hloc) as [Hin Hcid].
  destruct (astype_int_In _ _ _ _ Hids Hin) as [prev_id [Hid Hidin]].
  destruct (append_lines_readable "" _ Hread) as [ls Hls].
  assert (Hfm : parse_first_message (conversation prev) = Ok picked).
  { rewrite Hprev. eapply parse_first_message_between; eauto. }
  destruct (parse_first_message_free _ _ Hfm) as [Hsep Hnl].
  exists prev_id. eexists. split; [exact Hfm|]. split.
  - eapply update_attempt; eauto.
  - cbn [first_query]. split; [reflexivity|]. split; [assumption|].
    intros q [H|H] [= ->]; contradiction.
Qed.

Lemma update_rederives_first_query_witness :
  let conv := sample_conversation "conv-t" [follow_up; answer] in
  exists r,
    added_records (snd (attempt (sample_world (Ok treap_row)) "cs101" conv)) = [r]
    /\ first_query r = Text "Then"
    /\ first_query r <> first_query treap_record.
Proof.
  cbv zeta.
  destruct (update_rederives_first_query
              (sample_world (Ok treap_row)) "cs101"
              (sample_conversation "conv-t" [follow_up; answer])
              treap_row [3%Z] 0 treap_record zeros
              "2024-01-06 11:00:00"
              "" (">>> " ++ emoji_user ++ "user: Then: what is a treap?") newline
              (">>> " ++ emoji_user ++ "user") "Then" ": what is a treap?" [])
    as [prev_id [r H]].
  - repeat split; reflexivity.
  - reflexivity.
  - reflexivity.
  - exists []. reflexivity.
  - vm_compute. reflexivity.
  - vm_compute. reflexivity.
  - reflexivity.
  - repeat constructor; eexists; reflexivity.
  - reflexivity.
  - reflexivity.
  - reflexivity.
  - right. now exists "".
  - reflexivity.
  - apply (mem_char_free ":"); reflexivity.
  - apply (mem_char_free ":"); reflexivity.
  - right. now exists "what is a treap?".
  - destruct H as (_ & Hrun & Hfq & _ & Hne).
    exists r. unfold attempt. rewrite Hrun. split; [reflexivity|].
    split; [exact Hfq|].
    apply Hne. left. now exists "Then", "what is a treap?".
Defined.

(** ** Row ids on INSERT *)

(** C4, as the claim states it, fails on its first half: an INSERT into a map
    without rows does not number the record 1; the greatest id of no rows is
    NaN and so is the id written. *)
Lemma insert_into_empty_map_has_no_row_id :
  let conv := sample_conversation "conv-a" [question; answer] in
  let t := snd (attempt (sample_world (Ok empty_map)) "cs101" conv) in
  in_values (log_conversation_id conv) (map_metadata_df empty_map) = false
  /\ exists r, added_records t = [r] /\ id r = PyNaN /\ id r <> PyInt 1.
Proof.
  cbv zeta. split; [reflexivity|].
  eexists. split; [vm_compute; reflexivity|]. split; [reflexivity | discriminate].
Qed.

(** C4, amended: an INSERT into a map that has rows, the greatest row id
    being [k], writes the record with row id [k + 1] in int64 arithmetic.
    When [k] is an int64 below 2^63 - 1 that is [k + 1], greater than every
    row id of the map, so row ids that were pairwise distinct stay so; when
    [k] is 2^63 - 1 the id written is -2^63, below the greatest row id.  On a
    map without rows the record gets no integer id. *)
Theorem insert_assigns_next_row_id
    (w : world) (course_name : string) (conv : log_data) (snap : snapshot)
    (ids : list Z) (fm tr : string) (embeddings : list vector) (t : trace) :
  quiet w ->
  atlas_project w = Ok snap ->
  astype_int (map_metadata_df snap) = Ok ids ->
  in_values (log_conversation_id conv) (map_metadata_df snap) = false ->
  first_message_text (log_messages conv) = Ok fm ->
  append_lines "" (log_messages conv) = Ok tr ->
  embed_documents w [Text fm] = Ok embeddings ->
  exists r,
    log_convo_to_nomic_body w course_name conv t
    = (Ok (success course_name),
       (t ++ [ Call_log_convo_to_nomic; Nomic_login; Embed_documents [Text fm];
               Add_embeddings embeddings [r]; Rebuild_maps ])%list)
    /\ (map_metadata_df snap = [] -> id r = PyNaN)
    /\ (map_metadata_df snap <> [] ->
        exists k,
          In k ids /\ (forall z, In z ids -> (z <= k)%Z)
          /\ id r = PyInt (wrap_int64 (k + 1))
          /\ ((int64_min <= k)%Z -> (k < int64_max)%Z ->
              id r = PyInt (k + 1)
              /\ (forall z, In z ids -> (z < k + 1)%Z)
              /\ (NoDup ids -> NoDup (ids ++ [(k + 1)%Z])%list))
          /\ (k = int64_max -> id r = PyInt int64_min /\ (int64_min < k)%Z)).
Proof.
  intros Hq Hsnap Hids Hin Hfm Htr Hemb.
  eexists. split; [eapply insert_attempt; eauto|].
  cbn [id]. split.
  - intros Hnil. rewrite Hnil in Hids. simpl in Hids. now injection Hids as <-.
  - intros Hne. destruct (series_max_spec ids) as [k [Hk [Hkin Hmax]]].
    + intros ->. apply astype_int_length in Hids.
      destruct (map_metadata_df snap); [congruence | discriminate].
    + exists k. rewrite Hk. split; [assumption|]. split; [assumption|].
      split; [reflexivity|].
      assert (Hlt : forall z, In z ids -> (z < k + 1)%Z)
        by (intros z Hz; specialize (Hmax z Hz); lia).
      split.
      * intros H1 H2. split; [now apply pynum_succ_small|].
        split; [assumption|]. intros Hnd.
        apply NoDup_app; [assumption | repeat constructor; intros [] |].
        intros z Hz [<-|[]]. specialize (Hlt _ Hz). lia.
      * intros ->. split; [reflexivity | unfold int64_min, int64_max; lia].
Qed.

Lemma insert_assigns_next_row_id_witness :
  let conv := sample_conversation "conv-c" [question; answer] in
  exists r,
    added_records (snd (attempt (sample_world (Ok two_rows)) "cs101" conv)) = [r]
    /\ id r = PyInt 3.
Proof.
  cbv zeta.
  destruct (insert_assigns_next_row_id
              (sample_world (Ok two_rows)) "cs101"
              (sample_conversation "conv-c" [question; answer])
              two_rows [1%Z; 2%Z] "What is a heap?" first_transcript [ones] [])
    as [r [Hrun [_ H]]].
  - repeat split; reflexivity.
  - reflexivity.
  - reflexivity.
  - reflexivity.
  - reflexivity.
  - reflexivity.
  - reflexivity.
  - exists r. unfold attempt. rewrite Hrun. split; [reflexivity|].
    destruct H as [k [Hk [Hmax [Hid _]]]]; [discriminate|].
    rewrite Hid.
    assert (k = 2%Z) as ->; [|reflexivity].
    pose proof (Hmax 2%Z (or_intror (or_introl eq_refl))).
    destruct Hk as [<-|[<-|[]]]; lia.
Defined.

(** ** Embeddings *)

(** The two branches differ in what they ask of the embedding model: an
    INSERT asks once, for the text of the first message; an UPDATE does not
    ask at all and sends the vector found at [prev_index - 1]. *)
Lemma insert_requests_one_embedding
    (w : world) (course_name : string) (conv : log_data) (snap : snapshot)
    (ids : list Z) (fm tr : string) (embeddings : list vector) :
  quiet w ->
  atlas_project w = Ok snap ->
  astype_int (map_metadata_df snap) = Ok ids ->
  in_values (log_conversation_id conv) (map_metadata_df snap) = false ->
  first_message_text (log_messages conv) = Ok fm ->
  append_lines "" (log_messages conv) = Ok tr ->
  embed_documents w [Text fm] = Ok embeddings ->
  filter is_embed (snd (attempt w course_name conv)) = [Embed_documents [Text fm]]
  /\ added_embeddings (snd (attempt w course_name conv)) = embeddings.
Proof.
  intros. unfold attempt. erewrite insert_attempt by eauto.
  simpl. now rewrite app_nil_r.
Qed.

Lemma update_requests_no_embedding
    (w : world) (course_name : string) (conv : log_data) (snap : snapshot)
    (ids : list Z) (prev_index : Z) (prev : indexed_record) (v : vector)
    (created fm ls : string) :
  quiet w ->
  atlas_project w = Ok snap ->
  astype_int (map_metadata_df snap) = Ok ids ->
  located snap conv prev_index prev ->
  py_index (map_embeddings_df snap) (prev_index - 1) = Ok v ->
  List.length v = 1536%nat ->
  to_datetime_strftime w (created_at prev) = Ok created ->
  parse_first_message (conversation prev) = Ok fm ->
  append_lines "" (py_last 2 (log_messages conv)) = Ok ls ->
  filter is_embed (snd (attempt w course_name conv)) = []
  /\ added_embeddings (snd (attempt w course_name conv)) = [v].
Proof.
  intros Hq Hsnap Hids Hloc Hv Hlen Hcreated Hfm Hls.
  destruct (located_In _ _ _ _ Hloc) as [Hin Hcid].
  destruct (astype_int_In _ _ _ _ Hids Hin) as [prev_id [Hid Hidin]].
  unfold attempt. erewrite update_attempt by eauto.
  split; reflexivity.
Qed.

(** C2 at its failing input: two points, [conv-a] with the embedding [zeros]
    and [conv-b] with the embedding [ones], in this order in the data frame
    and in the array.  An UPDATE of [conv-b] requests no embedding, as the
    claim says, but the vector it sends with the record is the one of
    [conv-a]. *)
Lemma update_reuses_the_neighbours_embedding :
  let conv := sample_conversation "conv-b" [question; answer; follow_up] in
  let t := snd (attempt (sample_world (Ok two_rows)) "cs101" conv) in
  located two_rows conv 1 (sample_record 2 "conv-b")
  /\ stored_embedding two_rows conv = Some ones
  /\ stored_embedding two_rows (sample_conversation "conv-a" []) = Some zeros
  /\ filter is_embed t = []
  /\ added_embeddings t = [zeros]
  /\ zeros <> ones.
Proof.
  cbv zeta. split; [exists []; reflexivity|].
  split; [reflexivity|]. split; [reflexivity|].
  split; [vm_compute; reflexivity|]. split; [vm_compute; reflexivity|].
  discriminate.
Qed.

(** ** The retry loop *)

(** A call on any trace, read off the call on the empty one. *)
Lemma log_convo_to_nomic_body_frame (w : world) (course_name : string)
    (conv : payload) (t : trace) :
  log_convo_to_nomic_body w course_name conv t
  = (fst (attempt w course_name conv), (t ++ snd (attempt w course_name conv))%list).
Proof.
  destruct (log_convo_to_nomic_body_shape w course_name conv) as [r [tr [_ [H _]]]].
  unfold attempt. now rewrite (H t), (H []).
Qed.

(** What one call leaves in the trace: its entry once, no sleep, at most one
    entry of [create_nomic_map], and no report when it raises. *)
Lemma attempt_trace (w : world) (course_name : string) (conv : payload) :
  count is_call_log (snd (attempt w course_name conv)) = 1%nat
  /\ sleeps (snd (attempt w course_name conv)) = []
  /\ (count is_call_create (snd (attempt w course_name conv)) <= 1)%nat
  /\ (forall e, fst (attempt w course_name conv) = Raise e ->
      count is_capture (snd (attempt w course_name conv)) = 0%nat).
Proof.
  destruct (log_convo_to_nomic_body_shape w course_name conv)
    as [r [tr [Htr [H [Hcreate [Hcap _]]]]]].
  unfold attempt. rewrite (H []). cbn [fst snd app].
  split; [|split; [|split]].
  - change (count is_call_log (Call_log_convo_to_nomic :: tr))
      with (S (count is_call_log tr)).
    rewrite count_none; [reflexivity|].
    eapply Forall_impl; [|exact Htr]. unfold attempt_event. tauto.
  - change (sleeps (Call_log_convo_to_nomic :: tr)) with (sleeps tr).
    clear -Htr. induction Htr as [|ev tr [_ Hev] _ IH]; [reflexivity|].
    unfold sleeps in *. simpl. rewrite IH.
    destruct ev; try reflexivity; discriminate.
  - exact Hcreate.
  - exact Hcap.
Qed.

(** With its sessions at hand, a call returns what line 186 returns, or
    nothing, or raises the exception of line 195. *)
Lemma attempt_outcome (w : world) (course_name : string) (conv : log_data) :
  session_ok w ->
  fst (attempt w course_name conv) = Ok None
  \/ fst (attempt w course_name conv) = Ok (success course_name)
  \/ exists e_str, fst (attempt w course_name conv) = Raise (Exception_dict e_str).
Proof.
  destruct (log_convo_to_nomic_body_shape w course_name conv)
    as [r [tr [_ [H [_ [_ Hout]]]]]].
  unfold attempt. rewrite (H []). intros Hs. apply Hout; [assumption|].
  exists conv. apply read_complete.
Qed.

(** One round of the loop. *)
Lemma retry_step (fuel : nat) (worlds : nat -> world) (tries : nat)
    (course_name : string) (conv : payload) (t : trace) :
  retry (S fuel) worlds tries course_name conv t
  = let a := attempt (worlds (S tries)) course_name conv in
    match fst a with
    | Ok r => Some (Ok r, (t ++ snd a)%list)
    | Raise e =>
        match giveup_hdlr e (t ++ snd a)%list with
        | (Raise e', t2) => Some (Raise e', t2)
        | (Ok giveup, t2) =>
            if giveup || (S tries =? max_tries)%nat then Some (Ok None, t2)
            else retry fuel worlds (S tries) course_name conv
                   (t2 ++ [Sleep (full_jitter (worlds (S tries)) (expo (S tries - 1)))])%list
        end
    end.
Proof.
  cbn [retry]. rewrite log_convo_to_nomic_body_frame.
  cbv zeta. destruct (fst (attempt (worlds (S tries)) course_name conv)); reflexivity.
Qed.

Lemma giveup_hdlr_lock (e_str : string) (t : trace) :
  In e_str LOCK_EXCEPTIONS ->
  giveup_hdlr (Exception_dict e_str) t = (Ok false, t).
Proof.
  intros H. unfold giveup_hdlr.
  replace (existsb (String.eqb e_str) LOCK_EXCEPTIONS) with true; [reflexivity|].
  symmetry. apply existsb_exists. exists e_str. split; [assumption|].
  apply String.eqb_refl.
Qed.

Lemma giveup_hdlr_permanent (e_str : string) (t : trace) :
  ~ In e_str LOCK_EXCEPTIONS ->
  giveup_hdlr (Exception_dict e_str) t
  = (Ok true, (t ++ [Capture_exception (Exception_dict e_str)])%list).
Proof.
  intros H. unfold giveup_hdlr.
  destruct (existsb (String.eqb e_str) LOCK_EXCEPTIONS) eqn:Hex; [|reflexivity].
  apply existsb_exists in Hex as [x [Hx Heq]].
  apply String.eqb_eq in Heq as <-. contradiction.
Qed.

(** The loop ends: every round either stops or counts one more call, and
    the fifth call stops. *)
Lemma retry_returns (worlds : nat -> world) (course_name : string) (conv : log_data) :
  (forall n, session_ok (worlds n)) ->
  forall fuel tries t,
    (tries < max_tries)%nat -> (max_tries <= tries + fuel)%nat ->
    exists r t',
      retry fuel worlds tries course_name conv t = Some (Ok r, t')
      /\ (r = None \/ r = success course_name).
Proof.
  intros Hs fuel. induction fuel as [|fuel IH]; intros tries t Hlt Hfuel; [lia|].
  rewrite retry_step. cbv zeta.
  destruct (attempt_outcome (worlds (S tries)) course_name conv (Hs _))
    as [H|[H|[e_str H]]]; rewrite H.
  - eexists _, _. split; [reflexivity | now left].
  - eexists _, _. split; [reflexivity | now right].
  - unfold giveup_hdlr.
    destruct (existsb (String.eqb e_str) LOCK_EXCEPTIONS).
    + cbn [ret orb]. destruct (S tries =? max_tries)%nat eqn:Hmax.
      * eexists _, _. split; [reflexivity | now left].
      * apply Nat.eqb_neq in Hmax. apply IH; lia.
    + mrun. cbn [ret orb]. eexists _, _. split; [reflexivity | now left].
Qed.

(** Whatever the collaborators answer, five rounds are enough: the
    decorated function returns or raises. *)
Lemma retry_total (worlds : nat -> world) (course_name : string) (conv : payload) :
  forall fuel tries t,
    (tries < max_tries)%nat -> (max_tries <= tries + fuel)%nat ->
    exists r t', retry fuel worlds tries course_name conv t = Some (r, t').
Proof.
  intros fuel. induction fuel as [|fuel IH]; intros tries t Hlt Hfuel; [lia|].
  rewrite retry_step. cbv zeta.
  destruct (fst (attempt (worlds (S tries)) course_name conv)) as [r|e]; [eauto|].
  destruct (giveup_hdlr e _) as [[giveup|e'] t2]; [|eauto].
  destruct (giveup || (S tries =? max_tries)%nat) eqn:Hstop; [eauto|].
  apply orb_false_iff in Hstop as [_ Hmax]. apply Nat.eqb_neq in Hmax.
  apply IH; lia.
Qed.

Lemma log_convo_to_nomic_total (worlds : nat -> world) (course_name : string)
    (conv : payload) :
  exists r t, log_convo_to_nomic worlds course_name conv = Some (r, t).
Proof. apply retry_total; unfold max_tries; lia. Qed.

(** ** What the caller gets back *)

(** A payload that lacks an entry stops the call at lines 69-71, after the
    login and outside the [try], with a [KeyError]. *)
Lemma read_conversation_raises (p : payload) (e : pyexn) :
  read_conversation p = Raise e -> exists key, e = KeyError key.
Proof.
  unfold read_conversation.
  destruct (entry_conversation p) as [c|]; [|intros [= <-]; eauto].
  destruct (entry_messages c); [|intros [= <-]; eauto].
  destruct (entry_user_email c); [|intros [= <-]; eauto].
  destruct (entry_id c); [discriminate | intros [= <-]; eauto].
Qed.

Lemma attempt_unread (w : world) (course_name : string) (p : payload) (e : pyexn) :
  login w = None ->
  read_conversation p = Raise e ->
  attempt w course_name p = (Raise e, [Call_log_convo_to_nomic; Nomic_login]).
Proof.
  intros Hl Hread. unfold attempt, log_convo_to_nomic_body.
  rewrite Hl, Hread. mrun. reflexivity.
Qed.

(** C5, as the claim states it, fails three times.  When the map service
    fails for good, the failure is reported and the call returns [None], not
    a status string.  When the login of line 55 raises, which happens outside
    the [try], [giveup_hdlr] cannot read the exception and its own
    [TypeError] reaches the caller.  And so it does when the payload lacks an
    entry read at lines 69-71, the logins succeeding. *)
Lemma sync_returns_none_and_may_raise :
  let conv := sample_conversation "conv-a" [question; answer] in
  log_convo_to_nomic
    (fun _ => sample_world (Raise (Exception_msg "Service unavailable"))) "cs101" conv
  = Some (Ok None,
          [ Call_log_convo_to_nomic; Nomic_login;
            Capture_exception (Exception_dict "Service unavailable") ])
  /\ log_convo_to_nomic
       (fun _ => make_world (Some (Exception_msg "Invalid API key")) (Ok one_row) (Ok []) 1)
       "cs101" conv
     = Some (Raise TypeError_str_index, [ Call_log_convo_to_nomic; Nomic_login ])
  /\ read_conversation payload_without_id = Raise (KeyError "id")
  /\ session_ok (sample_world (Ok one_row))
  /\ exists e,
       log_convo_to_nomic (fun _ => sample_world (Ok one_row)) "cs101"
         payload_without_id
       = Some (Raise e, [ Call_log_convo_to_nomic; Nomic_login ]).
Proof.
  cbv zeta. split; [vm_compute; reflexivity|]. split; [vm_compute; reflexivity|].
  split; [reflexivity|]. split; [repeat split; reflexivity|].
  eexists. vm_compute. reflexivity.
Qed.

(** C5, amended: when the payload holds the three entries read at lines
    69-71 and the logins and the creation of the Supabase client succeed, no
    exception reaches the caller: the call returns the status string of line
    186 when a call of the function commits, and [None] otherwise.  A
    permanent failure, one whose message is not a lock message (the
    not-configured kind never leaves the function), is reported to Sentry
    once and ends the loop there with [None].  When the payload lacks one of
    the entries, an exception reaches the caller after one call, and nothing
    is reported. *)
Theorem sync_returns_status_or_none
    (worlds : nat -> world) (course_name : string) (p : payload) :
  (forall n, session_ok (worlds n)) ->
  ((exists conv, read_conversation p = Ok conv) ->
   (exists r t,
       log_convo_to_nomic worlds course_name p = Some (Ok r, t)
       /\ (r = None \/ r = success course_name))
   /\ (forall n,
         fst (attempt (worlds n) course_name p) = Ok None
         \/ fst (attempt (worlds n) course_name p) = Ok (success course_name)
         \/ exists e_str,
              fst (attempt (worlds n) course_name p) = Raise (Exception_dict e_str))
   /\ (forall fuel tries t e_str,
         fst (attempt (worlds (S tries)) course_name p)
         = Raise (Exception_dict e_str) ->
         ~ In e_str LOCK_EXCEPTIONS ->
         retry (S fuel) worlds tries course_name p t
         = Some (Ok None,
                 (t ++ snd (attempt (worlds (S tries)) course_name p)
                    ++ [Capture_exception (Exception_dict e_str)])%list)))
  /\ ((forall conv, read_conversation p <> Ok conv) ->
      exists e,
        log_convo_to_nomic worlds course_name p
        = Some (Raise e, [ Call_log_convo_to_nomic; Nomic_login ])).
Proof.
  intros Hs. split.
  - intros [conv Hread]. apply read_conversation_Ok in Hread. subst p.
    split; [|split].
    + unfold log_convo_to_nomic. apply retry_returns; [assumption | |];
        unfold max_tries; lia.
    + intros n. now apply attempt_outcome.
    + intros fuel tries t e_str Hraise Hperm.
      rewrite retry_step. cbv zeta. rewrite Hraise.
      rewrite (giveup_hdlr_permanent _ _ Hperm). cbn [orb].
      now rewrite <- app_assoc.
  - intros Hno. destruct (read_conversation p) as [conv|e] eqn:Hread;
      [now elim (Hno conv)|].
    destruct (read_conversation_raises _ _ Hread) as [key ->].
    exists TypeError_str_index.
    unfold log_convo_to_nomic. change max_tries with 5%nat.
    rewrite retry_step. cbv zeta.
    rewrite (attempt_unread _ _ _ _ (proj1 (Hs 1%nat)) Hread).
    reflexivity.
Qed.

Lemma sync_returns_status_or_none_witness :
  let conv := sample_conversation "conv-a" [question; answer; follow_up] in
  exists t,
    log_convo_to_nomic (fun _ => sample_world (Ok one_row)) "cs101" conv
    = Some (Ok (success "cs101"), t).
Proof.
  cbv zeta.
  destruct (sync_returns_status_or_none
              (fun _ => sample_world (Ok one_row)) "cs101"
              (sample_conversation "conv-a" [question; answer; follow_up]))
    as [H _].
  - intros n. repeat split; reflexivity.
  - destruct H as [[r [t [Hrun Hr]]] _].
    + eexists. reflexivity.
    + exists t. rewrite Hrun. destruct Hr as [->| ->]; [|reflexivity].
      vm_compute in Hrun. discriminate.
Defined.

(** ** Backing off *)

Lemma expo_increasing (n : nat) : (expo n < expo (S n))%Q.
Proof.
  unfold expo. apply Qmult_lt_l; [reflexivity|].
  rewrite <- Zlt_Qlt. apply Z.pow_lt_mono_r; lia.
Qed.

Lemma expo_positive (n : nat) : (0 < expo n)%Q.
Proof.
  unfold expo. apply Qmult_lt_0_compat; [reflexivity|].
  change 0%Q with (inject_Z 0). rewrite <- Zlt_Qlt. apply Z.pow_pos_nonneg; lia.
Qed.

Lemma full_jitter_bounds (w : world) (value : Q) :
  (0 <= random w)%Q -> (random w <= 1)%Q -> (0 <= value)%Q ->
  (0 <= full_jitter w value)%Q /\ (full_jitter w value <= value)%Q.
Proof. intros H0 H1 Hv. unfold full_jitter. split; nra. Qed.

(** The events of [k] calls that fail for a transient reason, from the call
    numbered [first] on: each call, then the sleep before the next. *)
Lemma retry_transient (worlds : nat -> world) (course_name : string)
    (conv : log_data) (k : nat) :
  forall fuel tries t,
    (forall n, (tries < n <= tries + k)%nat ->
               transient (fst (attempt (worlds n) course_name conv))) ->
    (tries + k < max_tries)%nat ->
    retry (k + fuel) worlds tries course_name conv t
    = retry fuel worlds (tries + k) course_name conv
        (t ++ flat_map
                (fun n => snd (attempt (worlds n) course_name conv)
                          ++ [Sleep (full_jitter (worlds n) (expo (n - 1)))])
                (seq (S tries) k))%list.
Proof.
  induction k as [|k IH]; intros fuel tries t Htr Hmax.
  - simpl. now rewrite app_nil_r, Nat.add_0_r.
  - change (S k + fuel)%nat with (S (k + fuel)). rewrite retry_step. cbv zeta.
    destruct (Htr (S tries)) as [e_str [Hlock Hraise]]; [lia|].
    rewrite Hraise, (giveup_hdlr_lock _ _ Hlock). cbn [orb].
    replace (S tries =? max_tries)%nat with false
      by (symmetry; apply Nat.eqb_neq; lia).
    rewrite IH; [|intros n Hn; apply Htr; lia | lia].
    replace (S tries + k)%nat with (tries + S k)%nat by lia.
    cbn [seq flat_map]. now rewrite <- !app_assoc.
Qed.

Lemma sleeps_app (t1 t2 : trace) : sleeps (t1 ++ t2)%list = (sleeps t1 ++ sleeps t2)%list.
Proof. unfold sleeps. apply flat_map_app. Qed.

Lemma transient_trace (worlds : nat -> world) (course_name : string)
    (conv : log_data) (k : nat) :
  forall tries,
    (forall n, (tries < n <= tries + k)%nat ->
               transient (fst (attempt (worlds n) course_name conv))) ->
    let t := flat_map
               (fun n => snd (attempt (worlds n) course_name conv)
                         ++ [Sleep (full_jitter (worlds n) (expo (n - 1)))])%list
               (seq (S tries) k) in
    count is_call_log t = k
    /\ count is_capture t = 0%nat
    /\ sleeps t = map (fun n => full_jitter (worlds n) (expo (n - 1))) (seq (S tries) k).
Proof.
  induction k as [|k IH]; intros tries Htr; cbv zeta; [now repeat split|].
  cbn [seq flat_map map].
  destruct (IH (S tries)) as (IH1 & IH2 & IH3); [intros n Hn; apply Htr; lia|].
  destruct (attempt_trace (worlds (S tries)) course_name conv)
    as (Hlog & Hsleep & _ & Hcap).
  destruct (Htr (S tries)) as [e_str [_ Hraise]]; [lia|].
  rewrite !count_app, !sleeps_app, IH1, IH2, IH3, Hlog, Hsleep, (Hcap _ Hraise).
  repeat split.
Qed.

(** C6, as the claim states it, fails on its last part, and on the delays.
    When all five calls find the map locked, the call returns [None] and
    nothing is reported to Sentry.  And the time slept is a random fraction
    of the backoff value: with the draws 1 and 1/100 the second sleep is
    shorter than the first. *)
Lemma exhausted_retries_are_not_reported :
  let conv := sample_conversation "conv-a" [question; answer] in
  (exists t,
      log_convo_to_nomic (fun _ => locked_world 1) "cs101" conv = Some (Ok None, t)
      /\ count is_call_log t = 5%nat /\ count is_capture t = 0%nat)
  /\ (exists t first second others,
         log_convo_to_nomic
           (fun n => locked_world (if (n =? 1)%nat then 1 else 1 # 100)) "cs101" conv
         = Some (Ok None, t)
         /\ sleeps t = first :: second :: others /\ (second < first)%Q).
Proof.
  cbv zeta. split.
  - eexists. split; [vm_compute; reflexivity|]. split; reflexivity.
  - eexists. eexists. eexists. eexists.
    split; [vm_compute; reflexivity|]. split; reflexivity.
Qed.

(** C6, amended: a call that fails with a lock message is made again, five
    calls at most.  Before the next call the loop sleeps a random fraction of
    the backoff value 1.5 * 10^(n-1) seconds of the n-th call; these values
    are strictly increasing, the sleeps lie between 0 and them.  When a call
    returns after transient failures, the caller gets what it returned, after
    that many calls.  When all five calls fail, no exception reaches the
    caller: the call returns [None], and nothing is reported to Sentry. *)
Theorem backoff_retries_transient_failures
    (worlds : nat -> world) (course_name : string) (conv : log_data) :
  (forall n, (0 <= random (worlds n))%Q /\ (random (worlds n) <= 1)%Q) ->
  (forall n, (expo n < expo (S n))%Q)
  /\ (forall n, (0 <= full_jitter (worlds n) (expo (n - 1)))%Q
                /\ (full_jitter (worlds n) (expo (n - 1)) <= expo (n - 1))%Q)
  /\ (forall k r,
        (1 <= k <= max_tries)%nat ->
        (forall n, (1 <= n < k)%nat ->
                   transient (fst (attempt (worlds n) course_name conv))) ->
        fst (attempt (worlds k) course_name conv) = Ok r ->
        exists t,
          log_convo_to_nomic worlds course_name conv = Some (Ok r, t)
          /\ count is_call_log t = k
          /\ sleeps t = map (fun n => full_jitter (worlds n) (expo (n - 1)))
                            (seq 1 (k - 1)))
  /\ ((forall n, (1 <= n <= max_tries)%nat ->
                 transient (fst (attempt (worlds n) course_name conv))) ->
      exists t,
        log_convo_to_nomic worlds course_name conv = Some (Ok None, t)
        /\ count is_call_log t = max_tries
        /\ count is_capture t = 0%nat
        /\ sleeps t = map (fun n => full_jitter (worlds n) (expo (n - 1)))
                          (seq 1 (max_tries - 1))).
Proof.
  intros Hrand. split; [exact expo_increasing|]. split; [|split].
  - intros n. destruct (Hrand n) as [H0 H1].
    apply full_jitter_bounds; try assumption.
    apply Qlt_le_weak, expo_positive.
  - intros k r Hk Htr Hok. unfold log_convo_to_nomic.
    replace max_tries with ((k - 1) + S (max_tries - k))%nat by lia.
    rewrite retry_transient; [|intros n Hn; apply Htr; lia | unfold max_tries in *; lia].
    rewrite retry_step. cbv zeta.
    replace (S (0 + (k - 1)))%nat with k by lia. rewrite Hok.
    eexists. split; [reflexivity|].
    destruct (transient_trace worlds course_name conv (k - 1) 0%nat)
      as (H1 & _ & H3); [intros n Hn; apply Htr; lia|].
    destruct (attempt_trace (worlds k) course_name conv) as (Hlog & Hsleep & _).
    cbn [app]. rewrite count_app, sleeps_app, H1, H3, Hlog, Hsleep.
    split; [lia | now rewrite app_nil_r].
  - intros Htr. unfold log_convo_to_nomic.
    change max_tries with (4 + 1)%nat at 1.
    rewrite retry_transient; [|intros n Hn; apply Htr; unfold max_tries; lia
                              | unfold max_tries; lia].
    rewrite retry_step. cbv zeta.
    destruct (Htr 5%nat) as [e_str [Hlock Hraise]]; [unfold max_tries; lia|].
    change (S (0 + 4)) with 5%nat. rewrite Hraise, (giveup_hdlr_lock _ _ Hlock).
    change (false || (5 =? max_tries)%nat) with true. cbv iota.
    eexists. split; [reflexivity|].
    destruct (transient_trace worlds course_name conv 4 0%nat)
      as (H1 & H2 & H3); [intros n Hn; apply Htr; unfold max_tries; lia|].
    destruct (attempt_trace (worlds 5%nat) course_name conv)
      as (Hlog & Hsleep & _ & Hcap).
    cbn [app]. rewrite !count_app, sleeps_app, H1, H2, H3, Hlog, Hsleep, (Hcap _ Hraise).
    split; [reflexivity|]. split; [reflexivity | now rewrite app_nil_r].
Qed.

Lemma backoff_retries_transient_failures_witness :
  let conv := sample_conversation "conv-a" [question; answer; follow_up] in
  let worlds := fun n => if (n <=? 2)%nat then locked_world (1 # 2)
                         else make_world None (Ok one_row) (Ok []) (1 # 2) in
  exists t,
    log_convo_to_nomic worlds "cs101" conv = Some (Ok (success "cs101"), t)
    /\ count is_call_log t = 3%nat
    /\ sleeps t = [ full_jitter (worlds 1%nat) (expo 0);
                    full_jitter (worlds 2%nat) (expo 1) ].
Proof.
  cbv zeta.
  destruct (backoff_retries_transient_failures
              (fun n => if (n <=? 2)%nat then locked_world (1 # 2)
                        else make_world None (Ok one_row) (Ok []) (1 # 2))
              "cs101"
              (sample_conversation "conv-a" [question; answer; follow_up]))
    as (_ & _ & H & _).
  - intros n. destruct (n <=? 2)%nat; split; discriminate.
  - destruct (H 3%nat (success "cs101")) as [t Ht].
    + unfold max_tries. lia.
    + intros n Hn.
      exists "Project is currently indexing and cannot ingest new datums. Try again later.".
      split; [right; right; now left|].
      assert (Hn' : (n = 1 \/ n = 2)%nat) by lia.
      destruct Hn' as [-> | ->]; vm_compute; reflexivity.
    + vm_compute. reflexivity.
    + exists t. exact Ht.
Defined.

(** ** No map yet *)

(** C7: when a call finds that the course has no map (the message of line
    189), it enters [create_nomic_map] once and returns; the loop of the
    decorator ends there, without a sleep and without another call of the
    incremental path.  The caller gets [None], not an exception, and the
    condition is not reported to Sentry. *)
Theorem not_configured_bootstraps_once
    (worlds : nat -> world) (course_name : string) (conv : log_data)
    (fuel tries : nat) (t : trace) (e : pyexn) :
  login (worlds (S tries)) = None ->
  atlas_project (worlds (S tries)) = Raise e ->
  str e = unique_id_field_message ->
  map_login (worlds (S tries)) = None ->
  create_client (worlds (S tries)) = None ->
  exists a tr,
    create_nomic_map (worlds (S tries)) course_name conv []
    = (Ok a, Call_create_nomic_map :: Nomic_login :: tr)
    /\ retry (S fuel) worlds tries course_name conv t
       = Some (Ok None,
               (t ++ Call_log_convo_to_nomic :: Nomic_login
                  :: Call_create_nomic_map :: Nomic_login :: tr)%list)
    /\ count is_call_create
         (Call_log_convo_to_nomic :: Nomic_login
          :: Call_create_nomic_map :: Nomic_login :: tr) = 1%nat
    /\ count is_call_log
         (Call_log_convo_to_nomic :: Nomic_login
          :: Call_create_nomic_map :: Nomic_login :: tr) = 1%nat
    /\ sleeps (Call_log_convo_to_nomic :: Nomic_login
               :: Call_create_nomic_map :: Nomic_login :: tr) = []
    /\ ~ In (Capture_exception e) tr.
Proof.
  intros Hlogin Hproj Hmsg Hml Hcc.
  destruct (create_nomic_map_returns (worlds (S tries)) course_name conv Hml Hcc)
    as [a [tr [Htr [Hcap Hrun]]]].
  exists a, tr. split; [apply (Hrun [])|].
  assert (Hbody : forall t0,
             log_convo_to_nomic_body (worlds (S tries)) course_name conv t0
             = (Ok None,
                (t0 ++ Call_log_convo_to_nomic :: Nomic_login
                    :: Call_create_nomic_map :: Nomic_login :: tr)%list)).
  { intros t0. unfold log_convo_to_nomic_body. rewrite Hlogin. mrun.
    rewrite try_except_run, Hproj. mrun.
    replace (str e =? unique_id_field_message)%string with true
      by (symmetry; now apply String.eqb_eq).
    unfold bind at 1. rewrite Hrun. unfold ret.
    rewrite <- !app_assoc. reflexivity. }
  split; [|split; [|split; [|split]]].
  - cbn [retry]. now rewrite Hbody.
  - change (count is_call_create
              (Call_log_convo_to_nomic :: Nomic_login
               :: Call_create_nomic_map :: Nomic_login :: tr))
      with (S (count is_call_create tr)).
    now rewrite map_no_call_create.
  - change (count is_call_log
              (Call_log_convo_to_nomic :: Nomic_login
               :: Call_create_nomic_map :: Nomic_login :: tr))
      with (S (count is_call_log tr)).
    now rewrite map_no_call_log.
  - change (sleeps (Call_log_convo_to_nomic :: Nomic_login
                    :: Call_create_nomic_map :: Nomic_login :: tr))
      with (sleeps tr).
    clear -Htr. induction Htr as [|ev tr (_ & _ & Hev) _ IH]; [reflexivity|].
    unfold sleeps in *. simpl. rewrite IH.
    destruct ev; try reflexivity; discriminate.
  - intros Hin. now apply Hcap in Hin.
Qed.

Lemma not_configured_bootstraps_once_witness :
  let conv := sample_conversation "conv-a" [question; answer] in
  log_convo_to_nomic
    (fun _ => sample_world (Raise (Exception_msg unique_id_field_message)))
    "cs101" conv
  = Some (Ok None,
          [ Call_log_convo_to_nomic; Nomic_login; Call_create_nomic_map; Nomic_login ]).
Proof.
  cbv zeta.
  destruct (not_configured_bootstraps_once
              (fun _ => sample_world (Raise (Exception_msg unique_id_field_message)))
              "cs101" (sample_conversation "conv-a" [question; answer])
              4 0 [] (Exception_msg unique_id_field_message))
    as [a [tr [Hcreate [Hrun _]]]].
  - reflexivity.
  - reflexivity.
  - reflexivity.
  - reflexivity.
  - reflexivity.
  - unfold log_convo_to_nomic. change max_tries with 5%nat. rewrite Hrun.
    vm_compute in Hcreate. injection Hcreate as _ <-. reflexivity.
Defined.

(** ** Bootstrap *)

Lemma first_message_text_readable (ms : list message) :
  ms <> [] -> Forall readable ms -> exists fm, first_message_text ms = Ok fm.
Proof.
  intros Hne Hr. destruct ms as [|m ms]; [congruence|].
  inversion Hr as [|? ? [s Hs] _]; subst.
  unfold first_message_text. rewrite py_index_head. eauto.
Qed.

(** The loop of lines 264-323: one record per row, in order, numbered from
    [i]; the transcript of a row is the text of its messages, followed, when
    the row is the conversation being logged, by the text of all messages of
    that conversation. *)
Lemma history_loop_spec (w : world) (log : log_data) (rows : list history_row) :
  Forall (well_formed_row w) rows ->
  (existsb (same_conversation log) rows = true ->
   Forall readable (log_messages log)) ->
  forall i user_queries metadata conversation_exists,
    exists queries records,
      history_loop w log rows i user_queries metadata conversation_exists
      = Ok ((user_queries ++ queries)%list, (metadata ++ records)%list,
            (i + List.length rows)%nat,
            conversation_exists || existsb (same_conversation log) rows)
      /\ List.length records = List.length rows
      /\ List.length queries = List.length rows
      /\ forall j row,
           nth_error rows j = Some row ->
           exists r tr,
             nth_error records j = Some r
             /\ append_lines "" (row_messages row) = Ok tr
             /\ id r = PyInt (Z.of_nat (i + j))
             /\ conversation_id r = row_convo_id row
             /\ (same_conversation log row = false -> conversation r = tr)
             /\ (same_conversation log row = true ->
                 exists ls, append_lines "" (log_messages log) = Ok ls
                            /\ conversation r = tr ++ ls).
Proof.
  induction rows as [|row rows IH]; intros Hwf Hlog i uq md ex.
  - exists [], []. cbn [history_loop existsb List.length].
    rewrite !app_nil_r, Nat.add_0_r, orb_false_r.
    repeat split. intros j row Hj. destruct j; discriminate.
  - inversion Hwf as [|? ? Hrow Hrows]; subst.
    destruct Hrow as ([created Hc] & Hne & Hread).
    destruct (first_message_text_readable _ Hne Hread) as [fm Hfm].
    destruct (append_lines_readable "" _ Hread) as [tr Htr].
    cbn [history_loop]. rewrite Hc, Hfm, Htr.
    fold (same_conversation log row).
    assert (Hconv : exists c1,
               (if same_conversation log row
                then append_lines tr (log_messages log) else Ok tr) = Ok c1
               /\ (same_conversation log row = false -> c1 = tr)
               /\ (same_conversation log row = true ->
                   exists ls, append_lines "" (log_messages log) = Ok ls
                              /\ c1 = tr ++ ls)).
    { destruct (same_conversation log row) eqn:Hsame.
      - destruct (append_lines_readable "" (log_messages log)) as [ls Hls].
        { apply Hlog. cbn [existsb]. now rewrite Hsame. }
        exists (tr ++ ls). rewrite append_lines_acc, Hls.
        split; [reflexivity|]. split; [discriminate|]. intros _. now exists ls.
      - exists tr. split; [reflexivity|]. split; [reflexivity | discriminate]. }
    destruct Hconv as [c1 [Hc1 [Hc1f Hc1t]]]. rewrite Hc1.
    match goal with
    | |- context [history_loop w log rows (S i) ?q ?m ?b] =>
        destruct (IH Hrows
                    (fun H => Hlog ltac:(cbn [existsb]; rewrite H; apply orb_true_r))
                    (S i) q m b)
          as [queries [records [Hrun [Hlen [Hlenq Hnth]]]]]
    end.
    rewrite Hrun. eexists (_ :: queries), (_ :: records).
    split; [|split; [|split]].
    + cbn [existsb List.length]. rewrite <- !app_assoc, orb_assoc.
      cbn [app]. now replace (S i + List.length rows)%nat
                     with (i + S (List.length rows))%nat by lia.
    + cbn [List.length]. now rewrite Hlen.
    + cbn [List.length]. now rewrite Hlenq.
    + intros j row' Hj. destruct j as [|j].
      * injection Hj as <-. eexists _, tr. cbn [nth_error].
        split; [reflexivity|]. split; [assumption|].
        cbn [id conversation_id conversation]. rewrite Nat.add_0_r.
        repeat split; assumption.
      * cbn [nth_error] in *. destruct (Hnth j row' Hj) as [r [tr' H]].
        exists r, tr'. replace (i + S j)%nat with (S i + j)%nat by lia.
        exact H.
Qed.

(** Lines 254-354: the records of the new map.  As many as rows when the
    conversation being logged is among them, one more otherwise; numbered
    from 1 in the order of the rows. *)
Lemma assemble_spec (w : world) (course_name : string) (log : log_data)
    (rows : list history_row) :
  Forall (well_formed_row w) rows ->
  log_messages log <> [] ->
  Forall readable (log_messages log) ->
  exists queries records,
    assemble w course_name log rows = Ok (queries, records)
    /\ List.length records
       = (if existsb (same_conversation log) rows then List.length rows
          else S (List.length rows))
    /\ List.length queries = List.length records
    /\ (forall j r, nth_error records j = Some r -> id r = PyInt (Z.of_nat (S j)))
    /\ (forall j row,
          nth_error rows j = Some row ->
          exists r tr,
            nth_error records j = Some r
            /\ append_lines "" (row_messages row) = Ok tr
            /\ conversation_id r = row_convo_id row
            /\ (same_conversation log row = false -> conversation r = tr)
            /\ (same_conversation log row = true ->
                exists ls, append_lines "" (log_messages log) = Ok ls
                           /\ conversation r = tr ++ ls))
    /\ (existsb (same_conversation log) rows = false ->
        exists r tr,
          nth_error records (List.length rows) = Some r
          /\ append_lines "" (log_messages log) = Ok tr
          /\ conversation r = tr
          /\ conversation_id r = log_conversation_id log).
Proof.
  intros Hwf Hne Hread.
  destruct (history_loop_spec w log rows Hwf (fun _ => Hread) 1 [] [] false)
    as [queries [records [Hrun [Hlen [Hlenq Hnth]]]]].
  unfold assemble. rewrite Hrun. cbn [app orb].
  assert (Hids : forall j r, nth_error records j = Some r ->
                             id r = PyInt (Z.of_nat (S j))).
  { intros j r Hj.
    assert (Hlt : (j < List.length rows)%nat)
      by (rewrite <- Hlen; apply nth_error_Some; congruence).
    destruct (nth_error rows j) as [row|] eqn:Hrow;
      [|apply nth_error_None in Hrow; lia].
    destruct (Hnth j row Hrow) as [r' [tr (Hr' & _ & Hid & _)]].
    rewrite Hj in Hr'. injection Hr' as <-. exact Hid. }
  assert (Hrows : forall j row,
             nth_error rows j = Some row ->
             exists r tr,
               nth_error records j = Some r
               /\ append_lines "" (row_messages row) = Ok tr
               /\ conversation_id r = row_convo_id row
               /\ (same_conversation log row = false -> conversation r = tr)
               /\ (same_conversation log row = true ->
                   exists ls, append_lines "" (log_messages log) = Ok ls
                              /\ conversation r = tr ++ ls)).
  { intros j row Hrow.
    destruct (Hnth j row Hrow) as [r [tr (H1 & H2 & _ & H4 & H5 & H6)]].
    exists r, tr. repeat split; assumption. }
  destruct (existsb (same_conversation log) rows) eqn:Hex.
  - exists queries, records. split; [reflexivity|]. split; [assumption|].
    split; [congruence|]. split; [assumption|]. split; [assumption | discriminate].
  - destruct (log_messages log) as [|first others] eqn:Hmsgs; [congruence|].
    rewrite py_index_head.
    destruct (append_lines_readable "" _ Hread) as [tr Htr]. rewrite Htr.
    eexists _, _. split; [reflexivity|].
    split; [rewrite length_app, Hlen; cbn [List.length]; lia|].
    split; [rewrite !length_app, Hlen, Hlenq; reflexivity|].
    split; [|split].
    + intros j r Hj.
      destruct (Nat.lt_ge_cases j (List.length records)) as [Hlt|Hge].
      * rewrite nth_error_app1 in Hj by assumption. now apply Hids.
      * rewrite nth_error_app2 in Hj by assumption.
        destruct (j - List.length records)%nat as [|n] eqn:Hd.
        -- injection Hj as <-. cbn [id]. do 2 f_equal. lia.
        -- destruct n; discriminate.
    + intros j row Hrow. destruct (Hrows j row Hrow) as [r [tr' H]].
      exists r, tr'. destruct H as (H1 & H2 & H3 & H4 & H5).
      split; [rewrite nth_error_app1; [assumption|];
              apply nth_error_Some; congruence|].
      split; [assumption|]. split; [assumption|]. split; [assumption|].
      intros Hs. destruct (H5 Hs) as [ls [Hls Hconv]].
      exists ls. split; [congruence | assumption].
    + intros _. eexists _, tr.
      rewrite nth_error_app2 by lia. rewrite <- Hlen, Nat.sub_diag.
      cbn [nth_error conversation conversation_id]. repeat split.
Qed.

(** [create_nomic_map] on nineteen rows or more, every collaborator
    answering: one batch of embeddings, one call that creates the map from
    the assembled records, one index. *)
Lemma create_nomic_map_bulk (w : world) (course_name : string) (log : log_data)
    (rows : list history_row) (queries : list pycontent)
    (records : list indexed_record) (embeddings : list vector) (t : trace) :
  map_login w = None -> create_client w = None ->
  supabase_rows w = Ok rows ->
  (19 <= List.length rows)%nat ->
  assemble w course_name log rows = Ok (queries, records) ->
  embed_documents w queries = Ok embeddings ->
  map_embeddings w = None -> create_index w = None ->
  create_nomic_map w course_name log t
  = (Ok (Some ("Successfully created Nomic map for " ++ course_name)),
     (t ++ [ Call_create_nomic_map; Nomic_login; Embed_documents queries;
             Map_embeddings embeddings records;
             Create_index (course_name ++ "_convo_index") ])%list).
Proof.
  intros Hl Hc Hrows Hlen Hasm Hemb Hmap Hidx.
  unfold create_nomic_map. rewrite Hl, Hc. mrun.
  rewrite try_except_run, Hrows. mrun.
  replace (List.length rows <? 19)%nat with false
    by (symmetry; apply Nat.ltb_ge; assumption).
  mrun. rewrite Hasm. mrun. cbn [fst snd]. rewrite Hemb. mrun.
  rewrite Hmap. mrun. rewrite Hidx. mrun.
  unfold ret. rewrite <- !app_assoc. reflexivity.
Qed.

(** Fewer than nineteen rows: nothing is embedded and no map is created. *)
Lemma create_nomic_map_deferred (w : world) (course_name : string) (log : log_data)
    (rows : list history_row) (t : trace) :
  map_login w = None -> create_client w = None ->
  supabase_rows w = Ok rows ->
  (List.length rows < 19)%nat ->
  create_nomic_map w course_name log t
  = (Ok None, (t ++ [ Call_create_nomic_map; Nomic_login ])%list).
Proof.
  intros Hl Hc Hrows Hlen.
  unfold create_nomic_map. rewrite Hl, Hc. mrun.
  rewrite try_except_run, Hrows. mrun.
  replace (List.length rows <? 19)%nat with true
    by (symmetry; apply Nat.ltb_lt; assumption).
  unfold ret. rewrite <- !app_assoc. reflexivity.
Qed.

(** C8: with fewer than nineteen historical rows [create_nomic_map] returns
    [None] and neither embeds nor creates anything.  With nineteen rows (or
    more) it creates the map from one record per row, plus one record for the
    conversation being logged when it is not among the rows: nineteen
    records, or twenty.  The records are numbered 1, 2, ... in the order of
    the rows, and their transcripts are written by the loop that writes the
    transcript of an INSERT. *)
Theorem bootstrap_defers_or_builds
    (w : world) (course_name : string) (log : log_data) (rows : list history_row) :
  map_login w = None -> create_client w = None ->
  supabase_rows w = Ok rows ->
  ((List.length rows < 19)%nat ->
   forall t, create_nomic_map w course_name log t
             = (Ok None, (t ++ [ Call_create_nomic_map; Nomic_login ])%list))
  /\ ((19 <= List.length rows)%nat ->
      Forall (well_formed_row w) rows ->
      log_messages log <> [] ->
      Forall readable (log_messages log) ->
      (forall texts, exists embeddings, embed_documents w texts = Ok embeddings) ->
      map_embeddings w = None -> create_index w = None ->
      exists queries records embeddings,
        (forall t,
            create_nomic_map w course_name log t
            = (Ok (Some ("Successfully created Nomic map for " ++ course_name)),
               (t ++ [ Call_create_nomic_map; Nomic_login; Embed_documents queries;
                       Map_embeddings embeddings records;
                       Create_index (course_name ++ "_convo_index") ])%list))
        /\ List.length records
           = (if existsb (same_conversation log) rows then List.length rows
              else S (List.length rows))
        /\ (List.length rows = 19%nat ->
            List.length records
            = if existsb (same_conversation log) rows then 19%nat else 20%nat)
        /\ (forall j r, nth_error records j = Some r -> id r = PyInt (Z.of_nat (S j)))
        /\ (forall j row,
              nth_error rows j = Some row ->
              exists r tr,
                nth_error records j = Some r
                /\ append_lines "" (row_messages row) = Ok tr
                /\ conversation_id r = row_convo_id row
                /\ (same_conversation log row = false -> conversation r = tr))
        /\ (existsb (same_conversation log) rows = false ->
            exists r tr,
              nth_error records (List.length rows) = Some r
              /\ append_lines "" (log_messages log) = Ok tr
              /\ conversation r = tr
              /\ conversation_id r = log_conversation_id log)).
Proof.
  intros Hl Hc Hrows. split.
  - intros Hlen t. now apply create_nomic_map_deferred with (rows := rows).
  - intros Hlen Hwf Hne Hread Hemb Hmap Hidx.
    destruct (assemble_spec w course_name log rows Hwf Hne Hread)
      as [queries [records (Hasm & Hlenr & _ & Hids & Hnth & Hnew)]].
    destruct (Hemb queries) as [embeddings Hq].
    exists queries, records, embeddings.
    split; [intros t; now apply create_nomic_map_bulk with (rows := rows)|].
    split; [assumption|].
    split; [intros H19; now rewrite Hlenr, H19|].
    split; [assumption|]. split; [|assumption].
    intros j row Hrow. destruct (Hnth j row Hrow) as [r [tr (H1 & H2 & H3 & H4 & _)]].
    exists r, tr. repeat split; assumption.
Qed.

Lemma bootstrap_defers_or_builds_witness :
  let log := sample_conversation "conv-new" [follow_up; answer] in
  exists records,
    mapped_records
      (snd (create_nomic_map (bootstrap_world nineteen_rows) "cs101" log []))
    = records
    /\ List.length records = 20%nat.
Proof.
  cbv zeta.
  destruct (bootstrap_defers_or_builds
              (bootstrap_world nineteen_rows) "cs101"
              (sample_conversation "conv-new" [follow_up; answer]) nineteen_rows)
    as [_ H].
  - reflexivity.
  - reflexivity.
  - reflexivity.
  - destruct H as [queries [records [embeddings (Hrun & _ & H19 & _)]]].
    + vm_compute. lia.
    + unfold nineteen_rows. apply Forall_app. split.
      * apply Forall_forall. intros row Hin. apply repeat_spec in Hin as ->.
        split; [now exists "2024-01-02 08:00:00"|].
        split; [discriminate|]. repeat constructor. now exists "What is a heap?".
      * repeat constructor; try discriminate; eexists; reflexivity.
    + discriminate.
    + repeat constructor; eexists; reflexivity.
    + intros texts. eexists. reflexivity.
    + reflexivity.
    + reflexivity.
    + exists records. rewrite Hrun. cbn [snd]. split.
      * unfold mapped_records. simpl. now rewrite app_nil_r.
      * now rewrite (H19 eq_refl).
Defined.

(** C9, as the claim states it, fails: the conversation being logged is the
    nineteenth historical row and has three messages.  Its record in the new
    map holds the row's transcript followed by the lines of all three
    messages; the UPDATE path, on a point with the same transcript, appends
    the lines of the newest two only. *)
Lemma bootstrap_appends_every_message :
  let log := sample_conversation "conv-a" [question; answer; follow_up] in
  let records :=
    mapped_records
      (snd (create_nomic_map (bootstrap_world nineteen_rows) "cs101" log [])) in
  exists r all newest updated,
    nth_error records 18 = Some r
    /\ List.length records = 19%nat
    /\ append_lines "" (log_messages log) = Ok all
    /\ append_lines "" (py_last 2 (log_messages log)) = Ok newest
    /\ conversation r = first_transcript ++ all
    /\ added_records (snd (attempt (sample_world (Ok one_row)) "cs101" log)) = [updated]
    /\ conversation updated = first_transcript ++ newest
    /\ conversation r <> conversation updated.
Proof.
  cbv zeta. eexists. eexists. eexists. eexists.
  split; [vm_compute; reflexivity|]. split; [vm_compute; reflexivity|].
  split; [vm_compute; reflexivity|]. split; [vm_compute; reflexivity|].
  split; [vm_compute; reflexivity|]. split; [vm_compute; reflexivity|].
  split; [vm_compute; reflexivity|]. vm_compute. discriminate.
Qed.

(** C9, amended: when the conversation being logged is one of the historical
    rows, its record in the new map holds the transcript of the row followed
    by the lines of all messages of the conversation, which is what the
    UPDATE path appends only when the conversation has two messages at most.
    No record is added for it: the map gets one record per row, each with
    the conversation id of its row. *)
Theorem bootstrap_merges_whole_conversation
    (w : world) (course_name : string) (log : log_data) (rows : list history_row)
    (j : nat) (row : history_row) :
  map_login w = None -> create_client w = None ->
  supabase_rows w = Ok rows ->
  (19 <= List.length rows)%nat ->
  Forall (well_formed_row w) rows ->
  log_messages log <> [] ->
  Forall readable (log_messages log) ->
  (forall texts, exists embeddings, embed_documents w texts = Ok embeddings) ->
  map_embeddings w = None -> create_index w = None ->
  nth_error rows j = Some row ->
  same_conversation log row = true ->
  exists queries records embeddings r tr ls,
    (forall t,
        create_nomic_map w course_name log t
        = (Ok (Some ("Successfully created Nomic map for " ++ course_name)),
           (t ++ [ Call_create_nomic_map; Nomic_login; Embed_documents queries;
                   Map_embeddings embeddings records;
                   Create_index (course_name ++ "_convo_index") ])%list))
    /\ nth_error records j = Some r
    /\ append_lines "" (row_messages row) = Ok tr
    /\ append_lines "" (log_messages log) = Ok ls
    /\ conversation r = tr ++ ls
    /\ ((List.length (log_messages log) <= 2)%nat ->
        append_lines "" (py_last 2 (log_messages log)) = Ok ls)
    /\ List.length records = List.length rows
    /\ (forall j' r',
          nth_error records j' = Some r' ->
          exists row', nth_error rows j' = Some row'
                       /\ conversation_id r' = row_convo_id row').
Proof.
  intros Hl Hc Hrows Hlen Hwf Hne Hread Hemb Hmap Hidx Hrow Hsame.
  destruct (assemble_spec w course_name log rows Hwf Hne Hread)
    as [queries [records (Hasm & Hlenr & _ & _ & Hnth & _)]].
  destruct (Hemb queries) as [embeddings Hq].
  assert (Hex : existsb (same_conversation log) rows = true).
  { apply existsb_exists. exists row. split; [|assumption].
    eapply nth_error_In; eauto. }
  rewrite Hex in Hlenr.
  destruct (Hnth j row Hrow) as [r [tr (H1 & H2 & _ & _ & H5)]].
  destruct (H5 Hsame) as [ls [Hls Hconv]].
  exists queries, records, embeddings, r, tr, ls.
  split; [intros t; now apply create_nomic_map_bulk with (rows := rows)|].
  split; [assumption|]. split; [assumption|]. split; [assumption|].
  split; [assumption|].
  split; [intros Hshort; now rewrite py_last_short|].
  split; [assumption|].
  intros j' r' Hr'.
  assert (Hlt : (j' < List.length rows)%nat)
    by (rewrite <- Hlenr; apply nth_error_Some; congruence).
  destruct (nth_error rows j') as [row'|] eqn:Hrow';
    [|apply nth_error_None in Hrow'; lia].
  destruct (Hnth j' row' Hrow') as [r'' [tr' (H1' & _ & H3' & _)]].
  exists row'. split; [reflexivity|]. congruence.
Qed.

Lemma bootstrap_merges_whole_conversation_witness :
  let log := sample_conversation "conv-a" [follow_up] in
  exists r,
    nth_error
      (mapped_records
         (snd (create_nomic_map (bootstrap_world nineteen_rows) "cs101" log [])))
      18 = Some r
    /\ conversation r
       = first_transcript
         ++ newline ++ ">>> " ++ emoji_user
         ++ "user: Then: what is a treap?" ++ newline.
Proof.
  cbv zeta.
  destruct (bootstrap_merges_whole_conversation
              (bootstrap_world nineteen_rows) "cs101"
              (sample_conversation "conv-a" [follow_up]) nineteen_rows
              18 heap_row)
    as [queries [records [embeddings [r [tr [ls H]]]]]].
  - reflexivity.
  - reflexivity.
  - reflexivity.
  - vm_compute. lia.
  - unfold nineteen_rows. apply Forall_app. split.
    + apply Forall_forall. intros row Hin. apply repeat_spec in Hin as ->.
      split; [now exists "2024-01-02 08:00:00"|].
      split; [discriminate|]. repeat constructor. now exists "What is a heap?".
    + repeat constructor; try discriminate; eexists; reflexivity.
  - discriminate.
  - repeat constructor; eexists; reflexivity.
  - intros texts. eexists. reflexivity.
  - reflexivity.
  - reflexivity.
  - reflexivity.
  - reflexivity.
  - destruct H as (Hrun & Hr & Htr & Hls & Hconv & _).
    exists r. rewrite Hrun. cbn [snd]. split.
    + unfold mapped_records. simpl. rewrite app_nil_r. exact Hr.
    + rewrite Hconv. vm_compute in Htr. vm_compute in Hls.
      injection Htr as <-. injection Hls as <-. reflexivity.
Defined.

(* ===================================================================== *)
(** * Part III: further properties of the code                            *)
(* ===================================================================== *)

(** ** Transcripts *)

(** X1: the transcript of a list of messages followed by another is the
    transcript of the first followed by the transcript of the second; in
    particular messages given twice are written twice. *)
Theorem transcript_of_concatenation (ms1 ms2 : list message) (t1 t2 : string) :
  append_lines "" ms1 = Ok t1 ->
  append_lines "" ms2 = Ok t2 ->
  append_lines "" (ms1 ++ ms2)%list = Ok (t1 ++ t2)
  /\ append_lines "" (ms1 ++ ms2 ++ ms2)%list = Ok (t1 ++ t2 ++ t2).
Proof.
  intros H1 H2.
  assert (H22 : append_lines "" (ms2 ++ ms2)%list = Ok (t2 ++ t2)).
  { rewrite append_lines_app, H2, append_lines_acc, H2. reflexivity. }
  split.
  - rewrite append_lines_app, H1, append_lines_acc, H2. reflexivity.
  - rewrite append_lines_app, H1, append_lines_acc, H22. reflexivity.
Qed.

Lemma transcript_of_concatenation_witness :
  append_lines "" [question; answer; follow_up]
  = Ok (first_transcript
        ++ newline ++ ">>> " ++ emoji_user ++ "user: Then: what is a treap?" ++ newline).
Proof.
  destruct (transcript_of_concatenation [question; answer] [follow_up]
              first_transcript
              (newline ++ ">>> " ++ emoji_user ++ "user: Then: what is a treap?" ++ newline))
    as [H _].
  - reflexivity.
  - reflexivity.
  - exact H.
Defined.

Lemma line_raises (m : message) (e : pyexn) :
  line m = Raise e -> message_text m = Raise e.
Proof. unfold line. destruct (message_text m); [discriminate | congruence]. Qed.

(** The exception of a transcript that cannot be written is the one raised
    on the content of some message. *)
Lemma append_lines_error (acc : string) (ms : list message) (e : pyexn) :
  append_lines acc ms = Raise e ->
  exists m, In m ms /\ message_text m = Raise e
            /\ (e = IndexError \/ e = KeyError_text).
Proof.
  revert acc; induction ms as [|m ms IH]; intros acc H; [discriminate|].
  cbn [append_lines] in H. destruct (line m) as [l|e'] eqn:Hl.
  - destruct (IH _ H) as [m' (Hin & Hm' & He)].
    exists m'. split; [now right | now split].
  - injection H as <-. apply line_raises in Hl.
    exists m. split; [now left|]. split; [assumption|].
    unfold message_text in Hl. destruct (content m) as [s|[|p ps]];
      [discriminate | left; congruence |].
    destruct (text p); [discriminate | right; congruence].
Qed.





(** ** The first query, read back *)

(** Line 105 reads back the first query of a transcript written by line 159
    when neither the role nor the query holds a separator. *)
Lemma parse_first_message_exact (m : message) (q more : string) :
  mem_char (ascii_of_nat 10) (role m) = false ->
  mem_char ":" (role m) = false ->
  mem_char (ascii_of_nat 10) q = false ->
  ~ contains ": " q ->
  parse_first_message
    (newline ++ ">>> " ++ emoji m ++ role m ++ ": " ++ q ++ newline ++ more)
  = Ok q.
Proof.
  intros Hnl Hcolon Hqnl Hq. unfold parse_first_message.
  pose (head := ">>> " ++ emoji m ++ role m).
  pose (second := head ++ ": " ++ q).
  assert (Hs : newline ++ ">>> " ++ emoji m ++ role m ++ ": " ++ q ++ newline ++ more
               = newline ++ second ++ newline ++ more).
  { unfold second, head. now rewrite !append_assoc. }
  rewrite Hs. clear Hs.
  assert (Hhead_nl : mem_char (ascii_of_nat 10) head = false).
  { unfold head. rewrite !mem_char_append, Hnl.
    unfold emoji. now destruct (role m =? "user")%string. }
  assert (Hhead_colon : mem_char ":" head = false).
  { unfold head. rewrite !mem_char_append, Hcolon.
    unfold emoji. now destruct (role m =? "user")%string. }
  assert (Hsecond : mem_char (ascii_of_nat 10) second = false).
  { unfold second. now rewrite !mem_char_append, Hhead_nl, Hqnl. }
  assert (Hcut : partition newline (second ++ newline ++ more) = Some (second, more)).
  { unfold newline at 1. rewrite (partition_char_skip _ _ _ Hsecond).
    fold newline. rewrite partition_unfold.
    replace (prefix newline (newline ++ more)) with true
      by (symmetry; apply prefix_true_iff; now exists more).
    cbn [String.length newline drop append]. now rewrite append_empty_r. }
  assert (Hsplit : split newline (newline ++ second ++ newline ++ more)
                   = "" :: split_fuel (String.length (second ++ newline ++ more))
                             newline (second ++ newline ++ more)) by reflexivity.
  rewrite Hsplit. clear Hsplit.
  assert (Hline : exists tl,
             split_fuel (String.length (second ++ newline ++ more)) newline
               (second ++ newline ++ more) = second :: tl).
  { destruct (String.length (second ++ newline ++ more));
      cbn [split_fuel]; rewrite Hcut; eauto. }
  destruct Hline as [tl ->]. rewrite py_index_second.
  assert (Hpieces : split ": " second = [head; q]).
  { unfold split, second.
    assert (Hhead : ~ contains ": " head)
      by (apply (mem_char_free ":"); [reflexivity | assumption]).
    destruct (String.length (head ++ ": " ++ q)) as [|n] eqn:Hn.
    - rewrite !length_append in Hn. simpl in Hn. lia.
    - cbn [split_fuel]. rewrite (partition_colon_skip _ _ Hhead).
      destruct n; cbn [split_fuel]; now rewrite (partition_free _ _ Hq). }
  rewrite Hpieces. apply py_index_second.
Qed.

(** X3: an UPDATE stores the first query unchanged when the stored
    transcript was written for a conversation whose first query holds neither
    [": "] nor a line break (and whose first role holds neither a colon nor a
    line break): what line 105 cuts out of the transcript is that query. *)
Theorem update_keeps_plain_first_query
    (w : world) (course_name : string) (conv : log_data) (snap : snapshot)
    (ids : list Z) (prev_index : Z) (prev : indexed_record) (v : vector)
    (created : string) (m : message) (ms : list message) (q tr0 more : string)
    (t : trace) :
  quiet w ->
  atlas_project w = Ok snap ->
  astype_int (map_metadata_df snap) = Ok ids ->
  located snap conv prev_index prev ->
  py_index (map_embeddings_df snap) (prev_index - 1) = Ok v ->
  List.length v = 1536%nat ->
  to_datetime_strftime w (created_at prev) = Ok created ->
  Forall readable (py_last 2 (log_messages conv)) ->
  message_text m = Ok q ->
  mem_char (ascii_of_nat 10) (role m) = false ->
  mem_char ":" (role m) = false ->
  mem_char (ascii_of_nat 10) q = false ->
  ~ contains ": " q ->
  append_lines "" (m :: ms) = Ok tr0 ->
  conversation prev = tr0 ++ more ->
  exists prev_id r,
    parse_first_message (conversation prev) = Ok q
    /\ log_convo_to_nomic_body w course_name conv t
       = (Ok (success course_name),
          (t ++ [ Call_log_convo_to_nomic; Nomic_login; Delete_data [prev_id];
                  Add_embeddings [v] [r]; Rebuild_maps ])%list)
    /\ first_query r = Text q.
Proof.
  intros Hq Hsnap Hids Hloc Hv Hlen Hcreated Hread Hm Hnl Hcolon Hqnl Hqsep
    Htr0 Hprev.
  destruct (located_In _ _ _ _ Hloc) as [Hin Hcid].
  destruct (astype_int_In _ _ _ _ Hids Hin) as [prev_id [Hid Hidin]].
  destruct (append_lines_readable "" _ Hread) as [ls Hls].
  destruct (append_lines_first m ms q tr0 Hm Htr0) as [rest Hrest].
  assert (Hshape : conversation prev
                   = newline ++ ">>> " ++ emoji m ++ role m ++ ": " ++ q
                     ++ newline ++ rest ++ more).
  { rewrite Hprev, Hrest. now rewrite !append_assoc. }
  assert (Hfm : parse_first_message (conversation prev) = Ok q).
  { rewrite Hshape. now apply parse_first_message_exact. }
  exists prev_id. eexists. split; [exact Hfm|]. split.
  - eapply update_attempt; eauto.
  - reflexivity.
Qed.

Lemma update_keeps_plain_first_query_witness :
  let conv := sample_conversation "conv-a" [question; answer; follow_up] in
  exists r,
    added_records (snd (attempt (sample_world (Ok one_row)) "cs101" conv)) = [r]
    /\ first_query r = first_query (sample_record 7 "conv-a").
Proof.
  cbv zeta.
  destruct (update_keeps_plain_first_query
              (sample_world (Ok one_row)) "cs101"
              (sample_conversation "conv-a" [question; answer; follow_up])
              one_row [7%Z] 0 (sample_record 7 "conv-a") zeros
              "2024-01-05 10:00:00" question [answer] "What is a heap?"
              first_transcript "" [])
    as [prev_id [r (_ & Hrun & Hfq)]].
  - repeat split; reflexivity.
  - reflexivity.
  - reflexivity.
  - exists []. reflexivity.
  - vm_compute. reflexivity.
  - vm_compute. reflexivity.
  - reflexivity.
  - repeat constructor; eexists; reflexivity.
  - reflexivity.
  - reflexivity.
  - reflexivity.
  - reflexivity.
  - apply (mem_char_free ":"); reflexivity.
  - reflexivity.
  - reflexivity.
  - exists r. unfold attempt. rewrite Hrun. split; [reflexivity | exact Hfq].
Defined.

(** ** Calls that fail *)

Lemma lock_message_is_not_unique_id (s : string) :
  In s LOCK_EXCEPTIONS -> (s =? unique_id_field_message)%string = false.
Proof. intros [<-|[<-|[<-|[]]]]; reflexivity. Qed.

(** An INSERT that cannot read the first message. *)
Lemma insert_fails_on_first_message (w : world) (course_name : string)
    (conv : log_data) (snap : snapshot) (ids : list Z) (e : pyexn) (t : trace) :
  login w = None ->
  atlas_project w = Ok snap ->
  astype_int (map_metadata_df snap) = Ok ids ->
  in_values (log_conversation_id conv) (map_metadata_df snap) = false ->
  first_message_text (log_messages conv) = Raise e ->
  (str e =? unique_id_field_message)%string = false ->
  log_convo_to_nomic_body w course_name conv t
  = (Raise (Exception_dict (str e)),
     (t ++ [Call_log_convo_to_nomic; Nomic_login])%list).
Proof.
  intros Hlogin Hsnap Hids Hin Hfm He.
  unfold log_convo_to_nomic_body. rewrite Hlogin. mrun.
  rewrite try_except_run. rewrite Hsnap. mrun. rewrite Hids. mrun.
  rewrite Hin. unfold insert_point. rewrite Hfm. mrun.
  rewrite He. unfold raise. rewrite <- !app_assoc. reflexivity.
Qed.

(** One round of the loop on a call that fails for good. *)
Lemma retry_permanent (worlds : nat -> world) (course_name : string)
    (conv : log_data) (fuel tries : nat) (t tr : trace) (e_str : string) :
  attempt (worlds (S tries)) course_name conv = (Raise (Exception_dict e_str), tr) ->
  ~ In e_str LOCK_EXCEPTIONS ->
  retry (S fuel) worlds tries course_name conv t
  = Some (Ok None, (t ++ tr ++ [Capture_exception (Exception_dict e_str)])%list).
Proof.
  intros Ha Hperm. rewrite retry_step. cbv zeta. rewrite Ha. cbn [fst snd].
  rewrite (giveup_hdlr_permanent _ _ Hperm). cbn [orb].
  now rewrite <- app_assoc.
Qed.

(** X4: a conversation that has no point yet and no message is not logged.
    Reading its first message raises [IndexError]; the failure is permanent:
    one call, one report to Sentry, [None] for the caller, and neither an
    embedding is requested nor a record added. *)
Theorem empty_new_conversation_is_not_logged
    (worlds : nat -> world) (course_name : string) (conv : log_data)
    (snap : snapshot) (ids : list Z) :
  login (worlds 1%nat) = None ->
  atlas_project (worlds 1%nat) = Ok snap ->
  astype_int (map_metadata_df snap) = Ok ids ->
  in_values (log_conversation_id conv) (map_metadata_df snap) = false ->
  log_messages conv = [] ->
  log_convo_to_nomic worlds course_name conv
  = Some (Ok None,
          [ Call_log_convo_to_nomic; Nomic_login;
            Capture_exception (Exception_dict "list index out of range") ]).
Proof.
  intros Hlogin Hsnap Hids Hin Hnil.
  unfold log_convo_to_nomic. change max_tries with 5%nat.
  rewrite (retry_permanent worlds course_name conv 4 0 []
             [Call_log_convo_to_nomic; Nomic_login] "list index out of range").
  - reflexivity.
  - unfold attempt.
    rewrite (insert_fails_on_first_message _ _ _ snap ids IndexError);
      try assumption; try reflexivity.
    unfold first_message_text. now rewrite Hnil, py_index_nil.
  - intros [H|[H|[H|[]]]]; discriminate.
Qed.

Lemma empty_new_conversation_is_not_logged_witness :
  snd (attempt (sample_world (Ok one_row)) "cs101" (sample_conversation "conv-z" []))
  = [Call_log_convo_to_nomic; Nomic_login]
  /\ log_convo_to_nomic (fun _ => sample_world (Ok one_row)) "cs101"
       (sample_conversation "conv-z" [])
     = Some (Ok None,
             [ Call_log_convo_to_nomic; Nomic_login;
               Capture_exception (Exception_dict "list index out of range") ]).
Proof.
  split; [reflexivity|].
  apply (empty_new_conversation_is_not_logged
           (fun _ => sample_world (Ok one_row)) "cs101"
           (sample_conversation "conv-z" []) one_row [7%Z]); reflexivity.
Defined.

(** An UPDATE that finds no row. *)
Lemma update_fails_without_row (w : world) (course_name : string)
    (conv : log_data) (snap : snapshot) (ids : list Z) (t : trace) :
  login w = None ->
  atlas_project w = Ok snap ->
  astype_int (map_metadata_df snap) = Ok ids ->
  in_values (log_conversation_id conv) (map_metadata_df snap) = true ->
  select_conversation (log_conversation_id conv) (map_metadata_df snap) = [] ->
  log_convo_to_nomic_body w course_name conv t
  = (Raise (Exception_dict (str IndexError)),
     (t ++ [Call_log_convo_to_nomic; Nomic_login])%list).
Proof.
  intros Hlogin Hsnap Hids Hin Hsel.
  unfold log_convo_to_nomic_body. rewrite Hlogin. mrun.
  rewrite try_except_run. rewrite Hsnap. mrun. rewrite Hids. mrun.
  rewrite Hin. unfold update_point. rewrite Hsel.
  change (map fst (@nil (Z * indexed_record))) with (@nil Z).
  rewrite py_index_nil. mrun.
  replace (str IndexError =? unique_id_field_message)%string with false by reflexivity.
  unfold raise. rewrite <- !app_assoc. reflexivity.
Qed.

(** X5: line 92 looks for the conversation id in every cell of the data
    frame, line 94 in the column [conversation_id] only.  A conversation
    whose id is the text of another cell (a user's email, a course name, a
    whole transcript) and of no [conversation_id] is taken for an UPDATE,
    finds no row, and fails for good: one call, one report, [None], and
    nothing deleted, embedded or added. *)
Theorem id_found_in_another_column
    (worlds : nat -> world) (course_name : string) (conv : log_data)
    (snap : snapshot) (ids : list Z) (i : Z) (row : indexed_record) :
  login (worlds 1%nat) = None ->
  atlas_project (worlds 1%nat) = Ok snap ->
  astype_int (map_metadata_df snap) = Ok ids ->
  In (i, row) (map_metadata_df snap) ->
  (user_email row = log_conversation_id conv
   \/ course row = log_conversation_id conv
   \/ conversation row = log_conversation_id conv
   \/ first_query row = Text (log_conversation_id conv)) ->
  (forall j r, In (j, r) (map_metadata_df snap) ->
               conversation_id r <> log_conversation_id conv) ->
  exists e_str,
    log_convo_to_nomic worlds course_name conv
    = Some (Ok None,
            [ Call_log_convo_to_nomic; Nomic_login;
              Capture_exception (Exception_dict e_str) ])
    /\ ~ In e_str LOCK_EXCEPTIONS
    /\ e_str <> unique_id_field_message.
Proof.
  intros Hlogin Hsnap Hids Hrow Hcell Hnone.
  assert (Hin : in_values (log_conversation_id conv) (map_metadata_df snap) = true).
  { unfold in_values. apply existsb_exists. exists (i, row).
    split; [assumption|]. unfold row_has_value. cbn [snd].
    destruct Hcell as [H|[H|[H|H]]]; rewrite H; cbn [cell_is];
      rewrite String.eqb_refl; now rewrite ?orb_true_r. }
  assert (Hsel : select_conversation (log_conversation_id conv) (map_metadata_df snap) = []).
  { unfold select_conversation.
    destruct (filter _ (map_metadata_df snap)) as [|[j r] rest] eqn:Hf; [reflexivity|].
    assert (Hjr : In (j, r) (filter
                     (fun r0 => (conversation_id (snd r0) =? log_conversation_id conv)%string)
                     (map_metadata_df snap))) by (rewrite Hf; now left).
    apply filter_In in Hjr as [Hjr Heq]. apply String.eqb_eq in Heq.
    now apply Hnone in Hjr. }
  exists (str IndexError). split; [|split].
  - unfold log_convo_to_nomic. change max_tries with 5%nat.
    rewrite (retry_permanent worlds course_name conv 4 0 []
               [Call_log_convo_to_nomic; Nomic_login] (str IndexError)).
    + reflexivity.
    + unfold attempt. now rewrite (update_fails_without_row _ _ _ snap ids).
    + intros [H|[H|[H|[]]]]; discriminate.
  - intros [H|[H|[H|[]]]]; discriminate.
  - discriminate.
Qed.

Lemma id_found_in_another_column_witness :
  exists e_str,
    log_convo_to_nomic (fun _ => sample_world (Ok one_row)) "cs101"
      (sample_conversation "student@example.edu" [question; answer])
    = Some (Ok None,
            [ Call_log_convo_to_nomic; Nomic_login;
              Capture_exception (Exception_dict e_str) ]).
Proof.
  destruct (id_found_in_another_column
              (fun _ => sample_world (Ok one_row)) "cs101"
              (sample_conversation "student@example.edu" [question; answer])
              one_row [7%Z] 0 (sample_record 7 "conv-a"))
    as [e_str [H _]].
  - reflexivity.
  - reflexivity.
  - reflexivity.
  - now left.
  - left. reflexivity.
  - intros j r [[= <- <-]|[]]. discriminate.
  - exists e_str. exact H.
Defined.

(** ** Calls interrupted by the lock *)

(** An UPDATE whose wait for the lock (line 181) raises. *)
Lemma update_interrupted_attempt (w : world) (course_name : string) (conv : log_data)
    (snap : snapshot) (ids : list Z) (prev_index : Z) (prev : indexed_record)
    (v : vector) (prev_id : Z) (created fm ls : string) (e : pyexn) (t : trace) :
  login w = None -> delete_data w = None ->
  atlas_project w = Ok snap ->
  astype_int (map_metadata_df snap) = Ok ids ->
  located snap conv prev_index prev ->
  py_index (map_embeddings_df snap) (prev_index - 1) = Ok v ->
  List.length v = 1536%nat ->
  id prev = PyInt prev_id ->
  to_datetime_strftime w (created_at prev) = Ok created ->
  parse_first_message (conversation prev) = Ok fm ->
  append_lines "" (py_last 2 (log_messages conv)) = Ok ls ->
  project_lock w = Some e ->
  (str e =? unique_id_field_message)%string = false ->
  log_convo_to_nomic_body w course_name conv t
  = (Raise (Exception_dict (str e)),
     (t ++ [ Call_log_convo_to_nomic; Nomic_login; Delete_data [prev_id] ])%list).
Proof.
  intros Hlogin Hdel Hsnap Hids Hloc Hv Hlen Hid Hcreated Hfm Hls Hlock He.
  pose proof (located_in_values _ _ _ _ Hloc) as Hin.
  destruct Hloc as [rest Hsel].
  unfold log_convo_to_nomic_body. rewrite Hlogin. mrun.
  rewrite try_except_run. rewrite Hsnap. mrun. rewrite Hids. mrun.
  rewrite Hin. unfold update_point. rewrite Hsel.
  change (map fst ((prev_index, prev) :: rest)) with (prev_index :: map fst rest).
  change (map snd ((prev_index, prev) :: rest)) with (prev :: map snd rest).
  rewrite !py_index_head. mrun. rewrite Hv. mrun.
  rewrite (reshape_ok v Hlen). mrun.
  unfold int_id. rewrite Hid. mrun. rewrite Hcreated. mrun.
  rewrite Hdel. mrun. rewrite Hfm. mrun.
  rewrite append_lines_acc, Hls. mrun.
  rewrite Hlock. mrun. rewrite He.
  unfold raise. rewrite <- !app_assoc. reflexivity.
Qed.

(** An INSERT whose wait for the lock raises. *)
Lemma insert_interrupted_attempt (w : world) (course_name : string) (conv : log_data)
    (snap : snapshot) (ids : list Z) (fm tr : string) (embeddings : list vector)
    (e : pyexn) (t : trace) :
  login w = None ->
  atlas_project w = Ok snap ->
  astype_int (map_metadata_df snap) = Ok ids ->
  in_values (log_conversation_id conv) (map_metadata_df snap) = false ->
  first_message_text (log_messages conv) = Ok fm ->
  append_lines "" (log_messages conv) = Ok tr ->
  embed_documents w [Text fm] = Ok embeddings ->
  project_lock w = Some e ->
  (str e =? unique_id_field_message)%string = false ->
  log_convo_to_nomic_body w course_name conv t
  = (Raise (Exception_dict (str e)),
     (t ++ [ Call_log_convo_to_nomic; Nomic_login; Embed_documents [Text fm] ])%list).
Proof.
  intros Hlogin Hsnap Hids Hin Hfm Htr Hemb Hlock He.
  unfold log_convo_to_nomic_body. rewrite Hlogin. mrun.
  rewrite try_except_run. rewrite Hsnap. mrun. rewrite Hids. mrun.
  rewrite Hin. unfold insert_point. rewrite Hfm. mrun. rewrite Htr. mrun.
  rewrite Hemb. mrun. rewrite Hlock. mrun. rewrite He.
  unfold raise. rewrite <- !app_assoc. reflexivity.
Qed.

(** A first call that fails with a lock message and a second that returns. *)
Lemma retry_once_then_return (worlds : nat -> world) (course_name : string)
    (conv : log_data) (e_str : string) (tr1 tr2 : trace) (r : option string) :
  attempt (worlds 1%nat) course_name conv = (Raise (Exception_dict e_str), tr1) ->
  In e_str LOCK_EXCEPTIONS ->
  attempt (worlds 2%nat) course_name conv = (Ok r, tr2) ->
  log_convo_to_nomic worlds course_name conv
  = Some (Ok r, (tr1 ++ Sleep (backoff_sleep worlds 1) :: tr2)%list).
Proof.
  intros H1 Hlock H2. unfold log_convo_to_nomic. change max_tries with 5%nat.
  rewrite retry_step. cbv zeta. rewrite H1. cbn [fst snd app].
  rewrite (giveup_hdlr_lock _ _ Hlock). cbn [orb].
  change (1 =? max_tries)%nat with false. cbv iota.
  rewrite retry_step. cbv zeta. rewrite H2. cbn [fst snd].
  unfold backoff_sleep. now rewrite <- app_assoc.
Qed.

(** X6: the update is a delete followed by an add, and the delete is not
    undone.  When the wait for the project lock raises after the prior point
    was deleted, the call ends with that point deleted and none added. *)
Theorem interrupted_update_leaves_point_deleted
    (w : world) (course_name : string) (conv : log_data) (snap : snapshot)
    (ids : list Z) (prev_index : Z) (prev : indexed_record) (v : vector)
    (created fm ls : string) (e : pyexn) :
  login w = None -> delete_data w = None ->
  atlas_project w = Ok snap ->
  astype_int (map_metadata_df snap) = Ok ids ->
  located snap conv prev_index prev ->
  py_index (map_embeddings_df snap) (prev_index - 1) = Ok v ->
  List.length v = 1536%nat ->
  to_datetime_strftime w (created_at prev) = Ok created ->
  parse_first_message (conversation prev) = Ok fm ->
  append_lines "" (py_last 2 (log_messages conv)) = Ok ls ->
  project_lock w = Some e ->
  str e <> unique_id_field_message ->
  exists prev_id,
    id prev = PyInt prev_id
    /\ attempt w course_name conv
       = (Raise (Exception_dict (str e)),
          [ Call_log_convo_to_nomic; Nomic_login; Delete_data [prev_id] ])
    /\ count is_delete (snd (attempt w course_name conv)) = 1%nat
    /\ count is_add (snd (attempt w course_name conv)) = 0%nat.
Proof.
  intros Hlogin Hdel Hsnap Hids Hloc Hv Hlen Hcreated Hfm Hls Hlock He.
  destruct (located_In _ _ _ _ Hloc) as [Hin Hcid].
  destruct (astype_int_In _ _ _ _ Hids Hin) as [prev_id [Hid Hidin]].
  exists prev_id. split; [assumption|].
  assert (Hrun : attempt w course_name conv
                 = (Raise (Exception_dict (str e)),
                    [ Call_log_convo_to_nomic; Nomic_login; Delete_data [prev_id] ])).
  { assert (Heqb : (str e =? unique_id_field_message)%string = false)
      by now apply String.eqb_neq.
    unfold attempt. erewrite update_interrupted_attempt; eauto. reflexivity. }
  rewrite Hrun. repeat split.
Qed.

Lemma interrupted_update_leaves_point_deleted_witness :
  attempt (world_with_lock (Ok one_row) (Some (Exception_msg lock_message))) "cs101"
    (sample_conversation "conv-a" [question; answer; follow_up])
  = (Raise (Exception_dict lock_message),
     [ Call_log_convo_to_nomic; Nomic_login; Delete_data [7%Z] ]).
Proof.
  destruct (interrupted_update_leaves_point_deleted
              (world_with_lock (Ok one_row) (Some (Exception_msg lock_message)))
              "cs101" (sample_conversation "conv-a" [question; answer; follow_up])
              one_row [7%Z] 0 (sample_record 7 "conv-a") zeros
              "2024-01-05 10:00:00" "What is a heap?"
              (newline ++ ">>> " ++ emoji_other
               ++ "assistant: A tree-shaped priority queue." ++ newline
               ++ newline ++ ">>> " ++ emoji_user
               ++ "user: Then: what is a treap?" ++ newline)
              (Exception_msg lock_message))
    as [prev_id (Hid & Hrun & _)].
  - reflexivity.
  - reflexivity.
  - reflexivity.
  - reflexivity.
  - exists []. reflexivity.
  - vm_compute. reflexivity.
  - vm_compute. reflexivity.
  - reflexivity.
  - vm_compute. reflexivity.
  - vm_compute. reflexivity.
  - reflexivity.
  - discriminate.
  - injection Hid as <-. exact Hrun.
Defined.

(** X7: an UPDATE interrupted by a lock message after its delete is called
    again; when the map then no longer holds the conversation, the second
    call is an INSERT.  The record written has the time of the second call as
    [created_at], not the one of the deleted point, its transcript is written
    from the messages of the call, not from the stored transcript, and a new
    embedding is requested. *)
Theorem interrupted_update_is_retried_as_insert
    (worlds : nat -> world) (course_name : string) (conv : log_data)
    (snap snap' : snapshot) (ids ids' : list Z) (prev_index : Z)
    (prev : indexed_record) (v : vector) (created fm ls fm' tr' : string)
    (embeddings : list vector) (e : pyexn) :
  login (worlds 1%nat) = None -> delete_data (worlds 1%nat) = None ->
  atlas_project (worlds 1%nat) = Ok snap ->
  astype_int (map_metadata_df snap) = Ok ids ->
  located snap conv prev_index prev ->
  py_index (map_embeddings_df snap) (prev_index - 1) = Ok v ->
  List.length v = 1536%nat ->
  to_datetime_strftime (worlds 1%nat) (created_at prev) = Ok created ->
  parse_first_message (conversation prev) = Ok fm ->
  append_lines "" (py_last 2 (log_messages conv)) = Ok ls ->
  project_lock (worlds 1%nat) = Some e ->
  In (str e) LOCK_EXCEPTIONS ->
  quiet (worlds 2%nat) ->
  atlas_project (worlds 2%nat) = Ok snap' ->
  astype_int (map_metadata_df snap') = Ok ids' ->
  in_values (log_conversation_id conv) (map_metadata_df snap') = false ->
  first_message_text (log_messages conv) = Ok fm' ->
  append_lines "" (log_messages conv) = Ok tr' ->
  embed_documents (worlds 2%nat) [Text fm'] = Ok embeddings ->
  exists prev_id r,
    id prev = PyInt prev_id
    /\ log_convo_to_nomic worlds course_name conv
       = Some (Ok (success course_name),
               [ Call_log_convo_to_nomic; Nomic_login; Delete_data [prev_id];
                 Sleep (backoff_sleep worlds 1);
                 Call_log_convo_to_nomic; Nomic_login; Embed_documents [Text fm'];
                 Add_embeddings embeddings [r]; Rebuild_maps ])
    /\ created_at r = now (worlds 2%nat) 0
    /\ conversation r = tr'
    /\ first_query r = Text fm'.
Proof.
  intros Hlogin Hdel Hsnap Hids Hloc Hv Hlen Hcreated Hfm Hls Hlock Hin
    Hq Hsnap' Hids' Hnew Hfm' Htr' Hemb.
  destruct (located_In _ _ _ _ Hloc) as [Hrow Hcid].
  destruct (astype_int_In _ _ _ _ Hids Hrow) as [prev_id [Hid Hidin]].
  pose proof (lock_message_is_not_unique_id _ Hin) as Heqb.
  pose proof (update_interrupted_attempt _ course_name _ _ _ _ _ _ _ _ _ _ _ []
                Hlogin Hdel Hsnap Hids Hloc Hv Hlen Hid Hcreated Hfm Hls Hlock Heqb)
    as H1.
  pose proof (insert_attempt _ course_name _ _ _ _ _ _ []
                Hq Hsnap' Hids' Hnew Hfm' Htr' Hemb) as H2.
  exists prev_id. eexists. split; [assumption|]. split.
  - rewrite (retry_once_then_return _ _ _ _ _ _ _ H1 Hin H2). reflexivity.
  - repeat split.
Qed.

Lemma interrupted_update_is_retried_as_insert_witness :
  let worlds := fun n => if (n =? 1)%nat
                         then world_with_lock (Ok one_row)
                                (Some (Exception_msg lock_message))
                         else sample_world (Ok empty_map) in
  exists r,
    added_records
      (match log_convo_to_nomic worlds "cs101"
               (sample_conversation "conv-a" [question; answer; follow_up]) with
       | Some (_, t) => t
       | None => []
       end) = [r]
    /\ created_at r = "2024-02-01 09:30:00"
    /\ created_at (sample_record 7 "conv-a") = "2024-01-05 10:00:00".
Proof.
  cbv zeta.
  destruct (interrupted_update_is_retried_as_insert
              (fun n => if (n =? 1)%nat
                        then world_with_lock (Ok one_row)
                               (Some (Exception_msg lock_message))
                        else sample_world (Ok empty_map))
              "cs101" (sample_conversation "conv-a" [question; answer; follow_up])
              one_row empty_map [7%Z] [] 0 (sample_record 7 "conv-a") zeros
              "2024-01-05 10:00:00" "What is a heap?"
              (newline ++ ">>> " ++ emoji_other
               ++ "assistant: A tree-shaped priority queue." ++ newline
               ++ newline ++ ">>> " ++ emoji_user
               ++ "user: Then: what is a treap?" ++ newline)
              "What is a heap?"
              (first_transcript ++ newline ++ ">>> " ++ emoji_user
               ++ "user: Then: what is a treap?" ++ newline)
              [ones] (Exception_msg lock_message))
    as [prev_id [r (_ & Hrun & Hc & _)]].
  - reflexivity.
  - reflexivity.
  - reflexivity.
  - reflexivity.
  - exists []. reflexivity.
  - vm_compute. reflexivity.
  - vm_compute. reflexivity.
  - reflexivity.
  - vm_compute. reflexivity.
  - vm_compute. reflexivity.
  - reflexivity.
  - right. now left.
  - repeat split; reflexivity.
  - reflexivity.
  - reflexivity.
  - reflexivity.
  - reflexivity.
  - reflexivity.
  - reflexivity.
  - exists r. rewrite Hrun. split; [reflexivity|]. split; [exact Hc | reflexivity].
Defined.

(** X8: an INSERT interrupted by a lock message is made again from the
    start: the embedding of the first query is requested once per call, so
    twice when the second call succeeds. *)
Theorem retried_insert_requests_embedding_again
    (worlds : nat -> world) (course_name : string) (conv : log_data)
    (snap snap' : snapshot) (ids ids' : list Z) (fm tr : string)
    (embeddings embeddings' : list vector) (e : pyexn) :
  login (worlds 1%nat) = None ->
  atlas_project (worlds 1%nat) = Ok snap ->
  astype_int (map_metadata_df snap) = Ok ids ->
  in_values (log_conversation_id conv) (map_metadata_df snap) = false ->
  first_message_text (log_messages conv) = Ok fm ->
  append_lines "" (log_messages conv) = Ok tr ->
  embed_documents (worlds 1%nat) [Text fm] = Ok embeddings ->
  project_lock (worlds 1%nat) = Some e ->
  In (str e) LOCK_EXCEPTIONS ->
  quiet (worlds 2%nat) ->
  atlas_project (worlds 2%nat) = Ok snap' ->
  astype_int (map_metadata_df snap') = Ok ids' ->
  in_values (log_conversation_id conv) (map_metadata_df snap') = false ->
  embed_documents (worlds 2%nat) [Text fm] = Ok embeddings' ->
  exists t,
    log_convo_to_nomic worlds course_name conv = Some (Ok (success course_name), t)
    /\ filter is_embed t = [Embed_documents [Text fm]; Embed_documents [Text fm]]
    /\ count is_add t = 1%nat
    /\ added_embeddings t = embeddings'.
Proof.
  intros Hlogin Hsnap Hids Hin Hfm Htr Hemb Hlock He Hq Hsnap' Hids' Hin' Hemb'.
  pose proof (lock_message_is_not_unique_id _ He) as Heqb.
  pose proof (insert_interrupted_attempt _ course_name _ _ _ _ _ _ _ []
                Hlogin Hsnap Hids Hin Hfm Htr Hemb Hlock Heqb) as H1.
  pose proof (insert_attempt _ course_name _ _ _ _ _ _ []
                Hq Hsnap' Hids' Hin' Hfm Htr Hemb') as H2.
  eexists. split.
  - rewrite (retry_once_then_return _ _ _ _ _ _ _ H1 He H2). reflexivity.
  - cbn. rewrite app_nil_r. repeat split.
Qed.

Lemma retried_insert_requests_embedding_again_witness :
  let worlds := fun n => if (n =? 1)%nat
                         then world_with_lock (Ok one_row)
                                (Some (Exception_msg lock_message))
                         else sample_world (Ok one_row) in
  exists t,
    log_convo_to_nomic worlds "cs101" (sample_conversation "conv-n" [question; answer])
    = Some (Ok (success "cs101"), t)
    /\ count is_embed t = 2%nat.
Proof.
  cbv zeta.
  destruct (retried_insert_requests_embedding_again
              (fun n => if (n =? 1)%nat
                        then world_with_lock (Ok one_row)
                               (Some (Exception_msg lock_message))
                        else sample_world (Ok one_row))
              "cs101" (sample_conversation "conv-n" [question; answer])
              one_row one_row [7%Z] [7%Z] "What is a heap?" first_transcript
              [ones] [ones] (Exception_msg lock_message))
    as [t (Hrun & Hembed & _)].
  - reflexivity.
  - reflexivity.
  - reflexivity.
  - reflexivity.
  - reflexivity.
  - reflexivity.
  - reflexivity.
  - reflexivity.
  - right. now left.
  - repeat split; reflexivity.
  - reflexivity.
  - reflexivity.
  - reflexivity.
  - reflexivity.
  - exists t. split; [exact Hrun|]. unfold count. now rewrite Hembed.
Defined.

(** ** Every run of the decorated function *)

Lemma giveup_hdlr_trace (e : pyexn) (t t2 : trace) (r : res bool) :
  giveup_hdlr e t = (r, t2) ->
  exists tr, t2 = (t ++ tr)%list /\ count is_call_log tr = 0%nat /\ sleeps tr = [].
Proof.
  unfold giveup_hdlr. destruct e as [e_str|msg].
  - destruct (existsb (String.eqb e_str) LOCK_EXCEPTIONS).
    + intros [= _ <-]. exists []. now rewrite app_nil_r.
    + mrun. intros [= _ <-]. now exists [Capture_exception (Exception_dict e_str)].
  - intros [= _ <-]. exists []. now rewrite app_nil_r.
Qed.

(** Whatever the collaborators answer: [k] sleeps and [k + 1] calls, the
    sleeps being those of the calls 1 to [k]. *)
Lemma retry_profile (worlds : nat -> world) (course_name : string) (conv : log_data) :
  forall fuel tries t r t',
    (tries < max_tries)%nat ->
    retry fuel worlds tries course_name conv t = Some (r, t') ->
    exists k,
      (tries + k < max_tries)%nat
      /\ count is_call_log t' = (count is_call_log t + S k)%nat
      /\ sleeps t' = (sleeps t ++ map (backoff_sleep worlds) (seq (S tries) k))%list.
Proof.
  intros fuel. induction fuel as [|fuel IH]; intros tries t r t' Hlt Hrun;
    [discriminate|].
  rewrite retry_step in Hrun. cbv zeta in Hrun.
  destruct (attempt_trace (worlds (S tries)) course_name conv) as (Hlog & Hsl & _).
  assert (Hzero : forall tr,
             count is_call_log tr = 0%nat -> sleeps tr = [] ->
             count is_call_log ((t ++ snd (attempt (worlds (S tries)) course_name conv)) ++ tr)%list
             = (count is_call_log t + 1)%nat
             /\ sleeps ((t ++ snd (attempt (worlds (S tries)) course_name conv)) ++ tr)%list
                = sleeps t).
  { intros tr H1 H2. rewrite !count_app, !sleeps_app, Hlog, Hsl, H1, H2.
    rewrite !app_nil_r. split; [lia | reflexivity]. }
  destruct (fst (attempt (worlds (S tries)) course_name conv)) as [r0|e].
  - injection Hrun as <- <-. exists 0%nat.
    destruct (Hzero [] eq_refl eq_refl) as [H1 H2]. rewrite app_nil_r in H1, H2.
    rewrite H1, H2. cbn [seq map]. rewrite app_nil_r. repeat split; lia.
  - destruct (giveup_hdlr e _) as [[giveup|e'] t2] eqn:Hg;
      apply giveup_hdlr_trace in Hg as [tr (-> & Hg1 & Hg2)];
      destruct (Hzero tr Hg1 Hg2) as [H1 H2].
    + destruct (giveup || (S tries =? max_tries)%nat) eqn:Hstop.
      * injection Hrun as <- <-. exists 0%nat. rewrite H1, H2.
        cbn [seq map]. rewrite app_nil_r. repeat split; lia.
      * apply orb_false_iff in Hstop as [_ Hmax]. apply Nat.eqb_neq in Hmax.
        apply IH in Hrun as [k (Hk & Hc & Hs)]; [|lia].
        exists (S k). split; [lia|].
        rewrite Hc, Hs, count_app, sleeps_app, H1, H2. split.
        -- change (count is_call_log [Sleep _]) with 0%nat. lia.
        -- cbn [seq map sleeps flat_map app]. now rewrite <- app_assoc.
    + injection Hrun as <- <-. exists 0%nat. rewrite H1, H2.
      cbn [seq map]. rewrite app_nil_r. repeat split; lia.
Qed.

Lemma backoff_sleep_bounds (worlds : nat -> world) (n : nat) :
  (forall m, (0 <= random (worlds m))%Q /\ (random (worlds m) <= 1)%Q) ->
  (0 <= backoff_sleep worlds n)%Q /\ (backoff_sleep worlds n <= expo (n - 1))%Q.
Proof.
  intros Hrand. destruct (Hrand n) as [H0 H1]. unfold backoff_sleep.
  apply full_jitter_bounds; try assumption. apply Qlt_le_weak, expo_positive.
Qed.

(** X9: whatever the collaborators answer, the decorated function returns or
    raises after one to five calls of the function, sleeping once between two
    calls; with the draws of the jitter between 0 and 1 it sleeps 1666.5
    seconds in all at most (1.5 + 15 + 150 + 1500). *)
Theorem at_most_five_calls_and_bounded_sleep
    (worlds : nat -> world) (course_name : string) (conv : log_data) :
  (forall n, (0 <= random (worlds n))%Q /\ (random (worlds n) <= 1)%Q) ->
  exists r t k,
    log_convo_to_nomic worlds course_name conv = Some (r, t)
    /\ (k < 5)%nat
    /\ count is_call_log t = S k
    /\ sleeps t = map (backoff_sleep worlds) (seq 1 k)
    /\ (0 <= total (sleeps t))%Q
    /\ (total (sleeps t) <= 3333 # 2)%Q.
Proof.
  intros Hrand.
  destruct (log_convo_to_nomic_total worlds course_name conv) as [r [t Hrun]].
  pose proof Hrun as Hprof. unfold log_convo_to_nomic in Hprof.
  apply retry_profile in Hprof as [k (Hk & Hc & Hs)]; [|unfold max_tries; lia].
  exists r, t, k. split; [assumption|]. unfold max_tries in Hk.
  split; [lia|]. split; [exact Hc|]. split; [exact Hs|].
  cbn [sleeps flat_map app] in Hs. rewrite Hs.
  destruct (backoff_sleep_bounds worlds 1 Hrand) as [L1 U1].
  destruct (backoff_sleep_bounds worlds 2 Hrand) as [L2 U2].
  destruct (backoff_sleep_bounds worlds 3 Hrand) as [L3 U3].
  destruct (backoff_sleep_bounds worlds 4 Hrand) as [L4 U4].
  assert (E0 : (expo (1 - 1) <= 3 # 2)%Q) by (unfold Qle; simpl; lia).
  assert (E1 : (expo (2 - 1) <= 15)%Q) by (unfold Qle; simpl; lia).
  assert (E2 : (expo (3 - 1) <= 150)%Q) by (unfold Qle; simpl; lia).
  assert (E3 : (expo (4 - 1) <= 1500)%Q) by (unfold Qle; simpl; lia).
  destruct k as [|[|[|[|[|k]]]]]; [| | | | |lia];
    cbn [seq map total fold_right]; split; lra.
Qed.

Lemma at_most_five_calls_and_bounded_sleep_witness :
  exists t,
    log_convo_to_nomic (fun _ => locked_world (1 # 2)) "cs101"
      (sample_conversation "conv-a" [question]) = Some (Ok None, t)
    /\ count is_call_log t = 5%nat
    /\ (total (sleeps t) <= 3333 # 2)%Q.
Proof.
  destruct (at_most_five_calls_and_bounded_sleep
              (fun _ => locked_world (1 # 2)) "cs101"
              (sample_conversation "conv-a" [question]))
    as [r [t [k (Hrun & _ & _ & _ & _ & Hsum)]]].
  - intros n. split; discriminate.
  - exists t. vm_compute in Hrun. injection Hrun as <- <-.
    split; [reflexivity|]. split; [reflexivity | exact Hsum].
Defined.

(** ** The conversation ids of the map *)

Lemma in_values_false (v : string) (df : list (Z * indexed_record))
    (i : Z) (m : indexed_record) :
  in_values v df = false -> In (i, m) df -> conversation_id m <> v.
Proof.
  intros H Hin Heq.
  assert (Ht : in_values v df = true); [|congruence].
  unfold in_values. apply existsb_exists. exists (i, m). split; [assumption|].
  unfold row_has_value. cbn [snd]. rewrite Heq, String.eqb_refl.
  now rewrite !orb_true_r.
Qed.

(** X10: an INSERT is made only for a conversation id that no row of the map
    carries, so it creates no second point for a conversation: conversation
    ids that were pairwise distinct in the data frame are still so with the
    record that is added. *)
Theorem insert_keeps_conversation_ids_distinct
    (w : world) (course_name : string) (conv : log_data) (snap : snapshot)
    (ids : list Z) (fm tr : string) (embeddings : list vector) (t : trace) :
  quiet w ->
  atlas_project w = Ok snap ->
  astype_int (map_metadata_df snap) = Ok ids ->
  in_values (log_conversation_id conv) (map_metadata_df snap) = false ->
  first_message_text (log_messages conv) = Ok fm ->
  append_lines "" (log_messages conv) = Ok tr ->
  embed_documents w [Text fm] = Ok embeddings ->
  NoDup (map (fun row => conversation_id (snd row)) (map_metadata_df snap)) ->
  exists r,
    log_convo_to_nomic_body w course_name conv t
    = (Ok (success course_name),
       (t ++ [ Call_log_convo_to_nomic; Nomic_login; Embed_documents [Text fm];
               Add_embeddings embeddings [r]; Rebuild_maps ])%list)
    /\ conversation_id r = log_conversation_id conv
    /\ ~ In (conversation_id r)
            (map (fun row => conversation_id (snd row)) (map_metadata_df snap))
    /\ NoDup (map (fun row => conversation_id (snd row)) (map_metadata_df snap)
              ++ [conversation_id r])%list.
Proof.
  intros Hq Hsnap Hids Hin Hfm Htr Hemb Hnd.
  eexists. split; [eapply insert_attempt; eauto|].
  cbn [conversation_id]. split; [reflexivity|].
  assert (Hfresh : ~ In (log_conversation_id conv)
                     (map (fun row => conversation_id (snd row)) (map_metadata_df snap))).
  { intros Hmem. apply in_map_iff in Hmem as [[i m] [Heq Hrow]].
    now apply (in_values_false _ _ _ _ Hin Hrow). }
  split; [assumption|].
  apply NoDup_app; [assumption | repeat constructor; intros [] |].
  intros x Hx [<-|[]]. contradiction.
Qed.

Lemma insert_keeps_conversation_ids_distinct_witness :
  exists r,
    added_records
      (snd (attempt (sample_world (Ok two_rows)) "cs101"
              (sample_conversation "conv-c" [question; answer]))) = [r]
    /\ NoDup ["conv-a"; "conv-b"; conversation_id r].
Proof.
  destruct (insert_keeps_conversation_ids_distinct
              (sample_world (Ok two_rows)) "cs101"
              (sample_conversation "conv-c" [question; answer])
              two_rows [1%Z; 2%Z] "What is a heap?" first_transcript [ones] [])
    as [r (Hrun & _ & _ & Hnd)].
  - repeat split; reflexivity.
  - reflexivity.
  - reflexivity.
  - reflexivity.
  - reflexivity.
  - reflexivity.
  - reflexivity.
  - repeat constructor; simpl; intuition discriminate.
  - exists r. unfold attempt. rewrite Hrun. split; [reflexivity | exact Hnd].
Defined.

(** ** What a reported success means *)

Lemma bind_ok_inv {A B : Type} (m : M A) (k : A -> M B) (t t' : trace) (b : B) :
  bind m k t = (Ok b, t') ->
  exists a t1, m t = (Ok a, t1) /\ k a t1 = (Ok b, t').
Proof.
  unfold bind. destruct (m t) as [[a|e] t1]; [eauto | discriminate].
Qed.

Ltac mrun_in H :=
  repeat (first
    [ rewrite bind_assoc in H | rewrite bind_ret in H | rewrite bind_raise in H
    | rewrite bind_lift_ok in H | rewrite bind_lift_raise in H
    | rewrite bind_emit in H | rewrite bind_call_none in H
    | rewrite bind_call_some in H | rewrite bind_fails_none in H
    | rewrite bind_fails_some in H | rewrite bind_embed in H ]; cbv beta in H).

(** Case analysis on the step a computation starts with. *)
Ltac crack H :=
  mrun_in H;
  match type of H with
  | bind (lift ?r) _ _ = _ => destruct r eqn:?
  | bind (call _ ?f) _ _ = _ => destruct f eqn:?
  | bind (fails ?f) _ _ = _ => destruct f eqn:?
  end;
  mrun_in H; try discriminate H.

(** An UPDATE branch that returns has deleted one point and nothing else. *)
Lemma update_point_inv (w : world) (course_name : string) (conv : log_data)
    (snap : snapshot) (last_id : pynum) (t t' : trace)
    (em : list vector * indexed_record) :
  update_point w course_name conv snap last_id t = (Ok em, t') ->
  exists prev_id v,
    t' = (t ++ [Delete_data [prev_id]])%list
    /\ fst em = [v] /\ In v (map_embeddings_df snap)
    /\ conversation_id (snd em) = log_conversation_id conv
    /\ course (snd em) = course_name
    /\ user_email (snd em) = log_user_email conv
    /\ modified_at (snd em) = now w 0
    /\ id (snd em) = pynum_succ last_id.
Proof.
  unfold update_point. intros H.
  crack H. crack H. crack H. crack H. crack H. crack H. crack H. crack H. crack H.
  unfold ret in H. injection H as <- <-.
  match goal with
  | Hv : py_index (map_embeddings_df snap) _ = Ok ?v,
    Hr : reshape_1_1536 ?v = Ok ?l |- _ =>
      unfold reshape_1_1536 in Hr;
      destruct (List.length v =? 1536)%nat; [|discriminate];
      injection Hr as <-; apply py_index_In in Hv
  end.
  eexists _, _. repeat split. assumption.
Qed.

(** An INSERT branch that returns has requested one embedding, of the text
    it stores as first query. *)
Lemma insert_point_inv (w : world) (course_name : string) (conv : log_data)
    (last_id : pynum) (t t' : trace) (em : list vector * indexed_record) :
  insert_point w course_name conv last_id t = (Ok em, t') ->
  exists fm,
    t' = (t ++ [Embed_documents [Text fm]])%list
    /\ first_message_text (log_messages conv) = Ok fm
    /\ embed_documents w [Text fm] = Ok (fst em)
    /\ first_query (snd em) = Text fm
    /\ created_at (snd em) = now w 0
    /\ conversation_id (snd em) = log_conversation_id conv
    /\ course (snd em) = course_name
    /\ user_email (snd em) = log_user_email conv
    /\ modified_at (snd em) = now w 0
    /\ id (snd em) = pynum_succ last_id.
Proof.
  unfold insert_point. intros H.
  crack H. crack H. crack H.
  unfold ret in H. injection H as <- <-.
  eexists. repeat split; eauto.
Qed.

(** X11: the status of line 186 is returned only after exactly one record
    was handed to [add_embeddings] and the map was rebuilt.  That record
    carries the conversation id, the course and the user email of the call
    and the current time as [modified_at]; before it the call either deleted
    one point (UPDATE) or requested the embedding of the text it stores as
    first query (INSERT), never both. *)
Theorem success_means_one_record_added
    (w : world) (course_name : string) (conv : log_data) (s : string) :
  fst (attempt w course_name conv) = Ok (Some s) ->
  s = "Successfully logged for " ++ course_name
  /\ exists step embeddings r,
       snd (attempt w course_name conv)
       = [ Call_log_convo_to_nomic; Nomic_login; step;
           Add_embeddings embeddings [r]; Rebuild_maps ]
       /\ ((exists prev_id v, step = Delete_data [prev_id] /\ embeddings = [v]
                              /\ In v match atlas_project w with
                                      | Ok snap => map_embeddings_df snap
                                      | Raise _ => []
                                      end)
           \/ (exists fm, step = Embed_documents [Text fm]
                          /\ embed_documents w [Text fm] = Ok embeddings
                          /\ first_query r = Text fm
                          /\ created_at r = now w 0))
       /\ conversation_id r = log_conversation_id conv
       /\ course r = course_name
       /\ user_email r = log_user_email conv
       /\ modified_at r = now w 0.
Proof.
  unfold attempt, log_convo_to_nomic_body. intros H.
  destruct (login w) as [e|] eqn:Hlogin; [discriminate H|].
  revert H. mrun. rewrite try_except_run.
  match goal with
  | |- context [match ?T ?t0 with _ => _ end] =>
      destruct (T t0) as [[a|e] t1] eqn:HT
  end.
  - cbn [fst snd]. intros [= ->].
    crack HT. crack HT.
    apply bind_ok_inv in HT as [em [t2 [Hbranch Hcommit]]].
    crack Hcommit. crack Hcommit. crack Hcommit.
    unfold ret in Hcommit. injection Hcommit as <- <-.
    split; [reflexivity|].
    destruct (in_values _ _).
    + apply update_point_inv in Hbranch
        as [prev_id [v (-> & Hfst & Hv & Hcid & Hc & Hu & Hm & _)]].
      exists (Delete_data [prev_id]), (fst em), (snd em).
      split; [reflexivity|]. split; [|now repeat split].
      left. exists prev_id, v. now repeat split.
    + apply insert_point_inv in Hbranch
        as [fm (-> & _ & Hemb & Hfq & Hcr & Hcid & Hc & Hu & Hm & _)].
      exists (Embed_documents [Text fm]), (fst em), (snd em).
      split; [reflexivity|]. split; [|now repeat split].
      right. exists fm. now repeat split.
  - cbv iota beta. destruct (str e =? unique_id_field_message)%string.
    + unfold bind. destruct (create_nomic_map w course_name conv t1) as [[x|e'] t2];
        discriminate.
    + discriminate.
Qed.

Lemma success_means_one_record_added_witness :
  exists r,
    snd (attempt (sample_world (Ok two_rows)) "cs101"
           (sample_conversation "conv-c" [question; answer]))
    = [ Call_log_convo_to_nomic; Nomic_login;
        Embed_documents [Text "What is a heap?"];
        Add_embeddings [ones] [r]; Rebuild_maps ]
    /\ conversation_id r = "conv-c".
Proof.
  destruct (success_means_one_record_added
              (sample_world (Ok two_rows)) "cs101"
              (sample_conversation "conv-c" [question; answer])
              "Successfully logged for cs101")
    as [_ [step [embeddings [r (Hrun & _ & Hcid & _)]]]].
  - reflexivity.
  - exists r. split; [|exact Hcid].
    rewrite Hrun. vm_compute in Hrun. injection Hrun as <- <- <-. reflexivity.
Defined.

(** ** Every run of [create_nomic_map] *)

Lemma failed_run (e : pyexn) (t : trace) :
  ((if (str e =? unique_id_field_message)%string then ret tt
    else emit (Capture_exception e)) ;;; ret (Some "failed")) t
  = (Ok (Some "failed"), (t ++ report e)%list).
Proof.
  unfold report. destruct (str e =? unique_id_field_message)%string; mrun;
    unfold ret; [now rewrite app_nil_r | reflexivity].
Qed.

Lemma created_is_not_failed (course_name : string) :
  Some ("Successfully created Nomic map for " ++ course_name) <> Some "failed".
Proof. discriminate. Qed.

(** X12: once its login and its Supabase client are at hand,
    [create_nomic_map] never raises and has three outcomes.  It returns
    [None] if and only if Supabase answers with fewer than 19 rows, and then
    it has called nothing else.  It returns its status of success if and
    only if the payload is read, the records are assembled, the embeddings
    are computed, the map and its index are created, all without an
    exception, and then it has made these three calls in this order and no
    report.  It returns ["failed"] in every other case: then one of these
    steps raised an exception [e], the calls made are those before that
    step, and [e] is reported to Sentry, once and last, unless its message
    is the one of a course without a map. *)
Theorem create_nomic_map_outcomes
    (w : world) (course_name : string) (log : payload) :
  map_login w = None -> create_client w = None ->
  exists a tr,
    (forall t, create_nomic_map w course_name log t
               = (Ok a, (t ++ Call_create_nomic_map :: Nomic_login :: tr)%list))
    /\ (a = None
        \/ a = Some ("Successfully created Nomic map for " ++ course_name)
        \/ a = Some "failed")
    /\ (a = None <->
        exists rows, supabase_rows w = Ok rows /\ (List.length rows < 19)%nat)
    /\ (a = None -> tr = [])
    /\ (a = Some ("Successfully created Nomic map for " ++ course_name) <->
        exists rows conv queries records embeddings,
          supabase_rows w = Ok rows /\ (19 <= List.length rows)%nat
          /\ read_conversation log = Ok conv
          /\ assemble w course_name conv rows = Ok (queries, records)
          /\ embed_documents w queries = Ok embeddings
          /\ map_embeddings w = None /\ create_index w = None)
    /\ (a = Some ("Successfully created Nomic map for " ++ course_name) ->
        exists rows conv queries records embeddings,
          supabase_rows w = Ok rows
          /\ read_conversation log = Ok conv
          /\ assemble w course_name conv rows = Ok (queries, records)
          /\ embed_documents w queries = Ok embeddings
          /\ tr = [ Embed_documents queries;
                    Map_embeddings embeddings records;
                    Create_index (course_name ++ "_convo_index") ])
    /\ (a = Some "failed" ->
        exists e calls,
          (str e = unique_id_field_message -> tr = calls)
          /\ (str e <> unique_id_field_message ->
              tr = (calls ++ [Capture_exception e])%list)
          /\ (supabase_rows w = Raise e /\ calls = []
              \/ exists rows,
                   supabase_rows w = Ok rows /\ (19 <= List.length rows)%nat
                   /\ (read_conversation log = Raise e /\ calls = []
                       \/ exists conv,
                            read_conversation log = Ok conv
                            /\ (assemble w course_name conv rows = Raise e
                                /\ calls = []
                                \/ exists queries records,
                                     assemble w course_name conv rows
                                     = Ok (queries, records)
                                     /\ (embed_documents w queries = Raise e
                                         /\ calls = [Embed_documents queries]
                                         \/ exists embeddings,
                                              embed_documents w queries = Ok embeddings
                                              /\ (map_embeddings w = Some e
                                                  /\ calls
                                                     = [ Embed_documents queries;
                                                         Map_embeddings embeddings records ]
                                                  \/ map_embeddings w = None
                                                     /\ create_index w = Some e
                                                     /\ calls
                                                        = [ Embed_documents queries;
                                                            Map_embeddings embeddings records;
                                                            Create_index
                                                              (course_name ++ "_convo_index") ])))))).
Proof.
  intros Hl Hc.
  assert (Hreport : forall e calls,
             (str e = unique_id_field_message -> (calls ++ report e)%list = calls)
             /\ (str e <> unique_id_field_message ->
                 (calls ++ report e)%list = (calls ++ [Capture_exception e])%list)).
  { intros e calls. unfold report.
    destruct (String.eqb_spec (str e) unique_id_field_message) as [H|H].
    - split; [intros _; apply app_nil_r | intros H'; contradiction].
    - split; [intros H'; contradiction | reflexivity]. }
  pose proof (created_is_not_failed course_name) as Hdiff.
  unfold create_nomic_map. rewrite Hl, Hc.
  destruct (supabase_rows w) as [rows|e] eqn:Hrows.
  2:{ exists (Some "failed"), ([] ++ report e)%list. split.
      { intros t. mrun. rewrite try_except_run. mrun. rewrite failed_run.
        now rewrite <- !app_assoc. }
      split; [now right; right|].
      split; [split; [discriminate | intros [rows [H _]]; discriminate]|].
      split; [discriminate|].
      split; [split; [intros H; now symmetry in H
                     | intros (rows & conv & q & r & em & H & _); discriminate]|].
      split; [intros H; now symmetry in H|].
      intros _. exists e, []. split; [apply Hreport|]. split; [apply Hreport|].
      now left. }
  destruct (List.length rows <? 19)%nat eqn:Hlen.
  { apply Nat.ltb_lt in Hlen as Hlt.
    exists None, []. split.
    { intros t. mrun. rewrite try_except_run. mrun. rewrite Hlen.
      unfold ret. now rewrite <- !app_assoc. }
    split; [now left|].
    split; [split; [intros _; now exists rows | reflexivity]|].
    split; [reflexivity|].
    split; [split; [discriminate
                   | intros (rows' & conv & q & r & em & [= <-] & H & _); lia]|].
    split; [discriminate | discriminate]. }
  apply Nat.ltb_ge in Hlen as Hge.
  destruct (read_conversation log) as [conv|e] eqn:Hread.
  2:{ exists (Some "failed"), ([] ++ report e)%list. split.
      { intros t. mrun. rewrite try_except_run. mrun. rewrite Hlen. mrun.
        rewrite failed_run. now rewrite <- !app_assoc. }
      split; [now right; right|].
      split; [split; [discriminate | intros [rows' [[= <-] H]]; lia]|].
      split; [discriminate|].
      split; [split; [intros H; now symmetry in H
                     | intros (rows' & conv & q & r & em & _ & _ & H & _); discriminate]|].
      split; [intros H; now symmetry in H|].
      intros _. exists e, []. split; [apply Hreport|]. split; [apply Hreport|].
      right. exists rows. split; [reflexivity|]. split; [assumption|]. now left. }
  destruct (assemble w course_name conv rows) as [[queries records]|e] eqn:Hasm.
  2:{ exists (Some "failed"), ([] ++ report e)%list. split.
      { intros t. mrun. rewrite try_except_run. mrun. rewrite Hlen. mrun.
        rewrite Hasm. mrun. rewrite failed_run. now rewrite <- !app_assoc. }
      split; [now right; right|].
      split; [split; [discriminate | intros [rows' [[= <-] H]]; lia]|].
      split; [discriminate|].
      split; [split; [intros H; now symmetry in H
                     | intros (rows' & conv' & q & r & em & [= <-] & _ & [= <-] & H & _);
                       congruence]|].
      split; [intros H; now symmetry in H|].
      intros _. exists e, []. split; [apply Hreport|]. split; [apply Hreport|].
      right. exists rows. split; [reflexivity|]. split; [assumption|].
      right. exists conv. split; [reflexivity|]. now left. }
  destruct (embed_documents w queries) as [embeddings|e] eqn:Hemb.
  2:{ exists (Some "failed"), ([Embed_documents queries] ++ report e)%list. split.
      { intros t. mrun. rewrite try_except_run. mrun. rewrite Hlen. mrun.
        rewrite Hasm. mrun. cbn [fst snd]. rewrite Hemb. mrun.
        rewrite failed_run. now rewrite <- !app_assoc. }
      split; [now right; right|].
      split; [split; [discriminate | intros [rows' [[= <-] H]]; lia]|].
      split; [discriminate|].
      split; [split; [intros H; now symmetry in H
                     | intros (rows' & conv' & q & r & em & [= <-] & _ & [= <-] & H & H' & _);
                       congruence]|].
      split; [intros H; now symmetry in H|].
      intros _. exists e, [Embed_documents queries].
      split; [apply Hreport|]. split; [apply Hreport|].
      right. exists rows. split; [reflexivity|]. split; [assumption|].
      right. exists conv. split; [reflexivity|].
      right. exists queries, records. split; [assumption|]. now left. }
  destruct (map_embeddings w) as [e|] eqn:Hmap.
  { exists (Some "failed"),
      ([Embed_documents queries; Map_embeddings embeddings records] ++ report e)%list.
    split.
    { intros t. mrun. rewrite try_except_run. mrun. rewrite Hlen. mrun.
      rewrite Hasm. mrun. cbn [fst snd]. rewrite Hemb. mrun. rewrite ?Hmap. mrun.
      rewrite failed_run. now rewrite <- !app_assoc. }
    split; [now right; right|].
    split; [split; [discriminate | intros [rows' [[= <-] H]]; lia]|].
    split; [discriminate|].
    split; [split; [intros H; now symmetry in H
                   | intros (rows' & conv' & q & r & em & _ & _ & _ & _ & _ & H & _);
                     discriminate]|].
    split; [intros H; now symmetry in H|].
    intros _. exists e, [Embed_documents queries; Map_embeddings embeddings records].
    split; [apply Hreport|]. split; [apply Hreport|].
    right. exists rows. split; [reflexivity|]. split; [assumption|].
    right. exists conv. split; [reflexivity|].
    right. exists queries, records. split; [assumption|].
    right. exists embeddings. split; [assumption|]. now left. }
  destruct (create_index w) as [e|] eqn:Hidx.
  { exists (Some "failed"),
      ([Embed_documents queries; Map_embeddings embeddings records;
        Create_index (course_name ++ "_convo_index")] ++ report e)%list.
    split.
    { intros t. mrun. rewrite try_except_run. mrun. rewrite Hlen. mrun.
      rewrite Hasm. mrun. cbn [fst snd]. rewrite Hemb. mrun. rewrite ?Hmap. mrun.
      rewrite ?Hidx. mrun. rewrite failed_run. now rewrite <- !app_assoc. }
    split; [now right; right|].
    split; [split; [discriminate | intros [rows' [[= <-] H]]; lia]|].
    split; [discriminate|].
    split; [split; [intros H; now symmetry in H
                   | intros (rows' & conv' & q & r & em & _ & _ & _ & _ & _ & _ & H);
                     discriminate]|].
    split; [intros H; now symmetry in H|].
    intros _. exists e, [Embed_documents queries; Map_embeddings embeddings records;
                         Create_index (course_name ++ "_convo_index")].
    split; [apply Hreport|]. split; [apply Hreport|].
    right. exists rows. split; [reflexivity|]. split; [assumption|].
    right. exists conv. split; [reflexivity|].
    right. exists queries, records. split; [assumption|].
    right. exists embeddings. split; [assumption|]. right. now repeat split. }
  exists (Some ("Successfully created Nomic map for " ++ course_name)),
    [Embed_documents queries; Map_embeddings embeddings records;
     Create_index (course_name ++ "_convo_index")].
  split.
  { intros t. mrun. rewrite try_except_run. mrun. rewrite Hlen. mrun.
    rewrite Hasm. mrun. cbn [fst snd]. rewrite Hemb. mrun. rewrite ?Hmap. mrun.
    rewrite ?Hidx. mrun. unfold ret. now rewrite <- !app_assoc. }
  split; [now right; left|].
  split; [split; [discriminate | intros [rows' [[= <-] H]]; lia]|].
  split; [discriminate|].
  split; [split; [intros _; exists rows, conv, queries, records, embeddings;
                  now repeat split
                 | reflexivity]|].
  split; [intros _; exists rows, conv, queries, records, embeddings; now repeat split|].
  intros H. contradiction.
Qed.

Lemma create_nomic_map_outcomes_witness :
  create_nomic_map
    (make_world None (Raise (Exception_msg unique_id_field_message))
       (Raise (Exception_msg "connection reset")) 1)
    "cs101" (sample_conversation "conv-a" [question]) []
  = (Ok (Some "failed"),
     [ Call_create_nomic_map; Nomic_login;
       Capture_exception (Exception_msg "connection reset") ]).
Proof.
  destruct (create_nomic_map_outcomes
              (make_world None (Raise (Exception_msg unique_id_field_message))
                 (Raise (Exception_msg "connection reset")) 1)
              "cs101" (sample_conversation "conv-a" [question]))
    as [a [tr [Hrun _]]].
  - reflexivity.
  - reflexivity.
  - rewrite (Hrun []). vm_compute in Hrun. specialize (Hrun []).
    injection Hrun as <- <-. reflexivity.
Defined.

(** ** The records of a new map *)

(** What the loop of lines 264-323 keeps true, whenever it gets through:
    the texts to embed are the first queries of the records, in order; the
    records are numbered consecutively; the flag says whether a row was the
    conversation being logged. *)
Lemma history_loop_inv (w : world) (log : log_data) (rows : list history_row)
    (first_id : nat) :
  forall i user_queries metadata conversation_exists
         user_queries' metadata' i' conversation_exists',
    history_loop w log rows i user_queries metadata conversation_exists
    = Ok (user_queries', metadata', i', conversation_exists') ->
    user_queries = map first_query metadata ->
    map id metadata
    = map (fun j => PyInt (Z.of_nat j)) (seq first_id (List.length metadata)) ->
    i = (first_id + List.length metadata)%nat ->
    user_queries' = map first_query metadata'
    /\ map id metadata'
       = map (fun j => PyInt (Z.of_nat j)) (seq first_id (List.length metadata'))
    /\ i' = (first_id + List.length metadata')%nat
    /\ List.length metadata' = (List.length metadata + List.length rows)%nat
    /\ conversation_exists'
       = conversation_exists || existsb (same_conversation log) rows.
Proof.
  induction rows as [|row rows IH];
    intros i uq md ex uq' md' i' ex' Hrun Huq Hid Hi.
  - cbn [history_loop] in Hrun. injection Hrun as <- <- <- <-.
    cbn [existsb List.length]. rewrite orb_false_r, Nat.add_0_r. now repeat split.
  - cbn [history_loop] in Hrun.
    destruct (to_datetime_strftime w (row_created_at row)) as [created|]; [|discriminate].
    destruct (first_message_text (row_messages row)) as [fm|]; [|discriminate].
    destruct (append_lines "" (row_messages row)) as [c0|]; [|discriminate].
    fold (same_conversation log row) in Hrun.
    destruct (if same_conversation log row
              then append_lines c0 (log_messages log) else Ok c0) as [c1|];
      [|discriminate].
    apply IH in Hrun as (H1 & H2 & H3 & H4 & H5).
    + repeat split; try assumption.
      * rewrite H4, length_app. cbn [List.length]. lia.
      * rewrite H5. cbn [existsb]. now rewrite orb_assoc.
    + rewrite map_app, Huq. reflexivity.
    + rewrite map_app, Hid, length_app. cbn [List.length map id].
      rewrite Nat.add_1_r, seq_S, map_app, Hi. reflexivity.
    + rewrite length_app. cbn [List.length]. lia.
Qed.

(** X13: whenever the records of a new map are assembled, the texts sent to
    the embedding model are the first queries of the records, one per record
    and in the same order; the records are numbered 1, 2, ..., so their row
    ids are pairwise distinct; and there is one record per historical row,
    plus one exactly when no row is the conversation being logged. *)
Theorem assembled_records_are_aligned_and_numbered
    (w : world) (course_name : string) (log : log_data) (rows : list history_row)
    (queries : list pycontent) (records : list indexed_record) :
  assemble w course_name log rows = Ok (queries, records) ->
  queries = map first_query records
  /\ map id records
     = map (fun j => PyInt (Z.of_nat j)) (seq 1 (List.length records))
  /\ NoDup (map id records)
  /\ List.length records
     = (if existsb (same_conversation log) rows then List.length rows
        else S (List.length rows)).
Proof.
  unfold assemble. intros H.
  destruct (history_loop w log rows 1 [] [] false) as [[[[uq md] i] ex]|] eqn:Hloop;
    [|discriminate].
  apply (history_loop_inv w log rows 1) in Hloop as (H1 & H2 & H3 & H4 & H5);
    [|reflexivity|reflexivity|reflexivity].
  cbn [orb List.length Nat.add] in H4, H5.
  assert (Hgoal : queries = map first_query records
                  /\ map id records
                     = map (fun j => PyInt (Z.of_nat j)) (seq 1 (List.length records))
                  /\ List.length records
                     = (if existsb (same_conversation log) rows then List.length rows
                        else S (List.length rows))).
  { rewrite <- H5. destruct ex.
    - injection H as <- <-. now repeat split.
    - destruct (py_index (log_messages log) 0) as [first|]; [|discriminate].
      destruct (append_lines "" (log_messages log)) as [c0|]; [|discriminate].
      injection H as <- <-. rewrite !map_app, !length_app. cbn [List.length map].
      split; [now rewrite H1|]. split; [|lia].
      rewrite Nat.add_1_r, seq_S, map_app, H2, H3. reflexivity. }
  destruct Hgoal as (G1 & G2 & G3). repeat split; try assumption.
  rewrite G2. apply Injective_map_NoDup; [|apply seq_NoDup].
  intros x y [= Hxy]. lia.
Qed.

Lemma assembled_records_are_aligned_and_numbered_witness :
  exists queries records,
    assemble (bootstrap_world nineteen_rows) "cs101"
      (sample_conversation "conv-new" [follow_up; answer]) nineteen_rows
    = Ok (queries, records)
    /\ List.length records = 20%nat
    /\ queries = map first_query records.
Proof.
  destruct (assemble (bootstrap_world nineteen_rows) "cs101"
              (sample_conversation "conv-new" [follow_up; answer]) nineteen_rows)
    as [[queries records]|e] eqn:Hasm.
  - destruct (assembled_records_are_aligned_and_numbered _ _ _ _ _ _ Hasm)
      as (H1 & _ & _ & H4).
    exists queries, records. split; [reflexivity|]. split; [exact H4 | exact H1].
  - vm_compute in Hasm. discriminate.
Defined.

(** X14: in a new map the record of the conversation being logged, when it
    is not one of the historical rows, is the last one, and its first query
    is the content of the first message as it is, which is also what is sent
    to the embedding model for it.  When that content is a list of parts the
    first query is the list, not the text of its first part that the INSERT
    path and the historical rows store. *)
Theorem bootstrap_stores_raw_first_query
    (w : world) (course_name : string) (log : log_data) (rows : list history_row)
    (queries : list pycontent) (records : list indexed_record) :
  assemble w course_name log rows = Ok (queries, records) ->
  existsb (same_conversation log) rows = false ->
  exists first r,
    py_index (log_messages log) 0 = Ok first
    /\ nth_error records (List.length rows) = Some r
    /\ nth_error queries (List.length rows) = Some (content first)
    /\ first_query r = content first
    /\ conversation_id r = log_conversation_id log
    /\ course r = course_name
    /\ created_at r = modified_at r
    /\ (forall parts, content first = Parts parts ->
                      forall s, first_query r <> Text s).
Proof.
  unfold assemble. intros H Hex.
  destruct (history_loop w log rows 1 [] [] false) as [[[[uq md] i] ex]|] eqn:Hloop;
    [|discriminate].
  apply (history_loop_inv w log rows 1) in Hloop as (H1 & H2 & H3 & H4 & H5);
    [|reflexivity|reflexivity|reflexivity].
  cbn [orb List.length Nat.add] in H4, H5. rewrite Hex in H5. subst ex.
  destruct (py_index (log_messages log) 0) as [first|]; [|discriminate].
  destruct (append_lines "" (log_messages log)) as [c0|]; [|discriminate].
  injection H as <- <-.
  assert (Hlen : List.length uq = List.length rows)
    by (rewrite H1, length_map; exact H4).
  exists first. eexists. split; [reflexivity|].
  split; [rewrite nth_error_app2 by lia; rewrite H4, Nat.sub_diag; reflexivity|].
  split; [rewrite nth_error_app2 by lia; rewrite Hlen, Nat.sub_diag; reflexivity|].
  cbn [first_query conversation_id course created_at modified_at].
  repeat split. intros parts Hparts s. rewrite Hparts. discriminate.
Qed.

Lemma bootstrap_stores_raw_first_query_witness :
  exists queries records r,
    assemble (bootstrap_world nineteen_rows) "cs101"
      (sample_conversation "conv-new" [typed_question; answer]) nineteen_rows
    = Ok (queries, records)
    /\ nth_error records 19 = Some r
    /\ first_query r = Parts [ {| text := Some "What is a trie?" |} ]
    /\ first_message_text [typed_question; answer] = Ok "What is a trie?".
Proof.
  destruct (assemble (bootstrap_world nineteen_rows) "cs101"
              (sample_conversation "conv-new" [typed_question; answer]) nineteen_rows)
    as [[queries records]|e] eqn:Hasm.
  - destruct (bootstrap_stores_raw_first_query _ _ _ _ _ _ Hasm)
      as [first [r (Hfirst & Hr & _ & Hfq & _)]].
    + reflexivity.
    + exists queries, records, r. split; [reflexivity|]. split; [exact Hr|].
      split; [|reflexivity].
      rewrite Hfq. vm_compute in Hfirst. injection Hfirst as <-. reflexivity.
  - vm_compute in Hasm. discriminate.
Defined.

Lemma history_loop_app (w : world) (log : log_data) (rows1 rows2 : list history_row) :
  forall i user_queries metadata conversation_exists,
    history_loop w log (rows1 ++ rows2)%list i user_queries metadata conversation_exists
    = match history_loop w log rows1 i user_queries metadata conversation_exists with
      | Ok (user_queries', metadata', i', conversation_exists') =>
          history_loop w log rows2 i' user_queries' metadata' conversation_exists'
      | Raise e => Raise e
      end.
Proof.
  induction rows1 as [|row rows1 IH]; intros i uq md ex; [reflexivity|].
  cbn [app history_loop].
  destruct (to_datetime_strftime w (row_created_at row)); [|reflexivity].
  destruct (first_message_text (row_messages row)); [|reflexivity].
  destruct (append_lines "" (row_messages row)); [|reflexivity].
  destruct (if (row_convo_id row =? log_conversation_id log)%string
            then append_lines a1 (log_messages log) else Ok a1); [|reflexivity].
  apply IH.
Qed.

(** X15: one historical conversation without messages makes the whole
    bootstrap fail.  Reading its first message raises [IndexError] in the
    loop over the rows; [create_nomic_map] reports it, returns ["failed"],
    and neither embeds anything nor creates a map, however many well-formed
    rows there are. *)
Theorem empty_historical_conversation_fails_bootstrap
    (w : world) (course_name : string) (log : log_data)
    (before after : list history_row) (row : history_row) (created : string)
    (t : trace) :
  map_login w = None -> create_client w = None ->
  supabase_rows w = Ok (before ++ row :: after)%list ->
  (19 <= List.length (before ++ row :: after)%list)%nat ->
  Forall (well_formed_row w) before ->
  Forall readable (log_messages log) ->
  to_datetime_strftime w (row_created_at row) = Ok created ->
  row_messages row = [] ->
  assemble w course_name log (before ++ row :: after)%list = Raise IndexError
  /\ create_nomic_map w course_name log t
     = (Ok (Some "failed"),
        (t ++ [ Call_create_nomic_map; Nomic_login;
                Capture_exception IndexError ])%list).
Proof.
  intros Hl Hc Hrows Hlen Hwf Hread Hcreated Hnil.
  assert (Hasm : assemble w course_name log (before ++ row :: after)%list
                 = Raise IndexError).
  { unfold assemble. rewrite history_loop_app.
    destruct (history_loop_spec w log before Hwf (fun _ => Hread) 1 [] [] false)
      as [queries [records [Hrun _]]].
    rewrite Hrun. cbn [history_loop]. rewrite Hcreated.
    unfold first_message_text. now rewrite Hnil, py_index_nil. }
  split; [assumption|].
  unfold create_nomic_map. rewrite Hl, Hc. mrun.
  rewrite try_except_run, Hrows. mrun.
  replace (List.length (before ++ row :: after)%list <? 19)%nat with false
    by (symmetry; apply Nat.ltb_ge; assumption).
  mrun. rewrite Hasm. mrun. rewrite failed_run.
  unfold report. replace (str IndexError =? unique_id_field_message)%string
    with false by reflexivity.
  now rewrite <- !app_assoc.
Qed.

Lemma empty_historical_conversation_fails_bootstrap_witness :
  create_nomic_map (bootstrap_world (nineteen_rows ++ [empty_row])) "cs101"
    (sample_conversation "conv-new" [question]) []
  = (Ok (Some "failed"),
     [ Call_create_nomic_map; Nomic_login; Capture_exception IndexError ]).
Proof.
  apply (empty_historical_conversation_fails_bootstrap
           (bootstrap_world (nineteen_rows ++ [empty_row])) "cs101"
           (sample_conversation "conv-new" [question])
           nineteen_rows [] empty_row "2024-01-03 08:00:00" []).
  - reflexivity.
  - reflexivity.
  - reflexivity.
  - vm_compute. lia.
  - unfold nineteen_rows. apply Forall_app. split.
    + apply Forall_forall. intros row Hin. apply repeat_spec in Hin as ->.
      split; [now exists "2024-01-02 08:00:00"|].
      split; [discriminate|]. repeat constructor. now exists "What is a heap?".
    + repeat constructor; try discriminate; eexists; reflexivity.
  - repeat constructor. now exists "What is a heap?".
  - reflexivity.
  - reflexivity.
Defined.

(** ** [get_nomic_map] *)

(** X16: once logged in, [get_nomic_map] never raises.  When the map is
    found it returns its id behind ["iframe"] and its link; on any exception
    it returns the descriptor with two [None], and reports the exception to
    Sentry unless its message is the one of a course without a map.  The two
    entries of the descriptor are both present or both absent. *)
Theorem get_nomic_map_returns_descriptor (w : map_world) (course_name : string) :
  descriptor_login w = None ->
  exists d tr,
    (forall t, get_nomic_map w course_name t
               = (Ok d, (t ++ Nomic_login :: tr)%list))
    /\ match get_map w (NOMIC_MAP_NAME_PREFIX ++ course_name) with
       | Ok (i, link) =>
           d = {| map_id := Some ("iframe" ++ i); map_link := Some link |} /\ tr = []
       | Raise e =>
           d = {| map_id := None; map_link := None |} /\ tr = report e
       end
    /\ (map_id d = None <-> map_link d = None)
    /\ (count is_capture tr <= 1)%nat
    /\ (forall e, get_map w (NOMIC_MAP_NAME_PREFIX ++ course_name) = Raise e ->
                  str e = unique_id_field_message -> tr = []).
Proof.
  intros Hlogin. unfold get_nomic_map. rewrite Hlogin. cbv zeta.
  destruct (get_map w (NOMIC_MAP_NAME_PREFIX ++ course_name)) as [[i link]|e] eqn:Hmap.
  - exists {| map_id := Some ("iframe" ++ i); map_link := Some link |}, [].
    split; [|split; [now split | split; [split; discriminate | split]]].
    + intros t. mrun. rewrite try_except_run. mrun. reflexivity.
    + cbv. lia.
    + discriminate.
  - exists {| map_id := None; map_link := None |}, (report e).
    split; [|split; [now split | split; [now split | split]]].
    + intros t. mrun. rewrite try_except_run. mrun.
      unfold report. destruct (str e =? unique_id_field_message)%string; mrun;
        unfold ret; rewrite <- ?app_assoc; reflexivity.
    + unfold report. destruct (str e =? unique_id_field_message)%string; cbv; lia.
    + intros e' [= <-] He. unfold report.
      now replace (str e =? unique_id_field_message)%string with true
        by (symmetry; now apply String.eqb_eq).
Qed.

Lemma get_nomic_map_returns_descriptor_witness :
  get_nomic_map (sample_map_world (Raise (Exception_msg unique_id_field_message)))
    "cs101" []
  = (Ok {| map_id := None; map_link := None |}, [Nomic_login]).
Proof.
  destruct (get_nomic_map_returns_descriptor
              (sample_map_world (Raise (Exception_msg unique_id_field_message)))
              "cs101")
    as [d [tr (Hrun & Hd & _)]].
  - reflexivity.
  - rewrite (Hrun []). cbn in Hd. destruct Hd as [-> ->]. reflexivity.
Defined.

(** ** Two more runs of the decorated function *)

(** X17: an UPDATE deletes the prior point before it writes the new
    transcript.  When the content of one of the newest two messages does not
    resolve to a text (an empty list of parts, a first part without
    ['text']), the exception comes after the delete: the point is deleted,
    nothing is added, and the failure being permanent the call is not made
    again; it is reported and the caller gets [None]. *)
Theorem unreadable_update_deletes_the_point
    (worlds : nat -> world) (course_name : string) (conv : log_data)
    (snap : snapshot) (ids : list Z) (prev_index : Z) (prev : indexed_record)
    (v : vector) (created fm : string) (e : pyexn) :
  login (worlds 1%nat) = None -> delete_data (worlds 1%nat) = None ->
  atlas_project (worlds 1%nat) = Ok snap ->
  astype_int (map_metadata_df snap) = Ok ids ->
  located snap conv prev_index prev ->
  py_index (map_embeddings_df snap) (prev_index - 1) = Ok v ->
  List.length v = 1536%nat ->
  to_datetime_strftime (worlds 1%nat) (created_at prev) = Ok created ->
  parse_first_message (conversation prev) = Ok fm ->
  append_lines "" (py_last 2 (log_messages conv)) = Raise e ->
  exists prev_id,
    id prev = PyInt prev_id
    /\ (e = IndexError \/ e = KeyError_text)
    /\ log_convo_to_nomic worlds course_name conv
       = Some (Ok None,
               [ Call_log_convo_to_nomic; Nomic_login; Delete_data [prev_id];
                 Capture_exception (Exception_dict (str e)) ]).
Proof.
  intros Hlogin Hdel Hsnap Hids Hloc Hv Hlen Hcreated Hfm Hls.
  destruct (located_In _ _ _ _ Hloc) as [Hrow Hcid].
  destruct (astype_int_In _ _ _ _ Hids Hrow) as [prev_id [Hid Hidin]].
  destruct (append_lines_error _ _ _ Hls) as [m (_ & _ & He)].
  exists prev_id. split; [assumption|]. split; [assumption|].
  assert (Hrun : attempt (worlds 1%nat) course_name conv
                 = (Raise (Exception_dict (str e)),
                    [ Call_log_convo_to_nomic; Nomic_login; Delete_data [prev_id] ])).
  { pose proof (located_in_values _ _ _ _ Hloc) as Hin.
    destruct Hloc as [rest Hsel].
    unfold attempt, log_convo_to_nomic_body. rewrite Hlogin. mrun.
    rewrite try_except_run. rewrite Hsnap. mrun. rewrite Hids. mrun.
    rewrite Hin. unfold update_point. rewrite Hsel.
    change (map fst ((prev_index, prev) :: rest)) with (prev_index :: map fst rest).
    change (map snd ((prev_index, prev) :: rest)) with (prev :: map snd rest).
    rewrite !py_index_head. mrun. rewrite Hv. mrun.
    rewrite (reshape_ok v Hlen). mrun.
    unfold int_id. rewrite Hid. mrun. rewrite Hcreated. mrun.
    rewrite Hdel. mrun. rewrite Hfm. mrun.
    rewrite append_lines_acc, Hls. mrun.
    replace (str e =? unique_id_field_message)%string with false
      by (destruct He as [-> | ->]; reflexivity).
    reflexivity. }
  unfold log_convo_to_nomic. change max_tries with 5%nat.
  rewrite (retry_permanent worlds course_name conv 4 0 [] _ _ Hrun); [reflexivity|].
  destruct He as [-> | ->]; intros [H|[H|[H|[]]]]; discriminate.
Qed.

Lemma unreadable_update_deletes_the_point_witness :
  log_convo_to_nomic (fun _ => sample_world (Ok one_row)) "cs101"
    (sample_conversation "conv-a" [question; answer; picture])
  = Some (Ok None,
          [ Call_log_convo_to_nomic; Nomic_login; Delete_data [7%Z];
            Capture_exception (Exception_dict "'text'") ]).
Proof.
  destruct (unreadable_update_deletes_the_point
              (fun _ => sample_world (Ok one_row)) "cs101"
              (sample_conversation "conv-a" [question; answer; picture])
              one_row [7%Z] 0 (sample_record 7 "conv-a") zeros
              "2024-01-05 10:00:00" "What is a heap?" KeyError_text)
    as [prev_id (Hid & _ & Hrun)].
  - reflexivity.
  - reflexivity.
  - reflexivity.
  - reflexivity.
  - exists []. reflexivity.
  - vm_compute. reflexivity.
  - vm_compute. reflexivity.
  - reflexivity.
  - vm_compute. reflexivity.
  - vm_compute. reflexivity.
  - injection Hid as <-. exact Hrun.
Defined.

(** X18: when the course has no map and Supabase holds nineteen well-formed
    rows or more, one call creates the map: one batch of embeddings, the
    map, its index.  The caller still gets [None]: the status of
    [create_nomic_map] is not handed back (line 192 prints it), so a map that
    was created and a bootstrap that was deferred or failed look the same to
    the caller. *)
Theorem created_map_is_not_reported_to_the_caller
    (worlds : nat -> world) (course_name : string) (conv : log_data)
    (rows : list history_row) (e : pyexn) :
  login (worlds 1%nat) = None ->
  atlas_project (worlds 1%nat) = Raise e ->
  str e = unique_id_field_message ->
  map_login (worlds 1%nat) = None -> create_client (worlds 1%nat) = None ->
  supabase_rows (worlds 1%nat) = Ok rows ->
  (19 <= List.length rows)%nat ->
  Forall (well_formed_row (worlds 1%nat)) rows ->
  log_messages conv <> [] ->
  Forall readable (log_messages conv) ->
  (forall texts, exists embeddings,
      embed_documents (worlds 1%nat) texts = Ok embeddings) ->
  map_embeddings (worlds 1%nat) = None -> create_index (worlds 1%nat) = None ->
  exists queries records embeddings,
    log_convo_to_nomic worlds course_name conv
    = Some (Ok None,
            [ Call_log_convo_to_nomic; Nomic_login;
              Call_create_nomic_map; Nomic_login; Embed_documents queries;
              Map_embeddings embeddings records;
              Create_index (course_name ++ "_convo_index") ])
    /\ create_nomic_map (worlds 1%nat) course_name conv []
       = (Ok (Some ("Successfully created Nomic map for " ++ course_name)),
          [ Call_create_nomic_map; Nomic_login; Embed_documents queries;
            Map_embeddings embeddings records;
            Create_index (course_name ++ "_convo_index") ])
    /\ (List.length rows <= List.length records)%nat.
Proof.
  intros Hlogin Hproj Hmsg Hml Hcc Hrows Hlen Hwf Hne Hread Hemb Hmap Hidx.
  destruct (assemble_spec (worlds 1%nat) course_name conv rows Hwf Hne Hread)
    as [queries [records (Hasm & Hlenr & _)]].
  destruct (Hemb queries) as [embeddings Hq].
  pose proof (fun t => create_nomic_map_bulk (worlds 1%nat) course_name conv rows
                         queries records embeddings t
                         Hml Hcc Hrows Hlen Hasm Hq Hmap Hidx) as Hcreate.
  exists queries, records, embeddings. split; [|split].
  - unfold log_convo_to_nomic. change max_tries with 5%nat. cbn [retry].
    unfold log_convo_to_nomic_body. rewrite Hlogin. mrun.
    rewrite try_except_run, Hproj. mrun.
    replace (str e =? unique_id_field_message)%string with true
      by (symmetry; now apply String.eqb_eq).
    unfold bind at 1. rewrite Hcreate. unfold ret. reflexivity.
  - apply (Hcreate []).
  - rewrite Hlenr. destruct (existsb _ rows); lia.
Qed.

Lemma created_map_is_not_reported_to_the_caller_witness :
  exists t,
    log_convo_to_nomic (fun _ => bootstrap_world nineteen_rows) "cs101"
      (sample_conversation "conv-new" [question]) = Some (Ok None, t)
    /\ List.length (mapped_records t) = 20%nat.
Proof.
  destruct (created_map_is_not_reported_to_the_caller
              (fun _ => bootstrap_world nineteen_rows) "cs101"
              (sample_conversation "conv-new" [question]) nineteen_rows
              (Exception_msg unique_id_field_message))
    as [queries [records [embeddings (Hrun & _)]]].
  - reflexivity.
  - reflexivity.
  - reflexivity.
  - reflexivity.
  - reflexivity.
  - reflexivity.
  - vm_compute. lia.
  - unfold nineteen_rows. apply Forall_app. split.
    + apply Forall_forall. intros row Hin. apply repeat_spec in Hin as ->.
      split; [now exists "2024-01-02 08:00:00"|].
      split; [discriminate|]. repeat constructor. now exists "What is a heap?".
    + repeat constructor; try discriminate; eexists; reflexivity.
  - discriminate.
  - repeat constructor. now exists "What is a heap?".
  - intros texts. eexists. reflexivity.
  - reflexivity.
  - reflexivity.
  - eexists. split; [exact Hrun|].
    vm_compute in Hrun. injection Hrun as <- <- <-. reflexivity.
Defined.
